(** * Transcript extraction and learning ingestion

    A shallow embedding of [scripts/extract-from-transcript.py] and
    [scripts/import-learnings.py], and the properties of the pipeline
    checked against it.

    Python values are modelled as follows.
    - A [str] is a [text], a list of characters; every character is an
      [ascii] (so the model covers 8-bit text).
    - A Python [int] is a [Z]; loop counters are [nat].
    - Slices follow Python's rules for negative and out-of-range bounds.
    - The value of [json.loads] is a [json] tree; [None] and JSON [null] are
      the same Python object and are both [JNull].
    - Effects (environment, network, standard streams, [sys.exit],
      exceptions) are threaded through a state-and-exception monad. *)

From Stdlib Require Import Ascii String List ZArith Lia Bool.
Import ListNotations.

Local Open Scope Z_scope.
Local Set Warnings "-register-all".

(* ------------------------------------------------------------------ *)
(** ** Text *)

Module Text.

Definition text := list ascii.

Definition str (s : string) : text := list_ascii_of_string s.

Definition nl : ascii := ascii_of_nat 10.

(** [len(x)] *)
Definition len {A} (l : list A) : Z := Z.of_nat (length l).

(** Python normalises a slice bound [i] of a sequence of length [n]: a
    negative bound counts from the end, and the result is clamped to
    [0..n]. *)
Definition norm_index (n i : Z) : Z :=
  let j := if i <? 0 then i + n else i in
  Z.max 0 (Z.min n j).

(** [l[lo:hi]]; an omitted bound is [None]. *)
Definition py_slice {A} (l : list A) (lo hi : option Z) : list A :=
  let n := len l in
  let a := match lo with Some i => norm_index n i | None => 0 end in
  let b := match hi with Some i => norm_index n i | None => n end in
  firstn (Z.to_nat (b - a)) (skipn (Z.to_nat a) l).

Fixpoint text_eqb (a b : text) : bool :=
  match a, b with
  | [], [] => true
  | x :: a', y :: b' => Ascii.eqb x y && text_eqb a' b'
  | _, _ => false
  end.

(** [s.startswith(p)] *)
Fixpoint startswith (p s : text) : bool :=
  match p, s with
  | [], _ => true
  | x :: p', y :: s' => Ascii.eqb x y && startswith p' s'
  | _ :: _, [] => false
  end.

Definition code (c : ascii) : N := N_of_ascii c.

(** [c.isspace()] on the characters below U+0100: the ASCII controls
    [\t \n \v \f \r], the separators U+001C..U+001F, the space, NEL and
    the no-break space. *)
Definition py_isspace (c : ascii) : bool :=
  let n := code c in
  ((9 <=? n) && (n <=? 13) || (28 <=? n) && (n <=? 32)
   || (n =? 133) || (n =? 160))%N.

Fixpoint lstrip (s : text) : text :=
  match s with
  | c :: s' => if py_isspace c then lstrip s' else s
  | [] => []
  end.

Definition rstrip (s : text) : text := rev (lstrip (rev s)).

(** [s.strip()] *)
Definition strip (s : text) : text := rstrip (lstrip s).

(** [s.find(sub)], counted from position [i] of the whole string: the
    lowest index at which [sub] occurs, or [-1]. *)
Fixpoint find_from (sub s : text) (i : Z) : Z :=
  if startswith sub s then i
  else match s with
       | [] => -1
       | _ :: s' => find_from sub s' (i + 1)
       end.

Definition find (sub s : text) : Z := find_from sub s 0.

(** [s.rfind(sub)]: the highest index at which [sub] occurs, or [-1]. *)
Fixpoint rfind_from (sub s : text) (i : Z) : Z :=
  let later := match s with
               | [] => -1
               | _ :: s' => rfind_from sub s' (i + 1)
               end in
  if 0 <=? later then later
  else if startswith sub s then i else -1.

Definition rfind (sub s : text) : Z := rfind_from sub s 0.

(** [s.split(sep)] for a non-empty separator: occurrences are found from the
    left and do not overlap.  [skip] counts the characters of a separator
    still to be passed over; [cur] is the current piece, reversed. *)
Fixpoint split_aux (sep : text) (skip : nat) (cur s : text) : list text :=
  match s with
  | [] => [rev cur]
  | c :: s' =>
      match skip with
      | S k => split_aux sep k cur s'
      | O =>
          if startswith sep s
          then rev cur :: split_aux sep (length sep - 1) [] s'
          else split_aux sep 0 (c :: cur) s'
      end
  end.

Definition split (sep s : text) : list text := split_aux sep 0 [] s.

(** Whether [sub] occurs in [s] ([sub in s]). *)
Fixpoint contains (sub s : text) : bool :=
  startswith sub s
  || match s with
     | [] => false
     | _ :: s' => contains sub s'
     end.

End Text.
Import Text.

(* ------------------------------------------------------------------ *)
(** ** JSON values, as Python sees them *)

Module Json.

(** A Python [float] read from a JSON text.  A decimal literal is kept as
    the exact decimal [m * 10^e] it denotes. *)
Inductive pyfloat :=
| FDec (m e : Z)
| FInf (negative : bool)
| FNaN.

(** The values [json.loads] produces.  An object is a [dict]: its fields
    are kept in insertion order and its keys are strings. *)
Inductive json :=
| JNull
| JBool (b : bool)
| JInt (n : Z)
| JFloat (f : pyfloat)
| JStr (s : text)
| JArr (items : list json)
| JObj (fields : list (text * json)).

Definition dict := list (text * json).

Fixpoint dict_lookup (k : text) (d : dict) : option json :=
  match d with
  | [] => None
  | (k', v) :: d' => if text_eqb k k' then Some v else dict_lookup k d'
  end.

(** [d[k] = v]: an existing key keeps its place, a new key goes last. *)
Fixpoint dict_set (k : text) (v : json) (d : dict) : dict :=
  match d with
  | [] => [(k, v)]
  | (k', v') :: d' =>
      if text_eqb k k' then (k', v) :: d' else (k', v') :: dict_set k v d'
  end.

(** A decimal rounds to the float [0.0] when it is zero or at most half the
    least positive binary64 number, [2^-1075]. *)
Definition float_is_zero (f : pyfloat) : bool :=
  match f with
  | FDec m e => (m =? 0) || ((e <? 0) && (Z.abs m * 2 ^ 1075 <=? 10 ^ (- e)))
  | FInf _ | FNaN => false
  end.

(** [bool(v)] *)
Definition truthy (v : json) : bool :=
  match v with
  | JNull => false
  | JBool b => b
  | JInt n => negb (n =? 0)
  | JFloat f => negb (float_is_zero f)
  | JStr [] | JArr [] | JObj [] => false
  | JStr _ | JArr _ | JObj _ => true
  end.

(** [v == s] for a string literal [s]. *)
Definition eq_str (v : json) (s : text) : bool :=
  match v with
  | JStr t => text_eqb t s
  | _ => false
  end.

(** *** Lexical analysis

    One pass over the characters.  A scalar that is not a string (a number,
    [true], [false], [null], [NaN], [Infinity], [-Infinity]) is read as a
    maximal run of word characters and classified when the run ends. *)

Inductive token :=
| TLBracket | TRBracket | TLBrace | TRBrace | TComma | TColon
| TString (s : text)
| TScalar (v : json).

Definition is_digit (c : ascii) : bool := ((48 <=? code c) && (code c <=? 57))%N.

Definition digit_val (c : ascii) : Z := Z.of_N (code c) - 48.

Fixpoint span_digits (s : text) : text * text :=
  match s with
  | c :: s' =>
      if is_digit c then let (d, r) := span_digits s' in (c :: d, r)
      else ([], s)
  | [] => ([], [])
  end.

Definition digits_val (ds : text) : Z :=
  fold_left (fun a c => 10 * a + digit_val c) ds 0.

Definition is_char (x : string) (c : ascii) : bool :=
  match x with
  | String y EmptyString => Ascii.eqb c y
  | _ => false
  end.

(** The JSON number grammar: an optional minus sign; an integer part, which
    is a single zero or a run of digits that does not start with zero; an
    optional fraction, a point followed by digits; an optional exponent, [e]
    or [E], an optional sign and digits.  A literal with a fraction or an
    exponent is a [float], any other an [int]. *)
Definition parse_number (w : text) : option json :=
  let '(sign, w1) :=
    match w with
    | c :: r => if is_char "-" c then (-1, r) else (1, w)
    | [] => (1, w)
    end in
  let '(ip, w2) := span_digits w1 in
  let leading_zero :=
    match ip with
    | c :: _ :: _ => is_char "0" c
    | _ => false
    end in
  let '(fp, w3) :=
    match w2 with
    | c :: r => if is_char "." c then let (f, r') := span_digits r in (Some f, r')
                else (None, w2)
    | [] => (None, w2)
    end in
  let '(ex, w4) :=
    match w3 with
    | c :: r =>
        if is_char "e" c || is_char "E" c then
          let '(sg, r1) :=
            match r with
            | s :: r' => if is_char "+" s then (1, r')
                         else if is_char "-" s then (-1, r') else (1, r)
            | [] => (1, r)
            end in
          let (ed, r2) := span_digits r1 in (Some (sg, ed), r2)
        else (None, w3)
    | [] => (None, w3)
    end in
  match ip, fp, ex, w4 with
  | [], _, _, _ => None
  | _, Some [], _, _ => None
  | _, _, Some (_, []), _ => None
  | _, _, _, _ :: _ => None
  | _, None, None, [] =>
      if leading_zero then None else Some (JInt (sign * digits_val ip))
  | _, _, _, [] =>
      if leading_zero then None else
      let f := match fp with Some f => f | None => [] end in
      let e := match ex with Some (sg, ed) => sg * digits_val ed | None => 0 end in
      Some (JFloat (FDec (sign * digits_val (ip ++ f)) (e - len f)))
  end.

Definition classify (w : text) : option json :=
  if text_eqb w (str "null") then Some JNull
  else if text_eqb w (str "true") then Some (JBool true)
  else if text_eqb w (str "false") then Some (JBool false)
  else if text_eqb w (str "NaN") then Some (JFloat FNaN)
  else if text_eqb w (str "Infinity") then Some (JFloat (FInf false))
  else if text_eqb w (str "-Infinity") then Some (JFloat (FInf true))
  else parse_number w.

(** JSON's insignificant whitespace: space, tab, line feed, carriage
    return. *)
Definition json_ws (c : ascii) : bool :=
  ((code c =? 32) || (code c =? 9) || (code c =? 10) || (code c =? 13))%N.

Definition is_alpha (c : ascii) : bool :=
  ((65 <=? code c) && (code c <=? 90) || (97 <=? code c) && (code c <=? 122))%N.

Definition word_char (c : ascii) : bool :=
  is_alpha c || is_digit c || is_char "+" c || is_char "-" c || is_char "." c.

Definition punct (c : ascii) : option token :=
  if is_char "[" c then Some TLBracket
  else if is_char "]" c then Some TRBracket
  else if is_char "{" c then Some TLBrace
  else if is_char "}" c then Some TRBrace
  else if is_char "," c then Some TComma
  else if is_char ":" c then Some TColon
  else None.

Definition hex_val (c : ascii) : option Z :=
  let n := code c in
  if is_digit c then Some (Z.of_N n - 48)
  else if ((97 <=? n) && (n <=? 102))%N then Some (Z.of_N n - 87)
  else if ((65 <=? n) && (n <=? 70))%N then Some (Z.of_N n - 55)
  else None.

Definition quote : ascii := ascii_of_nat 34.
Definition backslash : ascii := ascii_of_nat 92.

Inductive mode :=
| MIdle
| MWord (acc : text)
| MStr (acc : text)
| MEsc (acc : text)
| MUni (acc : text) (digits : nat) (value : Z)
| MFail.

(** A lexer state: the mode and the tokens read so far, last first.  The
    accumulators [acc] hold characters last first too. *)
Definition lex_state : Type := mode * list token.

Definition step_idle (toks : list token) (c : ascii) : lex_state :=
  if json_ws c then (MIdle, toks)
  else if Ascii.eqb c quote then (MStr [], toks)
  else match punct c with
       | Some t => (MIdle, t :: toks)
       | None => if word_char c then (MWord [c], toks) else (MFail, toks)
       end.

(** The character an escape [\c] stands for. *)
Definition unescape (c : ascii) : option ascii :=
  if Ascii.eqb c quote || Ascii.eqb c backslash || is_char "/" c then Some c
  else if is_char "b" c then Some (ascii_of_nat 8)
  else if is_char "f" c then Some (ascii_of_nat 12)
  else if is_char "n" c then Some (ascii_of_nat 10)
  else if is_char "r" c then Some (ascii_of_nat 13)
  else if is_char "t" c then Some (ascii_of_nat 9)
  else None.

(** A control character inside a string is an error (the decoder is
    strict).  An escape [\uXXXX] above U+00FF has no character in the 8-bit
    text of this model and is an error here. *)
Definition lex_step (st : lex_state) (c : ascii) : lex_state :=
  let (m, toks) := st in
  match m with
  | MFail => (MFail, toks)
  | MIdle => step_idle toks c
  | MWord acc =>
      if word_char c then (MWord (c :: acc), toks)
      else match classify (rev acc) with
           | Some v => step_idle (TScalar v :: toks) c
           | None => (MFail, toks)
           end
  | MStr acc =>
      if Ascii.eqb c quote then (MIdle, TString (rev acc) :: toks)
      else if Ascii.eqb c backslash then (MEsc acc, toks)
      else if (code c <? 32)%N then (MFail, toks)
      else (MStr (c :: acc), toks)
  | MEsc acc =>
      if is_char "u" c then (MUni acc 0 0, toks)
      else match unescape c with
           | Some x => (MStr (x :: acc), toks)
           | None => (MFail, toks)
           end
  | MUni acc n v =>
      match hex_val c with
      | None => (MFail, toks)
      | Some h =>
          let v' := 16 * v + h in
          if (n <? 3)%nat then (MUni acc (S n) v', toks)
          else if v' <? 256 then (MStr (ascii_of_N (Z.to_N v') :: acc), toks)
          else (MFail, toks)
      end
  end.

Definition lex_finish (st : lex_state) : option (list token) :=
  let (m, toks) := st in
  match m with
  | MIdle => Some (rev toks)
  | MWord acc =>
      match classify (rev acc) with
      | Some v => Some (rev (TScalar v :: toks))
      | None => None
      end
  | _ => None
  end.

Definition lex (s : text) : option (list token) :=
  lex_finish (fold_left lex_step s (MIdle, [])).

(** *** Parsing

    Recursive descent over the tokens.  [fuel] bounds the number of nested
    calls; twice the number of tokens, plus two, is always enough. *)
Fixpoint parse_value (fuel : nat) (ts : list token) : option (json * list token) :=
  match fuel with
  | O => None
  | S f =>
      match ts with
      | TScalar v :: r => Some (v, r)
      | TString s :: r => Some (JStr s, r)
      | TLBracket :: TRBracket :: r => Some (JArr [], r)
      | TLBracket :: r => parse_items f r []
      | TLBrace :: TRBrace :: r => Some (JObj [], r)
      | TLBrace :: r => parse_fields f r []
      | _ => None
      end
  end
with parse_items (fuel : nat) (ts : list token) (acc : list json)
  : option (json * list token) :=
  match fuel with
  | O => None
  | S f =>
      match parse_value f ts with
      | Some (v, TComma :: r) => parse_items f r (v :: acc)
      | Some (v, TRBracket :: r) => Some (JArr (rev (v :: acc)), r)
      | _ => None
      end
  end
with parse_fields (fuel : nat) (ts : list token) (acc : dict)
  : option (json * list token) :=
  match fuel with
  | O => None
  | S f =>
      match ts with
      | TString k :: TColon :: r =>
          match parse_value f r with
          | Some (v, TComma :: r') => parse_fields f r' (dict_set k v acc)
          | Some (v, TRBrace :: r') => Some (JObj (dict_set k v acc), r')
          | _ => None
          end
      | _ => None
      end
  end.

(** [json.loads(s)]; [None] stands for [json.JSONDecodeError].  The
    decoder has no limits of its own: CPython refuses an integer literal of
    more than 4300 digits with a [ValueError] and a text nested too deep
    with a [RecursionError], neither of them a [JSONDecodeError], and it
    reads the escapes [\uXXXX] above U+00FF, which an 8-bit text cannot
    hold.  The properties that depend on a text being decoded name the
    value it decodes to; those stated for every text do not say which
    exception ends a computation. *)
Definition json_loads (s : text) : option json :=
  match lex s with
  | None => None
  | Some ts =>
      match parse_value (2 * length ts + 2) ts with
      | Some (v, []) => Some v
      | _ => None
      end
  end.

(** A JSON text written with apostrophes in place of double quotes. *)
Definition jtext (s : string) : text :=
  map (fun c => if is_char "'" c then quote else c) (str s).

End Json.
Import Json.

(* ------------------------------------------------------------------ *)
(** ** The Python run-time the scripts rely on *)

Module Py.

Inductive error :=
| KeyError | IndexError | TypeError | AttributeError | ValueError
| OverflowError
| JSONDecodeError
| HTTPError | ConnectionError | Timeout | RequestException.

(** What a [raise] carries.  [SystemExit] is not an [Exception]: a clause
    [except Exception] lets it through, a bare [except:] catches it. *)
Inductive exn :=
| SystemExit (code : Z)
| Error (e : error).

Definition is_Exception (x : exn) : bool :=
  match x with
  | Error _ => true
  | SystemExit _ => false
  end.

Definition anything (x : exn) : bool := true.

(** [except requests.exceptions.ConnectionError] *)
Definition is_ConnectionError (x : exn) : bool :=
  match x with
  | Error ConnectionError => true
  | _ => false
  end.

(** The outcome of an operation that has no effect: a value or an error. *)
Inductive pure (A : Type) :=
| Val (a : A)
| Err (e : error).
Arguments Val {A} a.
Arguments Err {A} e.

Definition fail {A} (e : error) : pure A := Err e.

(** The outcome of a computation: it returns, or an exception propagates. *)
Inductive result (A : Type) :=
| Ok (a : A)
| Raised (x : exn).
Arguments Ok {A} a.
Arguments Raised {A} x.

(** *** Operations on values *)

(** [v[k]] for a string [k] *)
Definition item (v : json) (k : text) : pure json :=
  match v with
  | JObj d => match dict_lookup k d with
              | Some x => Val x
              | None => fail KeyError
              end
  | _ => fail TypeError
  end.

(** [v[0]] *)
Definition first (v : json) : pure json :=
  match v with
  | JArr (x :: _) => Val x
  | JStr (c :: _) => Val (JStr [c])
  | JArr [] | JStr [] => fail IndexError
  | JObj _ => fail KeyError
  | _ => fail TypeError
  end.

(** [v.get(k, default)]; [v.get(k)] has the default [None]. *)
Definition get (v : json) (k : text) (default : json) : pure json :=
  match v with
  | JObj d => Val (match dict_lookup k d with
                  | Some x => x
                  | None => default
                  end)
  | _ => fail AttributeError
  end.

(** [v[k] = x] for a string [k] *)
Definition set_item (v : json) (k : text) (x : json) : pure json :=
  match v with
  | JObj d => Val (JObj (dict_set k x d))
  | _ => fail TypeError
  end.

(** [v[:n]]; only strings and lists can be sliced (a dict raises
    [TypeError], or [KeyError] from Python 3.12 on: an [Exception] either
    way). *)
Definition prefix (v : json) (n : Z) : pure json :=
  match v with
  | JStr s => Val (JStr (py_slice s None (Some n)))
  | JArr l => Val (JArr (py_slice l None (Some n)))
  | _ => fail TypeError
  end.

(** The elements [for x in v] runs over: a dict yields its keys, a string
    its characters. *)
Definition iter (v : json) : pure (list json) :=
  match v with
  | JArr l => Val l
  | JObj d => Val (map (fun kv => JStr (fst kv)) d)
  | JStr s => Val (map (fun c => JStr [c]) s)
  | _ => fail TypeError
  end.

(** [len(v)] *)
Definition len_of (v : json) : pure Z :=
  match v with
  | JArr l => Val (len l)
  | JObj d => Val (len d)
  | JStr s => Val (len s)
  | _ => fail TypeError
  end.

(** [k in v] for a string [k]: a key of a dict, an element of a list, a
    substring of a string. *)
Definition has (k : text) (v : json) : pure bool :=
  match v with
  | JObj d => Val (match dict_lookup k d with Some _ => true | None => false end)
  | JArr l => Val (existsb (fun x => eq_str x k) l)
  | JStr s => Val (contains k s)
  | _ => fail TypeError
  end.

(** An [int] that [float] takes: one that rounds to a finite double.  The
    largest double is [2^1024 - 2^971]; half a unit above it the conversion
    raises. *)
Definition fits_float (n : Z) : bool :=
  Z.abs n <? 2 ^ 1024 - 2 ^ 970.

(** [f"{v:.2f}"] formats a number ([bool] is a number too) and converts an
    [int] to a [float] first; the digits printed are those of [v]. *)
Definition format_2f (v : json) : pure json :=
  match v with
  | JBool _ | JFloat _ => Val v
  | JInt n => if fits_float n then Val v else fail OverflowError
  | JStr _ => fail ValueError
  | _ => fail TypeError
  end.

(** A string method ([strip], [split], [startswith]) needs a [str]. *)
Definition as_str (v : json) : pure text :=
  match v with
  | JStr s => Val s
  | _ => fail AttributeError
  end.

(** *** HTTP, as the [requests] library shows it *)

Inductive method := GET | POST.

Record request := {
  meth : method;
  url : text;
  headers : list (text * text);
  payload : option json;       (* the [json=] argument *)
  timeout : option Z
}.

Record response := {
  status_code : Z;
  content : text
}.

(** What the network answers: a response, or an exception raised by the
    call. *)
Inductive reply :=
| Answer (r : response)
| Failure (e : error).

Definition exchange : Type := request * reply.

(** [resp.json()] *)
Definition resp_json (r : response) : pure json :=
  match json_loads (content r) with
  | Some v => Val v
  | None => fail JSONDecodeError
  end.

(** [resp.raise_for_status()] *)
Definition raise_for_status (r : response) : pure unit :=
  if (400 <=? status_code r) && (status_code r <? 600) then fail HTTPError
  else Val tt.

(** *** The outside world and the state of a run *)

(** The process environment, the files, and the network.  The answer to a
    request may depend on every exchange before it. *)
Record world := {
  environ : text -> option text;
  files : text -> option text;
  network : list exchange -> request -> reply
}.

(** The lines the scripts print.  A constructor stands for a [print] of the
    source and carries the values its format string interpolates; [Summary]
    stands for the four lines of the importer's report. *)
Inductive message :=
(* extract-from-transcript.py *)
| AnthropicError (e : exn)            (* Anthropic API error: {e} *)
| NoOllamaModels                      (* No Ollama models available *)
| UsingOllamaModel (selected : text)  (* Using Ollama model: {selected} *)
| OllamaError (e : exn)               (* Ollama error: {e} *)
| Stored (type preview : json)        (* {type}: {content[:60]}... *)
| Duplicate (preview : json)          (* Duplicate: {content[:40]}... *)
| FailedToStore (e : exn)             (* Failed to store: {e} *)
| Usage
| FileNotFound (path : text)          (* File not found: {path} *)
| Extracting (name : text)            (* Extracting learnings from {name}... *)
| TryingOllama                        (* Anthropic API not available, trying Ollama... *)
| NoLLMAvailable                      (* No LLM available for extraction. ... *)
| NoLearnings                         (* No learnings extracted from this session. *)
| Extracted (n : Z)                   (* Extracted {n} learnings, storing... *)
| DaemonNotHealthy (base : text)      (* Daemon not healthy at {base} *)
| DaemonNotReachable (base : text)    (* Daemon not reachable at {base} *)
| JsonDump (v : json)                 (* json.dumps(v, indent=2) *)
| StoredOf (stored : nat) (total : Z) (* Stored {stored}/{total} learnings *)
(* import-learnings.py *)
| InvalidJson (line_num : nat)        (* Line {n}: Invalid JSON - {e} *)
| MissingFields (line_num : nat)      (* Line {n}: Missing required fields (type, content) *)
| DuplicateSim (similarity preview : json)
                                      (* Duplicate (sim={similarity:.2f}): {content[:40]}... *)
| Rejected (line_num : nat) (result : json)
                                      (* Line {n}: {result} *)
| RequestFailed (line_num : nat) (e : exn)
                                      (* Line {n}: Request failed - {e} *)
| NotHealthy                          (* Memory daemon not healthy. ... *)
| CannotConnect                       (* Cannot connect to memory daemon. ... *)
| Summary (imported duplicates errors : nat)
| TotalLearnings (total : json)       (* Total learnings in database: {total} *)
| ByType (by_type : json).            (* By type: {json.dumps(by_type, indent=2)} *)

Record state := {
  DAEMON_URL : text;
  log : list exchange;      (* the requests issued and their replies, oldest first *)
  stdout : list message;
  stderr : list message
}.

(** *** Computations: state and exceptions

    [S] is the state a computation works on: [state], or [state] together
    with the local variables a loop updates.  An exception leaves the state
    as it was when it was raised. *)
Definition M (S A : Type) : Type := S -> result A * S.

Definition ret {S A} (a : A) : M S A := fun s => (Ok a, s).

Definition bind {S A B} (m : M S A) (k : A -> M S B) : M S B :=
  fun s => match m s with
           | (Ok a, s') => k a s'
           | (Raised x, s') => (Raised x, s')
           end.

Definition raise {S A} (x : exn) : M S A := fun s => (Raised x, s).

Definition lift {S A} (r : pure A) : M S A :=
  fun s => match r with
           | Val a => (Ok a, s)
           | Err e => (Raised (Error e), s)
           end.

(** [try: body except <catches> as x: handler x] *)
Definition try_except {S A} (body : M S A) (catches : exn -> bool)
    (handler : exn -> M S A) : M S A :=
  fun s => match body s with
           | (Raised x, s') => if catches x then handler x s' else (Raised x, s')
           | done => done
           end.

(** [sys.exit(code)] *)
Definition sys_exit {S A} (code : Z) : M S A := raise (SystemExit code).

(** Run a computation on [state] where local variables [L] are in scope. *)
Definition global {L A} (m : M state A) : M (L * state) A :=
  fun ls => let (r, s') := m (snd ls) in (r, (fst ls, s')).

Definition update_locals {L} (f : L -> L) : M (L * state) unit :=
  fun ls => (Ok tt, (f (fst ls), snd ls)).

(** Run [m] with fresh local variables [init]; their final values are
    returned with the result. *)
Definition with_locals {L A} (init : L) (m : M (L * state) A) : M state (A * L) :=
  fun s => match m (init, s) with
           | (Ok a, (l, s')) => (Ok (a, l), s')
           | (Raised x, (_, s')) => (Raised x, s')
           end.

(** Evaluate [f] on each element in turn, as a list comprehension does; the
    first exception ends the evaluation. *)
Fixpoint traverse {A B} (f : A -> pure B) (l : list A) : pure (list B) :=
  match l with
  | [] => Val []
  | x :: l' =>
      match f x with
      | Err e => Err e
      | Val y => match traverse f l' with
                | Err e => Err e
                | Val ys => Val (y :: ys)
                end
      end
  end.

Fixpoint for_each {S A} (l : list A) (body : A -> M S unit) : M S unit :=
  match l with
  | [] => ret tt
  | x :: l' => bind (body x) (fun _ => for_each l' body)
  end.

Definition daemon_url : M state text := fun s => (Ok (DAEMON_URL s), s).

Definition with_daemon_url (u : text) (s : state) : state :=
  {| DAEMON_URL := u; log := log s; stdout := stdout s; stderr := stderr s |}.

Definition logged (x : exchange) (s : state) : state :=
  {| DAEMON_URL := DAEMON_URL s; log := log s ++ [x];
     stdout := stdout s; stderr := stderr s |}.

Definition to_stdout (m : message) (s : state) : state :=
  {| DAEMON_URL := DAEMON_URL s; log := log s;
     stdout := stdout s ++ [m]; stderr := stderr s |}.

Definition to_stderr (m : message) (s : state) : state :=
  {| DAEMON_URL := DAEMON_URL s; log := log s;
     stdout := stdout s; stderr := stderr s ++ [m] |}.

Definition set_daemon_url (u : text) : M state unit :=
  fun s => (Ok tt, with_daemon_url u s).

(** [print(m)] *)
Definition print (m : message) : M state unit :=
  fun s => (Ok tt, to_stdout m s).

(** [print(m, file=sys.stderr)] *)
Definition eprint (m : message) : M state unit :=
  fun s => (Ok tt, to_stderr m s).

(** One blocking HTTP call: the exchange is logged, and a failure of the
    transport is raised as an exception. *)
Definition send (w : world) (r : request) : M state response :=
  fun s =>
    let a := network w (log s) r in
    match a with
    | Answer resp => (Ok resp, logged (r, a) s)
    | Failure e => (Raised (Error e), logged (r, a) s)
    end.

(** [requests.get(url, timeout=t)] *)
Definition requests_get (w : world) (u : text) (t : option Z) : M state response :=
  send w {| meth := GET; url := u; headers := []; payload := None; timeout := t |}.

(** [requests.post(url, headers=h, json=v, timeout=t)] *)
Definition requests_post (w : world) (u : text) (h : list (text * text))
    (v : json) (t : option Z) : M state response :=
  send w {| meth := POST; url := u; headers := h; payload := Some v; timeout := t |}.

(** The exit status of the process: [0] when [main] returns, the code of
    [sys.exit], [1] for an uncaught exception. *)
Definition exit_status {A} (r : result A) : Z :=
  match r with
  | Ok _ => 0
  | Raised (SystemExit c) => c
  | Raised (Error _) => 1
  end.

(** *** Paths ([pathlib]) *)

(** The components of a path: the pieces between slashes, without the
    empty ones and the single dots. *)
Definition path_parts (p : text) : list text :=
  filter (fun c => negb (text_eqb c [] || text_eqb c (str ".")))
         (split (str "/") p).

(** [Path(p).name] *)
Definition path_name (p : text) : text := last (path_parts p) [].

(** [Path(p).parent.name] *)
Definition parent_name (p : text) : text :=
  last (removelast (path_parts p)) [].

End Py.
Import Py.

Declare Scope py_scope.
Delimit Scope py_scope with py.
Notation "x <- m ;; k" := (bind m (fun x => k))
  (at level 61, m at next level, right associativity) : py_scope.
Notation "m ;; k" := (bind m (fun _ => k))
  (at level 61, right associativity) : py_scope.
Local Open Scope py_scope.

(* ------------------------------------------------------------------ *)
(** ** scripts/extract-from-transcript.py *)

Module Extract.

Definition default_daemon_url : text := str "http://127.0.0.1:8741".

Definition EXTRACTION_PROMPT : text :=
  str "Analyze this Claude Code session transcript and extract learnings that should be remembered for future sessions.

## What to Extract

1. **WORKING_SOLUTION** - Commands, code patterns, or approaches that WORKED after trial and error
2. **GOTCHA** - Counterintuitive behaviors, traps, or "
  ++ [quote] ++ str "watch out for this"
  ++ [quote] ++ str " knowledge  
3. **PATTERN** - Recurring architectural decisions or workflows
4. **DECISION** - Explicit design choices and their reasoning
5. **FAILURE** - Things that looked promising but didn't work, and WHY
6. **PREFERENCE** - User's stated preferences for how they want things done

## Rules

1. Be specific - include actual commands, file paths, error messages
2. Prefer solutions over problems - only extract FAILURE if no solution was found
3. Confidence: 0.95+ = confirmed working, 0.85-0.94 = strong evidence, 0.70-0.84 = reasonable inference
4. Skip generic programming knowledge Claude already knows
5. Focus on user-specific infrastructure, preferences, and workflows

## Output Format

Output ONLY valid JSON array, no other text:

[
  {"
  ++ [quote] ++ str "type"
  ++ [quote] ++ str ": "
  ++ [quote] ++ str "WORKING_SOLUTION"
  ++ [quote] ++ str ", "
  ++ [quote] ++ str "content"
  ++ [quote] ++ str ": "
  ++ [quote] ++ str "specific solution here"
  ++ [quote] ++ str ", "
  ++ [quote] ++ str "context"
  ++ [quote] ++ str ": "
  ++ [quote] ++ str "what it solves"
  ++ [quote] ++ str ", "
  ++ [quote] ++ str "confidence"
  ++ [quote] ++ str ": 0.95},
  {"
  ++ [quote] ++ str "type"
  ++ [quote] ++ str ": "
  ++ [quote] ++ str "GOTCHA"
  ++ [quote] ++ str ", "
  ++ [quote] ++ str "content"
  ++ [quote] ++ str ": "
  ++ [quote] ++ str "specific gotcha here"
  ++ [quote] ++ str ", "
  ++ [quote] ++ str "context"
  ++ [quote] ++ str ": "
  ++ [quote] ++ str "when this applies"
  ++ [quote] ++ str ", "
  ++ [quote] ++ str "confidence"
  ++ [quote] ++ str ": 0.90}
]

If no learnings are worth extracting, output: []

## Transcript

".

(** [json.loads(s)] *)
Definition loads (s : text) : pure json :=
  match json_loads s with
  | Some v => Val v
  | None => fail JSONDecodeError
  end.

Definition fence : text := str "```".

(** Lines 82-86: the fence is stripped from the text of the reply. *)
Definition strip_fence (content : text) : pure text :=
  let content := strip content in
  if startswith fence content then
    match nth_error (split fence content) 1 with
    | None => fail IndexError
    | Some content =>
        Val (if startswith (str "json") content
            then py_slice content (Some 4) None
            else content)
    end
  else Val content.

(** Lines 82-88: what [extract_with_anthropic] makes of the reply's text. *)
Definition decode_fenced (content : text) : pure json :=
  match strip_fence content with
  | Val content => loads content
  | Err e => Err e
  end.

(** Lines 138-141: the substring from the first opening bracket to the last
    closing bracket, when there is one. *)
Definition bracket_scan (content : text) : text :=
  let start := find (str "[") content in
  let end_ := rfind (str "]") content + 1 in
  if (0 <=? start) && (start <? end_)
  then py_slice content (Some start) (Some end_)
  else content.

(** Lines 135-143: what [extract_with_ollama] makes of the model's
    response. *)
Definition decode_bracketed (response : text) : pure json :=
  loads (bracket_scan (strip response)).

(** Line 101, one element: [m["name"].split(":")[0]] *)
Definition model_base (m : json) : pure text :=
  match item m (str "name") with
  | Err e => Err e
  | Val n => match as_str n with
            | Err e => Err e
            | Val s => Val (hd [] (split (str ":") s))
            end
  end.

(** Line 101: the names of the installed models, each without its tag. *)
Definition available_models (tags : json) : pure (list text) :=
  match get tags (str "models") (JArr []) with
  | Err e => Err e
  | Val models => match iter models with
                 | Err e => Err e
                 | Val models => traverse model_base models
                 end
  end.

Definition preferred : list text :=
  [str "llama3"; str "mistral"; str "mixtral"; str "codellama";
   str "deepseek-coder"].

(** Lines 105-112.  [selected] is [None] or a string. *)
Definition select_model (available_models : list text) : option text :=
  let selected :=
    List.find (fun m => existsb (text_eqb m) available_models) preferred in
  let not_selected :=
    match selected with
    | None | Some [] => true
    | Some _ => false
    end in
  match available_models with
  | first_model :: _ => if not_selected then Some first_model else selected
  | [] => selected
  end.

(** Lines 199-203 of [main]. *)
Definition max_chars : Z := 100000.

Definition truncation_marker : text :=
  [nl; nl] ++ str "[... transcript truncated ...]" ++ [nl; nl].

Definition truncate (transcript : text) : text :=
  if len transcript >? max_chars then
    let half := max_chars / 2 in
    py_slice transcript None (Some half)
      ++ truncation_marker
      ++ py_slice transcript (Some (- half)) None
  else transcript.

Definition is_None (v : json) : bool :=
  match v with
  | JNull => true
  | _ => false
  end.

(** [sys.argv.index(x)], for an [x] that occurs in [argv] *)
Fixpoint index (x : text) (argv : list text) : Z :=
  match argv with
  | [] => 0
  | a :: argv' => if text_eqb a x then 0 else 1 + index x argv'
  end.

Section Program.
Variable w : world.

(** The module-level assignment of [DAEMON_URL], before [main] runs. *)
Definition initial_state : state :=
  {| DAEMON_URL := match environ w (str "CLAUDE_DAEMON_URL") with
                   | Some u => u
                   | None => default_daemon_url
                   end;
     log := []; stdout := []; stderr := [] |}.

Definition anthropic_request (api_key transcript : text) : request :=
  {| meth := POST;
     url := str "https://api.anthropic.com/v1/messages";
     headers := [(str "x-api-key", api_key);
                 (str "content-type", str "application/json");
                 (str "anthropic-version", str "2023-06-01")];
     payload := Some (JObj
       [(str "model", JStr (str "claude-sonnet-4-20250514"));
        (str "max_tokens", JInt 4096);
        (str "messages", JArr [JObj
           [(str "role", JStr (str "user"));
            (str "content", JStr (EXTRACTION_PROMPT ++ transcript))]])]);
     timeout := Some 120 |}.

(** The result is a decoded JSON value, or [None] ([JNull]). *)
Definition extract_with_anthropic (transcript : text) : M state json :=
  match environ w (str "ANTHROPIC_API_KEY") with
  | None | Some [] => ret JNull
  | Some api_key =>
      try_except
        (resp <- send w (anthropic_request api_key transcript) ;;
         lift (raise_for_status resp) ;;
         body <- lift (resp_json resp) ;;
         blocks <- lift (item body (str "content")) ;;
         block <- lift (first blocks) ;;
         content <- lift (item block (str "text")) ;;
         content <- lift (as_str content) ;;
         lift (decode_fenced content))
        is_Exception
        (fun e => eprint (AnthropicError e) ;; ret JNull)
  end.

Definition generate_request (ollama_url selected transcript : text) : request :=
  {| meth := POST;
     url := ollama_url ++ str "/api/generate";
     headers := [];
     payload := Some (JObj
       [(str "model", JStr selected);
        (str "prompt", JStr (EXTRACTION_PROMPT ++ transcript));
        (str "stream", JBool false);
        (str "options", JObj
           [(str "temperature", JFloat (FDec 3 (-1)));
            (str "num_predict", JInt 4096)])]);
     timeout := Some 300 |}.

Definition ollama_url : text :=
  match environ w (str "OLLAMA_URL") with
  | Some u => u
  | None => str "http://localhost:11434"
  end.

Definition tags_request : request :=
  {| meth := GET; url := ollama_url ++ str "/api/tags"; headers := [];
     payload := None; timeout := Some 5 |}.

Definition extract_with_ollama (transcript : text) : M state json :=
  try_except
    (resp <- send w tags_request ;;
     tags <- lift (resp_json resp) ;;
     available_models <- lift (available_models tags) ;;
     match select_model available_models with
     | None | Some [] =>
         eprint NoOllamaModels ;; ret JNull
     | Some selected =>
         eprint (UsingOllamaModel selected) ;;
         resp <- send w (generate_request ollama_url selected transcript) ;;
         lift (raise_for_status resp) ;;
         body <- lift (resp_json resp) ;;
         response <- lift (item body (str "response")) ;;
         response <- lift (as_str response) ;;
         lift (decode_bracketed response)
     end)
    is_Exception
    (fun e => eprint (OllamaError e) ;; ret JNull).

(** The body of the loop of [store_learnings]; the local variable is the
    counter [stored].  The assignment of [session_source] updates the
    element of [learnings] in place; nothing reads it there again. *)
Definition store_one (session_id : text) (learning : json)
  : M (nat * state) unit :=
  type <- lift (get learning (str "type") JNull) ;;
  skip <- (if negb (truthy type) then ret true
           else content <- lift (get learning (str "content") JNull) ;;
                ret (negb (truthy content))) ;;
  if skip : bool then ret tt
  else
    learning <- lift (set_item learning (str "session_source") (JStr session_id)) ;;
    try_except
      (base <- global daemon_url ;;
       resp <- global (requests_post w (base ++ str "/store") [] learning (Some 10)) ;;
       result <- lift (resp_json resp) ;;
       status <- lift (get result (str "status") JNull) ;;
       if eq_str status (str "stored") then
         update_locals S ;;
         type <- lift (item learning (str "type")) ;;
         content <- lift (item learning (str "content")) ;;
         preview <- lift (prefix content 60) ;;
         global (eprint (Stored type preview))
       else
         status <- lift (get result (str "status") JNull) ;;
         if eq_str status (str "duplicate") then
           content <- lift (item learning (str "content")) ;;
           preview <- lift (prefix content 40) ;;
           global (eprint (Duplicate preview))
         else ret tt)
      is_Exception
      (fun e => global (eprint (FailedToStore e))).

Definition store_learnings (learnings : json) (session_id : text)
  : M state nat :=
  r <- with_locals 0%nat
         (items <- lift (iter learnings) ;;
          for_each items (store_one session_id)) ;;
  ret (snd r).

Definition health_check (learnings : json) : M state unit :=
  try_except
    (base <- daemon_url ;;
     resp <- requests_get w (base ++ str "/health") (Some 2) ;;
     if negb (status_code resp =? 200) then
       eprint (DaemonNotHealthy base) ;;
       print (JsonDump learnings) ;;
       sys_exit 1
     else ret tt)
    anything
    (fun _ =>
       base <- daemon_url ;;
       eprint (DaemonNotReachable base) ;;
       print (JsonDump learnings) ;;
       sys_exit 1).

(** Lines 211-215: Anthropic first, then Ollama. *)
Definition extract (transcript : text) : M state json :=
  learnings <- extract_with_anthropic transcript ;;
  if is_None learnings then
    eprint TryingOllama ;;
    extract_with_ollama transcript
  else ret learnings.

(** Lines 217-241: what [main] does with the outcome of the extraction. *)
Definition deliver (learnings : json) (session_id : text) : M state unit :=
  if is_None learnings then
    eprint NoLLMAvailable ;; sys_exit 1
  else if negb (truthy learnings) then
    eprint NoLearnings ;; sys_exit 0
  else
    n <- lift (len_of learnings) ;;
    eprint (Extracted n) ;;
    health_check learnings ;;
    stored <- store_learnings learnings session_id ;;
    n <- lift (len_of learnings) ;;
    eprint (StoredOf stored n).

(** A path that exists is taken to be a readable text file. *)
Definition main (argv : list text) : M state unit :=
  if len argv <? 2 then
    eprint Usage ;; sys_exit 1
  else
    let transcript_path := nth 1 argv [] in
    match files w transcript_path with
    | None => eprint (FileNotFound transcript_path) ;; sys_exit 1
    | Some contents =>
        (if existsb (fun a => text_eqb a (str "--daemon-url")) argv then
           let idx := index (str "--daemon-url") argv in
           if idx + 1 <? len argv
           then set_daemon_url (nth (Z.to_nat (idx + 1)) argv [])
           else ret tt
         else ret tt) ;;
        let transcript := truncate contents in
        let session_id := parent_name transcript_path in
        eprint (Extracting (path_name transcript_path)) ;;
        learnings <- extract transcript ;;
        deliver learnings session_id
    end.

(** A run of the script: its exit status and the final state. *)
Definition run (argv : list text) : Z * state :=
  let (r, s) := main argv initial_state in (exit_status r, s).

End Program.

End Extract.

(* ------------------------------------------------------------------ *)
(** ** scripts/import-learnings.py *)

Module Importer.

Definition DAEMON_URL : text := str "http://localhost:8741".

(** Text mode reads a carriage return, alone or before a line feed, as a
    line feed. *)
Fixpoint universal_newlines (s : text) : text :=
  match s with
  | [] => []
  | c :: s' =>
      if (code c =? 13)%N then
        match s' with
        | d :: s'' => if (code d =? 10)%N then nl :: universal_newlines s''
                      else nl :: universal_newlines s'
        | [] => [nl]
        end
      else c :: universal_newlines s'
  end.

(** The lines [for line in f] runs over, each without its line feed. *)
Definition file_lines (contents : text) : list text :=
  let pieces := split [nl] (universal_newlines contents) in
  match last pieces [] with
  | [] => removelast pieces
  | _ :: _ => pieces
  end.

(** The local variables of [main]. *)
Record counters := {
  imported : nat;
  duplicates : nat;
  errors : nat
}.

Definition no_counts : counters :=
  {| imported := 0; duplicates := 0; errors := 0 |}.

Definition count_imported (c : counters) : counters :=
  {| imported := S (imported c); duplicates := duplicates c; errors := errors c |}.

Definition count_duplicate (c : counters) : counters :=
  {| imported := imported c; duplicates := S (duplicates c); errors := errors c |}.

Definition count_error (c : counters) : counters :=
  {| imported := imported c; duplicates := duplicates c; errors := S (errors c) |}.

Section Program.
Variable w : world.

Definition initial_state : state :=
  {| Py.DAEMON_URL := DAEMON_URL; log := []; stdout := []; stderr := [] |}.

Definition health_check : M state unit :=
  try_except
    (resp <- requests_get w (DAEMON_URL ++ str "/health") (Some 2) ;;
     if negb (status_code resp =? 200) then
       print NotHealthy ;; sys_exit 1
     else ret tt)
    is_ConnectionError
    (fun _ => print CannotConnect ;; sys_exit 1).

(** Lines 60-81: the submission of one decoded line. *)
Definition submit (line_num : nat) (learning : json) : M (counters * state) unit :=
  try_except
    (resp <- global (requests_post w (DAEMON_URL ++ str "/store") [] learning (Some 10)) ;;
     result <- lift (resp_json resp) ;;
     status <- lift (get result (str "status") JNull) ;;
     if eq_str status (str "stored") then
       update_locals count_imported ;;
       type <- lift (item learning (str "type")) ;;
       content <- lift (item learning (str "content")) ;;
       preview <- lift (prefix content 60) ;;
       global (print (Stored type preview))
     else
       status <- lift (get result (str "status") JNull) ;;
       if eq_str status (str "duplicate") then
         update_locals count_duplicate ;;
         similarity <- lift (item result (str "similarity")) ;;
         similarity <- lift (format_2f similarity) ;;
         content <- lift (item learning (str "content")) ;;
         preview <- lift (prefix content 40) ;;
         global (print (DuplicateSim similarity preview))
       else
         global (print (Rejected line_num result)) ;;
         update_locals count_error)
    is_Exception
    (fun e =>
       global (print (RequestFailed line_num e)) ;;
       update_locals count_error).

(** Lines 43-81: the body of the loop over the lines. *)
Definition import_line (numbered : nat * text) : M (counters * state) unit :=
  let (line_num, line) := numbered in
  let line := strip line in
  match line with
  | [] => ret tt
  | _ :: _ =>
      match json_loads line with
      | None =>
          global (print (InvalidJson line_num)) ;;
          update_locals count_error
      | Some learning =>
          has_type <- lift (has (str "type") learning) ;;
          missing <- (if negb has_type then ret true
                      else has_content <- lift (has (str "content") learning) ;;
                           ret (negb has_content)) ;;
          if missing : bool then
            global (print (MissingFields line_num)) ;;
            update_locals count_error
          else submit line_num learning
      end
  end.

Definition main (argv : list text) : M state unit :=
  if len argv <? 2 then
    print Usage ;; sys_exit 1
  else
    let jsonl_path := nth 1 argv [] in
    match files w jsonl_path with
    | None => print (FileNotFound jsonl_path) ;; sys_exit 1
    | Some contents =>
        health_check ;;
        let lines := file_lines contents in
        r <- with_locals no_counts
               (for_each (combine (seq 1 (length lines)) lines) import_line) ;;
        let c := snd r in
        print (Summary (imported c) (duplicates c) (errors c)) ;;
        resp <- requests_get w (DAEMON_URL ++ str "/stats") None ;;
        stats <- lift (resp_json resp) ;;
        total <- lift (item stats (str "total_learnings")) ;;
        print (TotalLearnings total) ;;
        by_type <- lift (item stats (str "by_type")) ;;
        print (ByType by_type)
    end.

Definition run (argv : list text) : Z * state :=
  let (r, s) := main argv initial_state in (exit_status r, s).

End Program.

End Importer.

(* ------------------------------------------------------------------ *)
(** ** Notions the properties are stated with *)

Import Extract.

(** The text [J] in a fenced code block, the opening fence followed by the
    language tag [tag] (empty for none). *)
Definition fenced (tag J : text) : text :=
  fence ++ tag ++ nl :: J ++ nl :: fence.

(** [m in available_models] *)
Definition installed (available_models : list text) (m : text) : bool :=
  existsb (text_eqb m) available_models.

(** A field that is present with a value Python takes for true; for a
    string, a non-empty one. *)
Definition present_nonempty (k : text) (d : dict) : bool :=
  match dict_lookup k d with
  | Some v => truthy v
  | None => false
  end.

(** A record that may be submitted: [type] and [content] are both present
    and non-empty. *)
Definition eligible (d : dict) : bool :=
  present_nonempty (str "type") d && present_nonempty (str "content") d.

(** The submission of the record [d]: a POST to [/store] of the record with
    its [session_source]. *)
Definition store_request (base session_id : text) (d : dict) : request :=
  {| meth := POST;
     url := base ++ str "/store";
     headers := [];
     payload := Some (JObj (dict_set (str "session_source") (JStr session_id) d));
     timeout := Some 10 |}.

(** The submission of the bulk importer: the decoded line as it is. *)
Definition import_request (learning : json) : request :=
  {| meth := POST;
     url := Importer.DAEMON_URL ++ str "/store";
     headers := [];
     payload := Some learning;
     timeout := Some 10 |}.

(** The [status] field of the collaborator's answer, when the answer is a
    response whose body is a JSON object. *)
Definition replied_status (a : reply) : option json :=
  match a with
  | Answer r => match resp_json r with
                | Val (JObj fields) => dict_lookup (str "status") fields
                | _ => None
                end
  | Failure _ => None
  end.

(** The collaborator responded with the status [status]. *)
Definition says (status : string) (a : reply) : bool :=
  match replied_status a with
  | Some v => eq_str v (str status)
  | None => false
  end.

(** The exchanges [new] follow the history [before]: each answer is the one
    the network gives to the request after what went before. *)
Fixpoint answered (w : world) (before new : list exchange) : Prop :=
  match new with
  | [] => True
  | x :: rest => snd x = network w before (fst x) /\ answered w (before ++ [x]) rest
  end.

(** A parse of [ts] with result [r] that consumes [c] tokens, at least one,
    and succeeds with any fuel from [c] on. *)
Definition bounded (parse : nat -> option (json * list token))
    (ts : list token) (r : json * list token) : Prop :=
  exists c : nat,
    (1 <= c)%nat /\ length ts = (c + length (snd r))%nat
    /\ forall f', (c <= f')%nat -> parse f' = Some r.

(** [s.endswith(suffix)] *)
Definition endswith (suffix s : text) : bool :=
  startswith (rev suffix) (rev s).

(** A request to the [/store] of a collaborator, whatever its base URL. *)
Definition is_store_call (x : exchange) : bool :=
  match meth (fst x) with
  | POST => endswith (str "/store") (url (fst x))
  | GET => false
  end.

Definition no_store_call (x : exchange) : Prop := is_store_call x = false.

(** The health probe of the collaborator at [base]. *)
Definition health_probe (base : text) : request :=
  {| meth := GET; url := base ++ str "/health"; headers := [];
     payload := None; timeout := Some 2 |}.

(** The probe fails: the collaborator is unreachable, or its status is not
    200. *)
Definition unhealthy (a : reply) : Prop :=
  match a with
  | Failure _ => True
  | Answer r => status_code r <> 200
  end.

(** The state in which [main] starts the extraction, after it has read its
    arguments and announced the transcript. *)
Definition start_state (argv : list text) (s : state) : state :=
  let s' :=
    if existsb (fun a => text_eqb a (str "--daemon-url")) argv then
      let idx := index (str "--daemon-url") argv in
      if idx + 1 <? len argv
      then with_daemon_url (nth (Z.to_nat (idx + 1)) argv []) s
      else s
    else s in
  to_stderr (Extracting (path_name (nth 1 argv []))) s'.

(** [s'] is [s] after the exchanges [new] and after the lines [outs] and
    [errs] were printed to the standard streams. *)
Definition grows (s s' : state) (new : list exchange) (outs errs : list message)
  : Prop :=
  DAEMON_URL s' = DAEMON_URL s
  /\ log s' = log s ++ new
  /\ stdout s' = stdout s ++ outs
  /\ stderr s' = stderr s ++ errs.

(** [s'] is [s] after some exchanges that all satisfy [P], some lines on
    standard output that all satisfy [Q], and some lines on standard
    error. *)
Definition steps (P : exchange -> Prop) (Q : message -> Prop) (s s' : state)
  : Prop :=
  exists new outs errs,
    Forall P new /\ Forall Q outs /\ grows s s' new outs errs.

(** A computation whose exchanges all satisfy [P] and whose lines on
    standard output all satisfy [Q]; [proj] finds the [state] in the state
    of the computation. *)
Definition keeps {S A} (proj : S -> state) (P : exchange -> Prop)
    (Q : message -> Prop) (m : M S A) : Prop :=
  forall s, steps P Q (proj s) (proj (snd (m s))).

(** A computation whose lines on standard error all satisfy [R]. *)
Definition reports {S A} (proj : S -> state) (R : message -> Prop) (m : M S A)
  : Prop :=
  forall s, exists errs,
    stderr (proj (snd (m s))) = stderr (proj s) ++ errs /\ Forall R errs.

Definition anything_goes {A} (_ : A) : Prop := True.

Definition nothing {A} (_ : A) : Prop := False.

(** A computation that returns: no exception leaves it. *)
Definition returns {S A} (m : M S A) : Prop :=
  forall s, exists a, fst (m s) = Ok a.

(** The path with the components [cs], written with slashes. *)
Fixpoint join_path (cs : list text) : text :=
  match cs with
  | [] => []
  | [c] => c
  | c :: cs' => c ++ "/"%char :: join_path cs'
  end.

(** A component of a path as [pathlib] keeps it: not empty, not a single
    dot, without a slash. *)
Definition component (c : text) : Prop :=
  c <> [] /\ c <> str "." /\ ~ In "/"%char c.

(** A line that is the JSON dump of a value. *)
Definition is_dump (m : message) : Prop := exists v, m = JsonDump v.


(** A JSON value that is not a container: [null], a boolean or a number. *)
Definition scalar (v : json) : Prop :=
  match v with
  | JNull | JBool _ | JInt _ | JFloat _ => True
  | JStr _ | JArr _ | JObj _ => False
  end.

(** The number of answers with the status [status]. *)
Definition count_says (status : string) (new : list exchange) : nat :=
  length (filter (fun x => says status (snd x)) new).

(** A line of the import file with nothing but white space. *)
Definition blank (line : text) : bool :=
  match strip line with
  | [] => true
  | _ :: _ => false
  end.

(** What the summary of the importer accounts for. *)
Definition counted (c : Importer.counters) : nat :=
  (Importer.imported c + Importer.duplicates c + Importer.errors c)%nat.

(** The request for the statistics of the collaborator; it has no
    timeout. *)
Definition stats_request : request :=
  {| meth := GET; url := Importer.DAEMON_URL ++ str "/stats"; headers := [];
     payload := None; timeout := None |}.

(** The requests of the bulk importer: the health probe, a submission and
    the request for the statistics, all at the address the script fixes. *)
Definition importer_call (x : exchange) : Prop :=
  fst x = health_probe Importer.DAEMON_URL
  \/ fst x = stats_request
  \/ exists learning, fst x = import_request learning.

(* ------------------------------------------------------------------ *)
(** ** Worlds and records for the examples *)

(** An example world: no credential, a transcript [t.md], and no network
    at all. *)
Definition offline_world : world :=
  {| environ := fun _ => None;
     files := fun p => if text_eqb p (str "t.md") then Some (str "a session") else None;
     network := fun _ _ => Failure ConnectionError |}.

Definition example_argv : list text := [str "extract-from-transcript.py"; str "t.md"].

(** An example world: no credential, and a local inference service that
    answers the listing of its models with [body]. *)
Definition ollama_world (body : text) : world :=
  {| environ := fun _ => None;
     files := fun _ => None;
     network := fun _ r =>
       if text_eqb (url r) (str "http://localhost:11434/api/tags")
       then Answer {| status_code := 200; content := body |}
       else Failure ConnectionError |}.

(** An example world: no credential; a local inference service with the
    model [llama3] that answers every prompt with [response]; a transcript
    [t.md]; a collaborator that answers the health probe with [health] and
    nothing else. *)
Definition local_world (response : text) (health : reply) : world :=
  {| environ := fun _ => None;
     files := fun p => if text_eqb p (str "t.md") then Some (str "a session") else None;
     network := fun _ r =>
       if text_eqb (url r) (str "http://localhost:11434/api/tags")
       then Answer {| status_code := 200;
                      content := jtext "{'models': [{'name': 'llama3:latest'}]}" |}
       else if text_eqb (url r) (str "http://localhost:11434/api/generate")
       then Answer {| status_code := 200;
                      content := jtext "{'response': '" ++ response ++ jtext "'}" |}
       else if text_eqb (url r) (str "http://127.0.0.1:8741/health")
       then health
       else Failure ConnectionError |}.

Definition unreachable : reply := Failure ConnectionError.

Definition unavailable : reply :=
  Answer {| status_code := 503; content := [] |}.


(** An example world: a collaborator that knows the learnings whose content
    is [known] already, and stores any other. *)
Definition collaborator_world (known : list text) : world :=
  {| environ := fun _ => None;
     files := fun _ => None;
     network := fun _ r =>
       match payload r with
       | Some (JObj d) =>
           match dict_lookup (str "content") d with
           | Some (JStr c) =>
               if existsb (text_eqb c) known
               then Answer {| status_code := 200;
                              content := jtext "{'status': 'duplicate', 'similarity': 0.97}" |}
               else Answer {| status_code := 200;
                              content := jtext "{'status': 'stored'}" |}
           | _ => Failure ConnectionError
           end
       | _ => Failure ConnectionError
       end |}.

Definition record (type content : string) : dict :=
  [(str "type", JStr (str type)); (str "content", JStr (str content))].

(** A record with empty [type] and [content]. *)
Definition blank_record : dict :=
  [(str "type", JStr []); (str "content", JStr [])].

Definition gotcha_record : dict :=
  [(str "type", JStr (str "GOTCHA")); (str "content", JStr (str "use a fake clock"))].

(** An example world: a credential; a remote provider that answers with one
    learning in a fenced block; a transcript in the directory [abc]; a
    healthy collaborator that stores what it is sent. *)
Definition remote_world : world :=
  {| environ := fun k =>
       if text_eqb k (str "ANTHROPIC_API_KEY") then Some (str "secret") else None;
     files := fun p =>
       if text_eqb p (str "sessions/abc/transcript.md")
       then Some (str "fixing flaky test") else None;
     network := fun _ r =>
       if text_eqb (url r) (str "https://api.anthropic.com/v1/messages")
       then Answer {| status_code := 200;
                      content := jtext "{'content': [{'type': 'text', 'text': '```json\n[{\'type\': \'GOTCHA\', \'content\': \'use a fake clock\', \'confidence\': 0.9}]\n```'}]}" |}
       else if text_eqb (url r) (str "http://127.0.0.1:8741/health")
       then Answer {| status_code := 200; content := [] |}
       else if text_eqb (url r) (str "http://127.0.0.1:8741/store")
       then Answer {| status_code := 200; content := jtext "{'status': 'stored'}" |}
       else Failure ConnectionError |}.

(** An example world: a collaborator that answers every request with the
    status [status] and nothing else. *)
Definition status_world (status : string) : world :=
  {| environ := fun _ => None;
     files := fun _ => None;
     network := fun _ _ =>
       Answer {| status_code := 200;
                 content := jtext "{'status': '" ++ str status ++ jtext "'}" |} |}.

(** A record whose content is a number. *)
Definition numeric_record : dict :=
  [(str "type", JStr (str "GOTCHA")); (str "content", JInt 7)].

(** An example world: a file [learnings.jsonl] with a record, a blank line
    and a line that is not JSON; a healthy collaborator that stores what it
    is sent and has statistics. *)
Definition import_world : world :=
  {| environ := fun _ => None;
     files := fun p =>
       if text_eqb p (str "learnings.jsonl")
       then Some (jtext "{'type': 'GOTCHA', 'content': 'use a fake clock'}"
                    ++ nl :: str "  " ++ nl :: str "not json" ++ [nl])
       else None;
     network := fun _ r =>
       if text_eqb (url r) (str "http://localhost:8741/health")
       then Answer {| status_code := 200; content := [] |}
       else if text_eqb (url r) (str "http://localhost:8741/store")
       then Answer {| status_code := 200; content := jtext "{'status': 'stored'}" |}
       else if text_eqb (url r) (str "http://localhost:8741/stats")
       then Answer {| status_code := 200;
                      content := jtext "{'total_learnings': 1, 'by_type': {'GOTCHA': 1}}" |}
       else Failure ConnectionError |}.

Definition import_argv : list text := [str "import-learnings.py"; str "learnings.jsonl"].

(** An example world: the first installed model has a tag and no name. *)
Definition unnamed_world : world :=
  ollama_world (jtext "{'models': [{'name': ':latest'}, {'name': 'phi3'}]}").

(* ------------------------------------------------------------------ *)
(** * Properties *)

Section SliceFacts.
Context {A : Type}.
Implicit Types l : list A.

Lemma py_slice_prefix l k :
  0 <= k <= len l -> py_slice l None (Some k) = firstn (Z.to_nat k) l.
Proof.
  intros Hk. unfold py_slice, norm_index, len in *. cbn [skipn Z.to_nat].
  destruct (Z.ltb_spec k 0); [lia|].
  rewrite Z.min_r, Z.max_r, Z.sub_0_r by lia. reflexivity.
Qed.

Lemma py_slice_suffix l k :
  0 < k <= len l ->
  py_slice l (Some (- k)) None = skipn (length l - Z.to_nat k) l.
Proof.
  intros Hk. unfold py_slice, norm_index, len in *.
  destruct (Z.ltb_spec (- k) 0); [|lia].
  rewrite Z.min_r, Z.max_r by lia.
  replace (Z.to_nat (- k + Z.of_nat (length l))) with (length l - Z.to_nat k)%nat by lia.
  apply firstn_all2. rewrite length_skipn. lia.
Qed.
End SliceFacts.

Lemma truncation_marker_length : len truncation_marker = 34.
Proof. reflexivity. Qed.

(** C3. A transcript of at most 100,000 characters is passed through
    unchanged.  A longer one becomes its first 50,000 characters, the
    truncation marker, and its last 50,000 characters; the result then has
    100,034 characters whatever the length of the input. *)
Theorem truncate_spec (t : text) :
  (len t <= 100000 -> truncate t = t) /\
  (100000 < len t ->
     truncate t = firstn (Z.to_nat 50000) t
                    ++ truncation_marker
                    ++ skipn (length t - Z.to_nat 50000) t
     /\ len (truncate t) = 100034).
Proof.
  unfold truncate, max_chars. change (100000 / 2) with 50000.
  split; intros H.
  - destruct (Z.gtb_spec (len t) 100000); [lia | reflexivity].
  - destruct (Z.gtb_spec (len t) 100000); [|lia].
    rewrite py_slice_prefix, py_slice_suffix by lia.
    split; [reflexivity|].
    unfold len in *. rewrite !length_app, length_firstn, length_skipn.
    change (length truncation_marker) with 34%nat. lia.
Qed.

Lemma truncate_spec_witness :
  truncate (str "short transcript") = str "short transcript"
  /\ len (truncate (repeat "a"%char (Z.to_nat 100001))) = 100034.
Proof.
  split.
  - apply (proj1 (truncate_spec (str "short transcript"))). vm_compute. discriminate.
  - apply (proj2 (truncate_spec (repeat "a"%char (Z.to_nat 100001)))).
    vm_compute. reflexivity.
Defined.

(* ------------------------------------------------------------------ *)
(** ** Stripping *)

Section StripFacts.

Lemma lstrip_app_nonspace (p : text) (a : ascii) (r : text) :
  py_isspace a = false -> lstrip (p ++ a :: r) = lstrip p ++ a :: r.
Proof.
  intros Ha. induction p as [|c p IH]; simpl.
  - now rewrite Ha.
  - destruct (py_isspace c); [exact IH | reflexivity].
Qed.

Lemma rstrip_app_nonspace (r : text) (b : ascii) (q : text) :
  py_isspace b = false -> rstrip (r ++ b :: q) = r ++ b :: rstrip q.
Proof.
  intros Hb. unfold rstrip.
  rewrite rev_app_distr. cbn [rev]. rewrite <- app_assoc. cbn [app].
  rewrite lstrip_app_nonspace by exact Hb.
  rewrite rev_app_distr. cbn [rev]. rewrite rev_involutive.
  rewrite <- app_assoc. reflexivity.
Qed.

(** Stripping a text whose core starts and ends with a character that is
    not a space only touches what surrounds the core. *)
Lemma strip_core (p : text) (a : ascii) (mid : text) (b : ascii) (q : text) :
  py_isspace a = false -> py_isspace b = false ->
  strip (p ++ a :: mid ++ b :: q) = lstrip p ++ a :: mid ++ b :: rstrip q.
Proof.
  intros Ha Hb. unfold strip.
  rewrite lstrip_app_nonspace by exact Ha.
  replace (lstrip p ++ a :: mid ++ b :: q)
    with ((lstrip p ++ a :: mid) ++ b :: q) by now rewrite <- app_assoc.
  rewrite rstrip_app_nonspace by exact Hb.
  now rewrite <- app_assoc.
Qed.

Lemma In_lstrip (c : ascii) (s : text) : In c (lstrip s) -> In c s.
Proof.
  induction s as [|x s IH]; simpl; [tauto|].
  destruct (py_isspace x); simpl; tauto.
Qed.

Lemma In_rstrip (c : ascii) (s : text) : In c (rstrip s) -> In c s.
Proof.
  unfold rstrip. intros H. apply in_rev in H. apply In_lstrip in H.
  now apply in_rev.
Qed.

End StripFacts.

(* ------------------------------------------------------------------ *)
(** ** Searching for a character *)

Section FindFacts.
Variable x : ascii.

Lemma startswith_char (c : ascii) (s : text) :
  startswith [x] (c :: s) = Ascii.eqb x c.
Proof. simpl. apply andb_true_r. Qed.

Lemma find_from_first (p r : text) (i : Z) :
  ~ In x p -> find_from [x] (p ++ x :: r) i = i + len p.
Proof.
  revert i. induction p as [|c p IH]; intros i Hp.
  - simpl. rewrite Ascii.eqb_refl. unfold len. simpl. lia.
  - change ((c :: p) ++ x :: r) with (c :: p ++ x :: r).
    cbn [find_from]. rewrite startswith_char.
    destruct (Ascii.eqb_spec x c) as [->|Hne].
    + exfalso. apply Hp. now left.
    + rewrite IH by (intros H; apply Hp; now right).
      unfold len. simpl length. lia.
Qed.

Lemma rfind_from_absent (q : text) (i : Z) :
  ~ In x q -> rfind_from [x] q i = -1.
Proof.
  revert i. induction q as [|c q IH]; intros i Hq.
  - reflexivity.
  - cbn [rfind_from]. rewrite IH by (intros H; apply Hq; now right).
    rewrite startswith_char.
    destruct (Ascii.eqb_spec x c) as [->|Hne]; [|reflexivity].
    exfalso. apply Hq. now left.
Qed.

Lemma rfind_from_last (r q : text) (i : Z) :
  0 <= i -> ~ In x q -> rfind_from [x] (r ++ x :: q) i = i + len r.
Proof.
  revert i. induction r as [|c r IH]; intros i Hi Hq.
  - change ([] ++ x :: q) with (x :: q). cbn [rfind_from].
    rewrite rfind_from_absent by exact Hq.
    rewrite startswith_char, Ascii.eqb_refl. unfold len. simpl. lia.
  - change ((c :: r) ++ x :: q) with (c :: r ++ x :: q).
    cbn [rfind_from]. rewrite IH by (lia || exact Hq).
    assert (0 <= len r) by (unfold len; lia).
    destruct (Z.leb_spec 0 (i + 1 + len r)); [|lia].
    unfold len. simpl length. lia.
Qed.
End FindFacts.

Lemma py_slice_middle {A} (p m q : list A) :
  py_slice (p ++ m ++ q) (Some (len p)) (Some (len p + len m)) = m.
Proof.
  unfold py_slice, norm_index, len. rewrite !length_app.
  destruct (Z.ltb_spec (Z.of_nat (length p)) 0); [lia|].
  destruct (Z.ltb_spec (Z.of_nat (length p) + Z.of_nat (length m)) 0); [lia|].
  rewrite !Z.min_r, !Z.max_r by lia.
  rewrite Nat2Z.id, skipn_app, skipn_all, Nat.sub_diag. simpl.
  replace (Z.to_nat _) with (length m + 0)%nat by lia.
  rewrite firstn_app_2. simpl. apply app_nil_r.
Qed.

Lemma py_slice_suffix_from {A} (p r : list A) :
  py_slice (p ++ r) (Some (len p)) None = r.
Proof.
  unfold py_slice, norm_index, len. rewrite length_app.
  destruct (Z.ltb_spec (Z.of_nat (length p)) 0); [lia|].
  rewrite Z.min_r, Z.max_r by lia.
  rewrite Nat2Z.id, skipn_app, skipn_all, Nat.sub_diag. simpl.
  apply firstn_all2. lia.
Qed.

(** The scan picks out an array that is the only bracketed part of the
    text. *)
Lemma bracket_scan_array (p mid q : text) :
  ~ In "["%char p -> ~ In "]"%char q ->
  bracket_scan (p ++ ("["%char :: mid ++ ["]"%char]) ++ q)
  = "["%char :: mid ++ ["]"%char].
Proof.
  intros Hp Hq. unfold bracket_scan, str. cbn [list_ascii_of_string].
  set (a := "["%char :: mid ++ ["]"%char]).
  assert (Hfind : find ["["%char] (p ++ a ++ q) = len p).
  { unfold find, a. cbn [app]. rewrite find_from_first by exact Hp. lia. }
  assert (Hrfind : rfind ["]"%char] (p ++ a ++ q) + 1 = len p + len a).
  { unfold rfind, a.
    replace (p ++ ("["%char :: mid ++ ["]"%char]) ++ q)
      with ((p ++ "["%char :: mid) ++ "]"%char :: q)
      by (rewrite <- !app_assoc; simpl; now rewrite <- app_assoc).
    rewrite rfind_from_last by (lia || exact Hq).
    unfold len. rewrite !length_app. simpl length. rewrite length_app. simpl. lia. }
  rewrite Hfind, Hrfind.
  assert (0 <= len p /\ 0 < len a) as [? ?] by (unfold len, a; simpl; lia).
  destruct (Z.leb_spec 0 (len p)); [|lia].
  destruct (Z.ltb_spec (len p) (len p + len a)); [|lia].
  cbn [andb]. exact (py_slice_middle p a q).
Qed.

Lemma decode_bracketed_array (P mid Q : text) :
  ~ In "["%char P -> ~ In "]"%char Q ->
  decode_bracketed (P ++ ("["%char :: mid ++ ["]"%char]) ++ Q)
  = loads ("["%char :: mid ++ ["]"%char]).
Proof.
  intros HP HQ. unfold decode_bracketed. f_equal.
  replace (P ++ ("["%char :: mid ++ ["]"%char]) ++ Q)
    with (P ++ "["%char :: mid ++ "]"%char :: Q)
    by (simpl; now rewrite <- app_assoc).
  rewrite strip_core by reflexivity.
  replace (lstrip P ++ "["%char :: mid ++ "]"%char :: rstrip Q)
    with (lstrip P ++ ("["%char :: mid ++ ["]"%char]) ++ rstrip Q)
    by (simpl; now rewrite <- app_assoc).
  apply bracket_scan_array.
  - intros H. apply HP. now apply In_lstrip.
  - intros H. apply HQ. now apply In_rstrip.
Qed.

(** C5, as amended.  When the prose before the array holds no opening
    bracket and the prose after it no closing bracket, the response decodes
    as the bare array does. *)
Theorem bracket_scan_tolerance (P mid Q : text) :
  ~ In "["%char P -> ~ In "]"%char Q ->
  let A := "["%char :: mid ++ ["]"%char] in
  decode_bracketed (P ++ A ++ Q) = decode_bracketed A
  /\ decode_bracketed A = loads A.
Proof.
  intros HP HQ A.
  assert (Hbare : decode_bracketed A = loads A).
  { pose proof (decode_bracketed_array [] mid []) as H.
    cbn [app] in H. rewrite app_nil_r in H. apply H; simpl; tauto. }
  split; [|exact Hbare].
  rewrite Hbare. now apply decode_bracketed_array.
Qed.

Lemma bracket_scan_tolerance_witness :
  decode_bracketed (str "Here you go: " ++ str "[]" ++ str " Done.")
  = Val (JArr []).
Proof.
  destruct (bracket_scan_tolerance (str "Here you go: ") [] (str " Done."))
    as [H1 H2].
  - simpl. intuition discriminate.
  - simpl. intuition discriminate.
  - etransitivity; [exact H1|]. etransitivity; [exact H2|]. reflexivity.
Defined.

(** C5, as stated, fails: an opening bracket in the leading prose, or a
    closing bracket in the trailing prose, moves the scanned substring and
    the response no longer decodes. *)
Lemma bracket_scan_counterexample :
  decode_bracketed (str "[]") = Val (JArr [])
  /\ decode_bracketed (str "Learnings [JSON]: " ++ str "[]" ++ str "")
     = fail JSONDecodeError
  /\ decode_bracketed (str "" ++ str "[]" ++ str " (see note [1])")
     = fail JSONDecodeError.
Proof. repeat split; vm_compute; reflexivity. Qed.

(* ------------------------------------------------------------------ *)
(** ** The decoder and whitespace *)

Section LexFacts.

Lemma lex_fail (s : text) (toks : list token) :
  fold_left lex_step s (MFail, toks) = (MFail, toks).
Proof. induction s as [|c s IH]; [reflexivity | exact IH]. Qed.

(** What the lexer can rely on for a character that [strip] removes. *)
Lemma space_facts (c : ascii) :
  py_isspace c = true ->
  Ascii.eqb c quote = false /\ Ascii.eqb c backslash = false
  /\ punct c = None /\ word_char c = false /\ is_char "u" c = false
  /\ unescape c = None /\ hex_val c = None.
Proof.
  destruct c as [[] [] [] [] [] [] [] []]; vm_compute; intros H;
    try discriminate H; repeat split.
Qed.

Lemma json_ws_space (c : ascii) : json_ws c = true -> py_isspace c = true.
Proof.
  destruct c as [[] [] [] [] [] [] [] []]; vm_compute; intros H;
    try discriminate H; reflexivity.
Qed.

Lemma step_idle_ws (toks : list token) (c : ascii) :
  json_ws c = true -> step_idle toks c = (MIdle, toks).
Proof. intros H. unfold step_idle. now rewrite H. Qed.

Lemma step_idle_other_space (toks : list token) (c : ascii) :
  py_isspace c = true -> json_ws c = false -> step_idle toks c = (MFail, toks).
Proof.
  intros Hs Hw. destruct (space_facts c Hs) as (Hq & _ & Hp & Hc & _).
  unfold step_idle. now rewrite Hw, Hq, Hp, Hc.
Qed.

Lemma lex_cons_ws (c : ascii) (s : text) :
  json_ws c = true -> lex (c :: s) = lex s.
Proof.
  intros H. unfold lex. cbn [fold_left lex_step].
  now rewrite step_idle_ws.
Qed.

Lemma lex_cons_other_space (c : ascii) (s : text) :
  py_isspace c = true -> json_ws c = false -> lex (c :: s) = None.
Proof.
  intros Hs Hw. unfold lex. cbn [fold_left lex_step].
  rewrite step_idle_other_space, lex_fail by assumption. reflexivity.
Qed.

(** A space after a text that lexes is insignificant, and it must be JSON
    whitespace. *)
Lemma lex_snoc_space (s : text) (c : ascii) (ts : list token) :
  py_isspace c = true ->
  lex (s ++ [c]) = Some ts -> lex s = Some ts /\ json_ws c = true.
Proof.
  intros Hs. destruct (space_facts c Hs) as (Hq & Hb & Hp & Hc & Hu & He & Hh).
  unfold lex. rewrite fold_left_app. cbn [fold_left].
  destruct (fold_left lex_step s (MIdle, [])) as [m toks].
  destruct (json_ws c) eqn:Hw.
  - destruct m; cbn [lex_step lex_finish];
      rewrite ?Hq, ?Hb, ?Hc, ?Hu, ?He, ?Hh; try discriminate.
    + rewrite step_idle_ws by exact Hw. auto.
    + destruct (classify (rev acc)); [|discriminate].
      rewrite step_idle_ws by exact Hw. auto.
    + destruct (code c <? 32)%N; discriminate.
  - destruct m; cbn [lex_step lex_finish];
      rewrite ?Hq, ?Hb, ?Hc, ?Hu, ?He, ?Hh; try discriminate.
    + rewrite step_idle_other_space by assumption. discriminate.
    + destruct (classify (rev acc)); [|discriminate].
      rewrite step_idle_other_space by assumption. discriminate.
    + destruct (code c <? 32)%N; discriminate.
Qed.

Lemma lex_snoc_ws (s : text) (c : ascii) (ts : list token) :
  json_ws c = true -> lex s = Some ts -> lex (s ++ [c]) = Some ts.
Proof.
  intros Hw. pose proof (json_ws_space c Hw) as Hs.
  destruct (space_facts c Hs) as (Hq & Hb & Hp & Hc & Hu & He & Hh).
  unfold lex. rewrite fold_left_app. cbn [fold_left].
  destruct (fold_left lex_step s (MIdle, [])) as [m toks].
  destruct m; cbn [lex_step lex_finish]; rewrite ?Hc; try discriminate.
  - now rewrite step_idle_ws.
  - destruct (classify (rev acc)); [|discriminate].
    now rewrite step_idle_ws.
Qed.

Lemma lex_lstrip (s : text) (ts : list token) :
  lex s = Some ts -> lex (lstrip s) = Some ts.
Proof.
  induction s as [|c s IH]; [auto|]. cbn [lstrip].
  destruct (py_isspace c) eqn:Hs; [|auto].
  destruct (json_ws c) eqn:Hw.
  - rewrite lex_cons_ws by exact Hw. exact IH.
  - rewrite lex_cons_other_space by assumption. discriminate.
Qed.

Lemma lex_rstrip (s : text) (ts : list token) :
  lex s = Some ts -> lex (rstrip s) = Some ts.
Proof.
  unfold rstrip. rewrite <- (rev_involutive s) at 1.
  induction (rev s) as [|c r IH]; [auto|]. cbn [rev lstrip].
  destruct (py_isspace c) eqn:Hs; [|auto].
  intros H. apply lex_snoc_space in H; [|exact Hs]. now apply IH.
Qed.

Lemma lex_strip (s : text) (ts : list token) :
  lex s = Some ts -> lex (strip s) = Some ts.
Proof. intros H. unfold strip. now apply lex_rstrip, lex_lstrip. Qed.

Lemma json_loads_lex (s s' : text) (v : json) :
  (forall ts, lex s = Some ts -> lex s' = Some ts) ->
  json_loads s = Some v -> json_loads s' = Some v.
Proof.
  intros H. unfold json_loads.
  destruct (lex s) as [ts|]; [|discriminate].
  now rewrite (H ts eq_refl).
Qed.

(** Python's [strip] does not change the value of a JSON text. *)
Lemma json_loads_strip (s : text) (v : json) :
  json_loads s = Some v -> json_loads (strip s) = Some v.
Proof. apply json_loads_lex. intros ts. apply lex_strip. Qed.

(** Nor does a line feed on either side. *)
Lemma json_loads_lines (s : text) (v : json) :
  json_loads s = Some v -> json_loads (nl :: s ++ [nl]) = Some v.
Proof.
  apply json_loads_lex. intros ts H.
  rewrite lex_cons_ws by reflexivity. now apply lex_snoc_ws.
Qed.

(** A JSON text does not start with a backquote. *)
Lemma json_loads_not_fenced (s : text) (v : json) :
  json_loads s = Some v -> startswith fence s = false.
Proof.
  unfold json_loads. destruct s as [|c s]; [reflexivity|].
  unfold fence, str. cbn [list_ascii_of_string startswith].
  destruct (Ascii.eqb_spec "`"%char c) as [<-|]; [|reflexivity].
  unfold lex. cbn [fold_left]. change (lex_step (MIdle, []) "`"%char) with (MFail, @nil token).
  rewrite lex_fail. discriminate.
Qed.

End LexFacts.

(* ------------------------------------------------------------------ *)
(** ** The fuel of the parser *)

Lemma parse_items_none (f : nat) (ts : list token) (acc : list json) :
  ts = [] \/ (exists r, ts = TRBracket :: r) -> parse_items f ts acc = None.
Proof.
  intros H. destruct f as [|f]; [reflexivity|]. cbn [parse_items].
  destruct H as [-> | [r ->]]; destruct f; reflexivity.
Qed.

Lemma parse_fields_none (f : nat) (ts : list token) (acc : dict) :
  ts = [] \/ (exists r, ts = TRBrace :: r) -> parse_fields f ts acc = None.
Proof.
  intros H. destruct f as [|f]; [reflexivity|].
  destruct H as [-> | [r ->]]; reflexivity.
Qed.

Lemma fuel_bound (f : nat) :
  (forall ts r, parse_value f ts = Some r ->
                bounded (fun f' => parse_value f' ts) ts r)
  /\ (forall ts acc r, parse_items f ts acc = Some r ->
                       bounded (fun f' => parse_items f' ts acc) ts r)
  /\ (forall ts acc r, parse_fields f ts acc = Some r ->
                       bounded (fun f' => parse_fields f' ts acc) ts r).
Proof.
  induction f as [|f (IHv & IHi & IHf)]; [repeat split; discriminate|].
  split; [|split].
  - intros ts r H. destruct ts as [|t ts]; [discriminate H|].
    destruct t; try discriminate H.
    + (* bracket *)
      destruct ts as [|t' ts'].
      * cbn in H. rewrite parse_items_none in H by auto. discriminate H.
      * assert (Hcases : (t' = TRBracket /\ r = (JArr [], ts'))
                         \/ parse_items f (t' :: ts') [] = Some r).
        { destruct t'; cbn in H; auto. left. split; congruence. }
        destruct Hcases as [[-> ->] | Hi].
        -- exists 2%nat. cbn. repeat split; try lia.
           intros [|f'] Hf; [lia | reflexivity].
        -- destruct (IHi _ _ _ Hi) as (c & Hc & Hlen & Hmore).
           exists (S c). cbn [length] in *. repeat split; try lia.
           intros [|f'] Hf; [lia|].
           destruct t'; cbn; try (apply Hmore; lia).
           rewrite parse_items_none in Hi by eauto. discriminate Hi.
    + (* brace *)
      destruct ts as [|t' ts'].
      * cbn in H. rewrite parse_fields_none in H by auto. discriminate H.
      * assert (Hcases : (t' = TRBrace /\ r = (JObj [], ts'))
                         \/ parse_fields f (t' :: ts') [] = Some r).
        { destruct t'; cbn in H; auto. left. split; congruence. }
        destruct Hcases as [[-> ->] | Hi].
        -- exists 2%nat. cbn. repeat split; try lia.
           intros [|f'] Hf; [lia | reflexivity].
        -- destruct (IHf _ _ _ Hi) as (c & Hc & Hlen & Hmore).
           exists (S c). cbn [length] in *. repeat split; try lia.
           intros [|f'] Hf; [lia|].
           destruct t'; cbn; try (apply Hmore; lia).
           rewrite parse_fields_none in Hi by eauto. discriminate Hi.
    + (* string *)
      cbn in H. injection H as <-. exists 1%nat. cbn. repeat split; try lia.
      intros [|f'] Hf; [lia | reflexivity].
    + (* scalar *)
      cbn in H. injection H as <-. exists 1%nat. cbn. repeat split; try lia.
      intros [|f'] Hf; [lia | reflexivity].
  - intros ts acc r H. cbn [parse_items] in H.
    destruct (parse_value f ts) as [[v rest]|] eqn:Ev; [|discriminate H].
    destruct (IHv _ _ Ev) as (cv & Hcv & Hlen & Hmore). cbn [snd] in Hlen.
    destruct rest as [|t rest]; [discriminate H|].
    destruct t; try discriminate H.
    + injection H as <-. exists (S cv). cbn [snd length] in *.
      repeat split; try lia.
      intros [|f'] Hf; [lia|]. cbn [parse_items].
      rewrite Hmore by lia. reflexivity.
    + destruct (IHi _ _ _ H) as (ci & Hci & Hlen' & Hmore').
      exists (S (cv + ci)). cbn [length] in *. repeat split; try lia.
      intros [|f'] Hf; [lia|]. cbn [parse_items].
      rewrite Hmore by lia. apply Hmore'. lia.
  - intros ts acc r H. cbn [parse_fields] in H.
    destruct ts as [|t ts]; [discriminate H|].
    destruct t; try discriminate H.
    destruct ts as [|t ts]; [discriminate H|].
    destruct t; try discriminate H.
    destruct (parse_value f ts) as [[v rest]|] eqn:Ev; [|discriminate H].
    destruct (IHv _ _ Ev) as (cv & Hcv & Hlen & Hmore). cbn [snd] in Hlen.
    destruct rest as [|t rest]; [discriminate H|].
    destruct t; try discriminate H.
    + injection H as <-. exists (S (S (S cv))). cbn [snd length] in *.
      repeat split; try lia.
      intros [|f'] Hf; [lia|]. cbn [parse_fields].
      rewrite Hmore by lia. reflexivity.
    + destruct (IHf _ _ _ H) as (ci & Hci & Hlen' & Hmore').
      exists (S (S (S (cv + ci)))). cbn [length] in *. repeat split; try lia.
      intros [|f'] Hf; [lia|]. cbn [parse_fields].
      rewrite Hmore by lia. apply Hmore'. lia.
Qed.

(** The fuel [json_loads] gives the parser is always enough: tokens that
    some fuel parses are parsed. *)
Lemma json_loads_fuel (s : text) (ts : list token) (f : nat) (v : json) :
  lex s = Some ts -> parse_value f ts = Some (v, []) -> json_loads s = Some v.
Proof.
  intros Hlex Hparse. unfold json_loads. rewrite Hlex.
  destruct (proj1 (fuel_bound f) _ _ Hparse) as (c & _ & Hlen & Hmore).
  cbn [snd length] in Hlen. rewrite Hmore by lia. reflexivity.
Qed.

(* ------------------------------------------------------------------ *)
(** ** Fences *)

Section FenceFacts.

Lemma startswith_fence_before_nl (s r : text) :
  startswith fence s = false -> startswith fence (s ++ nl :: r) = false.
Proof.
  unfold fence, str. cbn [list_ascii_of_string].
  destruct s as [|a [|b [|c s]]]; cbn [app startswith]; intros H;
    try reflexivity.
  - destruct (Ascii.eqb "`" a); reflexivity.
  - destruct (Ascii.eqb "`" a), (Ascii.eqb "`" b); reflexivity.
  - exact H.
Qed.

(** Splitting at the fences: a body without a fence, followed by a line
    feed and a fence, is one piece. *)
Lemma split_fence_body (J : text) :
  contains fence J = false ->
  forall cur rest,
    split_aux fence 0 cur (J ++ nl :: fence ++ rest)
    = (rev cur ++ J ++ [nl]) :: split_aux fence 0 [] rest.
Proof.
  induction J as [|c J IH]; intros HJ cur rest.
  - reflexivity.
  - cbn [contains] in HJ. apply orb_false_iff in HJ as [Hc HJ].
    change ((c :: J) ++ nl :: fence ++ rest)
      with (c :: (J ++ nl :: fence ++ rest)).
    cbn [split_aux].
    change (c :: (J ++ nl :: fence ++ rest))
      with ((c :: J) ++ nl :: fence ++ rest).
    rewrite startswith_fence_before_nl by exact Hc.
    rewrite IH by exact HJ. cbn [rev]. now rewrite <- app_assoc.
Qed.

Lemma split_fenced (tag J : text) :
  contains fence J = false ->
  tag = [] \/ tag = str "json" ->
  nth_error (split fence (fenced tag J)) 1 = Some (tag ++ nl :: J ++ [nl]).
Proof.
  intros HJ Htag. unfold split, fenced.
  replace (J ++ nl :: fence) with (J ++ nl :: fence ++ [])
    by now rewrite app_nil_r.
  destruct Htag as [-> | ->].
  - change (split_aux fence 0 [] (fence ++ [] ++ nl :: J ++ nl :: fence ++ []))
      with ([] :: split_aux fence 0 [nl] (J ++ nl :: fence ++ [])).
    now rewrite split_fence_body.
  - change (split_aux fence 0 [] (fence ++ str "json" ++ nl :: J ++ nl :: fence ++ []))
      with ([] :: split_aux fence 0 (rev (str "json" ++ [nl])) (J ++ nl :: fence ++ [])).
    rewrite split_fence_body by exact HJ. now rewrite rev_involutive, <- app_assoc.
Qed.

Lemma strip_fenced (tag J : text) : strip (fenced tag J) = fenced tag J.
Proof.
  pose proof (strip_core [] "`"%char
                (str "``" ++ tag ++ nl :: J ++ nl :: str "``") "`"%char []
                eq_refl eq_refl) as H.
  replace (fenced tag J)
    with ([] ++ "`"%char :: (str "``" ++ tag ++ nl :: J ++ nl :: str "``")
             ++ ["`"%char]).
  - exact H.
  - unfold fenced, fence, str. cbn [list_ascii_of_string app].
    rewrite <- !app_assoc. cbn [app]. now rewrite <- app_assoc.
Qed.

End FenceFacts.

(** C6, as amended.  A JSON text that holds no fence, wrapped in a fenced
    code block with no language tag or with the tag [json], decodes to the
    value the unwrapped text decodes to. *)
Theorem fence_tolerance (J : text) (v : json) (tag : text) :
  json_loads J = Some v ->
  contains fence J = false ->
  tag = [] \/ tag = str "json" ->
  decode_fenced (fenced tag J) = Val v /\ decode_fenced J = Val v.
Proof.
  intros Hv HJ Htag. split.
  - unfold decode_fenced, strip_fence.
    rewrite strip_fenced.
    change (startswith fence (fenced tag J)) with true. cbn iota.
    rewrite split_fenced by assumption.
    replace (if startswith (str "json") (tag ++ nl :: J ++ [nl])
             then py_slice (tag ++ nl :: J ++ [nl]) (Some 4) None
             else tag ++ nl :: J ++ [nl])
      with (nl :: J ++ [nl]).
    + unfold loads. now rewrite (json_loads_lines J v Hv).
    + destruct Htag as [-> | ->].
      * reflexivity.
      * change (startswith (str "json") (str "json" ++ nl :: J ++ [nl])) with true.
        cbn iota. symmetry.
        exact (py_slice_suffix_from (str "json") (nl :: J ++ [nl])).
  - pose proof (json_loads_strip J v Hv) as Hs.
    unfold decode_fenced, strip_fence.
    rewrite (json_loads_not_fenced (strip J) v Hs).
    unfold loads. now rewrite Hs.
Qed.

Lemma fence_tolerance_witness :
  decode_fenced (fenced (str "json") (jtext "[{'type': 'GOTCHA', 'content': 'x'}]"))
  = Val (JArr [JObj [(str "type", JStr (str "GOTCHA"));
                    (str "content", JStr (str "x"))]])
  /\ decode_fenced (fenced [] (str "[]")) = Val (JArr []).
Proof.
  split.
  - apply (fence_tolerance (jtext "[{'type': 'GOTCHA', 'content': 'x'}]")).
    + vm_compute. reflexivity.
    + vm_compute. reflexivity.
    + right. reflexivity.
  - apply (fence_tolerance (str "[]")).
    + vm_compute. reflexivity.
    + vm_compute. reflexivity.
    + left. reflexivity.
Defined.

(** C6, as stated, fails: a JSON text that holds a fence inside a string is
    cut at that fence, and a language tag other than [json] is left in front
    of the text. *)
Lemma fence_counterexample :
  (decode_fenced (jtext "['```']") = Val (JArr [JStr (str "```")])
   /\ decode_fenced (fenced (str "json") (jtext "['```']")) = fail JSONDecodeError)
  /\ (decode_fenced (str "[]") = Val (JArr [])
      /\ decode_fenced (fenced (str "python") (str "[]")) = fail JSONDecodeError).
Proof. repeat split; vm_compute; reflexivity. Qed.

(** Evaluate the state a computation ends in. *)
Ltac settle :=
  unfold ret, sys_exit, raise;
  cbn [eprint print to_stderr to_stdout logged with_daemon_url
       log stdout stderr DAEMON_URL fst snd is_Exception anything];
  rewrite <- ?app_assoc; cbn [app]; try reflexivity.

(* ------------------------------------------------------------------ *)
(** ** Choosing the Ollama model *)

Lemma text_eqb_eq (a b : text) : text_eqb a b = true <-> a = b.
Proof.
  revert b. induction a as [|x a IH]; intros [|y b]; cbn [text_eqb];
    try (split; [discriminate | discriminate]); [tauto|].
  rewrite andb_true_iff, IH. split.
  - intros [Hxy ->]. apply Ascii.eqb_eq in Hxy. now subst.
  - intros [= -> ->]. split; [apply Ascii.eqb_refl | reflexivity].
Qed.

Lemma text_eqb_refl (a : text) : text_eqb a a = true.
Proof. now apply text_eqb_eq. Qed.

Lemma installed_iff (m : text) (available : list text) :
  existsb (text_eqb m) available = true <-> In m available.
Proof.
  rewrite existsb_exists. split.
  - intros (x & Hx & Heq). apply text_eqb_eq in Heq. now subst.
  - intros H. exists m. split; [exact H | apply text_eqb_refl].
Qed.

Section SelectFacts.
Variable available : list text.


Lemma find_first {A} (f : A -> bool) (pre : list A) (m : A) (post : list A) :
  f m = true -> (forall x, In x pre -> f x = false) ->
  List.find f (pre ++ m :: post) = Some m.
Proof.
  intros Hm. induction pre as [|x pre IH]; intros Hpre; cbn [app List.find].
  - now rewrite Hm.
  - rewrite (Hpre x) by now left. apply IH. intros y Hy. apply Hpre. now right.
Qed.

Lemma find_nothing {A} (f : A -> bool) (l : list A) :
  (forall x, In x l -> f x = false) -> List.find f l = None.
Proof.
  induction l as [|x l IH]; intros Hl; cbn [List.find]; [reflexivity|].
  rewrite (Hl x) by now left. apply IH. intros y Hy. apply Hl. now right.
Qed.

Lemma not_installed (x : text) :
  ~ In x available -> installed available x = false.
Proof.
  intros H. destruct (installed available x) eqn:E; [|reflexivity].
  exfalso. apply H. now apply installed_iff.
Qed.

(** The first preferred name that is installed is selected. *)
Lemma select_preferred (pre : list text) (m : text) (post : list text) :
  preferred = pre ++ m :: post ->
  In m available -> (forall x, In x pre -> ~ In x available) ->
  select_model available = Some m /\ m <> [].
Proof.
  intros Hpref Hm Hpre.
  assert (Hne : m <> []).
  { intros ->. assert (Hin : In [] preferred)
      by (rewrite Hpref; apply in_or_app; right; now left).
    vm_compute in Hin. intuition discriminate. }
  split; [|exact Hne].
  unfold select_model. fold (installed available). rewrite Hpref.
  rewrite (find_first (installed available) pre m post).
  - destruct available as [|first_model rest]; [destruct Hm|].
    destruct m; [congruence | reflexivity].
  - now apply installed_iff.
  - intros x Hx. apply not_installed. now apply Hpre.
Qed.

(** Without a preferred name among them, the first installed model is
    selected. *)
Lemma select_fallback (first_model : text) (rest : list text) :
  available = first_model :: rest ->
  (forall x, In x preferred -> ~ In x available) ->
  select_model available = Some first_model.
Proof.
  intros Hav Hnone. unfold select_model. fold (installed available).
  rewrite (find_nothing (installed available) preferred).
  - now rewrite Hav.
  - intros x Hx. apply not_installed. now apply Hnone.
Qed.
End SelectFacts.

Lemma select_nothing : select_model [] = None.
Proof. reflexivity. Qed.

Section OllamaFacts.
Variable w : world.
Variable transcript : text.
Variable s : state.
Variable resp : response.
Variable tags : json.
Variable available : list text.

Hypothesis Hreply : network w (log s) (tags_request w) = Answer resp.
Hypothesis Htags : resp_json resp = Val tags.
Hypothesis Havailable : available_models tags = Val available.

Let listed : exchange := (tags_request w, Answer resp).

(** A selected model with a name is asked for the learnings: the request
    after the listing is the generation request for that model, and
    nothing is sent after it. *)
Lemma ollama_generates (selected : text) :
  select_model available = Some selected -> selected <> [] ->
  let generate := generate_request (ollama_url w) selected transcript in
  log (snd (extract_with_ollama w transcript s))
  = log s ++ [listed; (generate, network w (log s ++ [listed]) generate)].
Proof.
  intros Hsel Hne generate.
  unfold extract_with_ollama, try_except, bind, send, lift.
  rewrite Hreply, Htags, Havailable, Hsel.
  destruct selected as [|c selected]; [congruence|].
  cbn [eprint to_stderr logged log].
  fold generate. fold listed.
  destruct (network w (log s ++ [listed]) generate) as [r|e];
    [|now settle].
  destruct (raise_for_status r) as [[]|x]; [|now destruct x; settle].
  destruct (resp_json r) as [body|x]; [|now destruct x; settle].
  destruct (item body (str "response")) as [v|x]; [|now destruct x; settle].
  destruct (as_str v) as [t|x]; [|now destruct x; settle].
  destruct (decode_bracketed t) as [r'|x]; [|destruct x]; now settle.
Qed.

(** Without a selected model, or with one whose name is empty, the
    provider is unavailable and sends nothing after the listing. *)
Lemma ollama_no_model :
  select_model available = None \/ select_model available = Some [] ->
  extract_with_ollama w transcript s
  = (Ok JNull, to_stderr NoOllamaModels (logged listed s)).
Proof.
  intros Hsel.
  unfold extract_with_ollama, try_except, bind, send, lift.
  rewrite Hreply, Htags, Havailable.
  destruct Hsel as [-> | ->]; reflexivity.
Qed.
End OllamaFacts.

(** C9, as amended.  The names compared are those of the installed models
    without their tags.  The first name of the preference list that is
    installed is selected; if none is, the first installed model is
    selected, provided its name is not empty; with no installed model the
    provider is unavailable and sends no generation request. *)
Theorem model_selection (w : world) (transcript : text) (s : state)
    (resp : response) (tags : json) (available : list text) :
  network w (log s) (tags_request w) = Answer resp ->
  resp_json resp = Val tags ->
  available_models tags = Val available ->
  let listed := (tags_request w, Answer resp) in
  let asked (m : text) :=
    let generate := generate_request (ollama_url w) m transcript in
    log (snd (extract_with_ollama w transcript s))
    = log s ++ [listed; (generate, network w (log s ++ [listed]) generate)] in
  (forall pre m post,
      preferred = pre ++ m :: post ->
      In m available -> (forall x, In x pre -> ~ In x available) ->
      select_model available = Some m /\ asked m)
  /\ (forall first_model rest,
         available = first_model :: rest ->
         (forall x, In x preferred -> ~ In x available) ->
         first_model <> [] ->
         select_model available = Some first_model /\ asked first_model)
  /\ (available = [] ->
      fst (extract_with_ollama w transcript s) = Ok JNull
      /\ log (snd (extract_with_ollama w transcript s)) = log s ++ [listed]).
Proof.
  intros Hreply Htags Hav listed asked. repeat split.
  - eapply select_preferred; eassumption.
  - destruct (select_preferred available pre m post) as [Hsel Hne]; try assumption.
    now apply (ollama_generates w transcript s resp tags available).
  - now apply select_fallback with (rest := rest).
  - apply (ollama_generates w transcript s resp tags available); try assumption.
    now apply select_fallback with (rest := rest).
  - rewrite (ollama_no_model w transcript s resp tags available); try assumption;
      [reflexivity | left; subst; reflexivity].
  - rewrite (ollama_no_model w transcript s resp tags available); try assumption;
      [reflexivity | left; subst; reflexivity].
Qed.

Lemma model_selection_witness :
  select_model [str "phi3"; str "mistral"] = Some (str "mistral")
  /\ select_model [str "phi3"; str "qwen2"] = Some (str "phi3").
Proof.
  split.
  - pose (w := ollama_world
                 (jtext "{'models':[{'name':'phi3:mini'},{'name':'mistral:7b'}]}")).
    destruct (model_selection w [] (initial_state w)
                {| status_code := 200;
                   content := jtext "{'models':[{'name':'phi3:mini'},{'name':'mistral:7b'}]}" |}
                (JObj [(str "models",
                        JArr [JObj [(str "name", JStr (str "phi3:mini"))];
                              JObj [(str "name", JStr (str "mistral:7b"))]])])
                [str "phi3"; str "mistral"]
                eq_refl eq_refl eq_refl) as (H & _ & _).
    apply (H [str "llama3"] (str "mistral")
             [str "mixtral"; str "codellama"; str "deepseek-coder"]).
    + reflexivity.
    + simpl. tauto.
    + intros x [<-|[]] [E|[E|[]]]; discriminate E.
  - pose (w := ollama_world
                 (jtext "{'models':[{'name':'phi3:mini'},{'name':'qwen2'}]}")).
    destruct (model_selection w [] (initial_state w)
                {| status_code := 200;
                   content := jtext "{'models':[{'name':'phi3:mini'},{'name':'qwen2'}]}" |}
                (JObj [(str "models",
                        JArr [JObj [(str "name", JStr (str "phi3:mini"))];
                              JObj [(str "name", JStr (str "qwen2"))]])])
                [str "phi3"; str "qwen2"]
                eq_refl eq_refl eq_refl) as (_ & H & _).
    apply (H (str "phi3") [str "qwen2"]).
    + reflexivity.
    + intros x Hx [E|[E|[]]]; subst x; vm_compute in Hx;
        repeat (destruct Hx as [Hx|Hx]; [discriminate Hx|]); exact Hx.
    + discriminate.
Defined.

(** C9, as stated, fails: an installed model whose name starts with a colon
    has an empty name once its tag is cut off; it is installed, no preferred
    name is, and yet the provider is unavailable and asks for no
    generation. *)
Lemma model_selection_counterexample :
  available_models
    (JObj [(str "models", JArr [JObj [(str "name", JStr (str ":latest"))]])])
  = Val [[]]
  /\ extract_with_ollama (ollama_world (jtext "{'models':[{'name':':latest'}]}"))
       [] (initial_state (ollama_world (jtext "{'models':[{'name':':latest'}]}")))
     = (Ok JNull,
        {| DAEMON_URL := default_daemon_url;
           log := [(tags_request (ollama_world []),
                    Answer {| status_code := 200;
                              content := jtext "{'models':[{'name':':latest'}]}" |})];
           stdout := [];
           stderr := [NoOllamaModels] |}).
Proof. split; vm_compute; reflexivity. Qed.

(* ------------------------------------------------------------------ *)
(** ** Submitting the learnings *)

(** Case analysis on the innermost scrutinee first. *)
Ltac split_cases :=
  repeat (match goal with
          | |- context [match ?x with _ => _ end] =>
              lazymatch x with
              | context [match _ with _ => _ end] => fail
              | _ => destruct x eqn:?
              end
          end; cbn beta iota delta [is_Exception fst snd]).

Section StoreFacts.
Variable w : world.
Variable session_id : text.

Lemma store_one_ineligible (d : dict) (n : nat) (s : state) :
  eligible d = false ->
  store_one w session_id (JObj d) (n, s) = (Ok tt, (n, s)).
Proof.
  unfold eligible, present_nonempty, store_one, bind, lift, ret, get.
  destruct (dict_lookup (str "type") d) as [t|]; cbn [truthy negb andb].
  - destruct (truthy t); cbn [negb andb]; [|reflexivity].
    destruct (dict_lookup (str "content") d) as [c|]; cbn [truthy negb].
    + intros ->. reflexivity.
    + reflexivity.
  - reflexivity.
Qed.

(** An eligible record is submitted once; the counter goes up when the
    collaborator says [stored]; no exception leaves the loop body. *)
Lemma store_one_eligible (d : dict) (n : nat) (s : state) :
  eligible d = true ->
  let req := store_request (DAEMON_URL s) session_id d in
  let a := network w (log s) req in
  exists s',
    store_one w session_id (JObj d) (n, s)
    = (Ok tt, (if says "stored" a then S n else n, s'))
    /\ DAEMON_URL s' = DAEMON_URL s
    /\ log s' = log s ++ [(req, a)]
    /\ stdout s' = stdout s.
Proof.
  intros He req a.
  unfold eligible, present_nonempty in He.
  apply andb_true_iff in He as [Ht Hc].
  destruct (dict_lookup (str "type") d) as [t|] eqn:Et; [|discriminate].
  destruct (dict_lookup (str "content") d) as [c|] eqn:Ec; [|discriminate].
  unfold store_one, bind, lift, ret, get, try_except, global, set_item,
    requests_post, send, daemon_url, update_locals, eprint.
  rewrite Et, Ec, Ht, Hc. cbn [negb fst snd].
  fold (store_request (DAEMON_URL s) session_id d). fold req. fold a.
  unfold says, replied_status, fail.
  destruct a as [r|e]; cbn beta iota delta [is_Exception fst snd].
  2: { eexists. split; [reflexivity|]. settle. auto. }
  split_cases; try discriminate;
    eexists; (split; [reflexivity|]); settle; auto.
Qed.

(** The exchanges a run of the loop adds to the log. *)
Lemma store_loop (ds : list dict) :
  forall (n : nat) (s : state),
  exists (new : list exchange) (s' : state),
    for_each (map JObj ds) (store_one w session_id) (n, s)
    = (Ok tt, ((n + length (filter (fun x => says "stored" (snd x)) new))%nat, s'))
    /\ DAEMON_URL s' = DAEMON_URL s
    /\ log s' = log s ++ new
    /\ stdout s' = stdout s
    /\ map fst new
       = map (store_request (DAEMON_URL s) session_id) (filter eligible ds)
    /\ answered w (log s) new.
Proof.
  induction ds as [|d ds IH]; intros n s.
  - exists [], s. cbn. rewrite Nat.add_0_r, app_nil_r. repeat split.
  - cbn [map for_each filter]. unfold bind at 1.
    destruct (eligible d) eqn:He.
    + destruct (store_one_eligible d n s He) as (s1 & -> & Hu & Hl & Ho).
      destruct (IH (if says "stored"
                         (network w (log s)
                            (store_request (DAEMON_URL s) session_id d))
                    then S n else n) s1)
        as (new & s' & -> & Hu' & Hl' & Ho' & Hreq & Hans).
      exists ((store_request (DAEMON_URL s) session_id d,
               network w (log s) (store_request (DAEMON_URL s) session_id d))
              :: new), s'.
      split; [|repeat split].
      * f_equal. f_equal. cbn [filter snd length].
        destruct (says "stored" _); cbn [length]; lia.
      * congruence.
      * rewrite Hl', Hl, <- app_assoc. reflexivity.
      * congruence.
      * cbn [map fst]. rewrite Hreq, Hu. reflexivity.
      * rewrite Hl in Hans. exact Hans.
    + rewrite (store_one_ineligible d n s He). apply IH.
Qed.

(** [store_learnings] on a list of records returns, never raises, and
    reports the number of [stored] answers among its submissions. *)
Lemma store_learnings_run (ds : list dict) (s : state) :
  exists (new : list exchange) (s' : state),
    store_learnings w (JArr (map JObj ds)) session_id s
    = (Ok (length (filter (fun x => says "stored" (snd x)) new)), s')
    /\ DAEMON_URL s' = DAEMON_URL s
    /\ log s' = log s ++ new
    /\ stdout s' = stdout s
    /\ map fst new
       = map (store_request (DAEMON_URL s) session_id) (filter eligible ds)
    /\ answered w (log s) new.
Proof.
  destruct (store_loop ds 0%nat s) as (new & s' & Hrun & H).
  exists new, s'. split; [|exact H].
  unfold store_learnings, with_locals, bind, lift, ret, iter.
  cbn beta iota. unfold bind in Hrun. rewrite Hrun. reflexivity.
Qed.
End StoreFacts.

Lemma dict_lookup_set_other (k k' : text) (v : json) (d : dict) :
  k <> k' -> dict_lookup k (dict_set k' v d) = dict_lookup k d.
Proof.
  intros Hne. induction d as [|[k0 v0] d IH]; cbn [dict_set dict_lookup].
  - destruct (text_eqb k k') eqn:E; [|reflexivity].
    apply text_eqb_eq in E. contradiction.
  - destruct (text_eqb k' k0) eqn:E'; cbn [dict_lookup].
    + apply text_eqb_eq in E'. subst k0.
      destruct (text_eqb k k') eqn:E; [|reflexivity].
      apply text_eqb_eq in E. contradiction.
    + now rewrite IH.
Qed.

Lemma says_one_status (a : reply) :
  says "duplicate" a = true -> says "stored" a = false.
Proof.
  unfold says. destruct (replied_status a) as [[| | | |t| |]|]; cbn [eq_str];
    try discriminate.
  intros H. apply text_eqb_eq in H. now subst t.
Qed.

(** C4.  Of a list of candidate records, exactly those whose [type] and
    [content] are both present and non-empty are submitted, in order, each
    with its [session_source]; every other field of a submitted record,
    [type] and [confidence] among them, is the candidate's.  A record
    without [type], or with an empty [content], is not eligible; a record
    with any non-empty [type] string and non-empty [content] string is. *)
Theorem validator_filtering (w : world) (session_id : text) (ds : list dict)
    (s : state) :
  (exists new : list exchange,
      log (snd (store_learnings w (JArr (map JObj ds)) session_id s))
      = log s ++ new
      /\ map fst new
         = map (store_request (DAEMON_URL s) session_id) (filter eligible ds))
  /\ (forall d k,
         k <> str "session_source" ->
         dict_lookup k (dict_set (str "session_source") (JStr session_id) d)
         = dict_lookup k d)
  /\ (forall d, dict_lookup (str "type") d = None -> eligible d = false)
  /\ (forall d, dict_lookup (str "content") d = Some (JStr []) -> eligible d = false)
  /\ (forall d t c,
         dict_lookup (str "type") d = Some (JStr t) -> t <> [] ->
         dict_lookup (str "content") d = Some (JStr c) -> c <> [] ->
         eligible d = true).
Proof.
  split; [|split; [|split; [|split]]].
  - destruct (store_learnings_run w session_id ds s)
      as (new & s' & Hrun & _ & Hlog & _ & Hreq & _).
    exists new. rewrite Hrun. auto.
  - intros d k Hk. now apply dict_lookup_set_other.
  - intros d H. unfold eligible, present_nonempty. now rewrite H.
  - intros d H. unfold eligible, present_nonempty. rewrite H.
    apply andb_false_r.
  - intros d t c Ht Hne Hc Hne'. unfold eligible, present_nonempty.
    rewrite Ht, Hc. destruct t, c; try contradiction. reflexivity.
Qed.

(** The three candidates of the specification: only the first passes. *)
Lemma validator_filtering_witness :
  filter eligible
    [ [(str "type", JStr (str "GOTCHA")); (str "content", JStr (str "x"))];
      [(str "content", JStr (str "y"))];
      [(str "type", JStr (str "PATTERN")); (str "content", JStr [])] ]
  = [ [(str "type", JStr (str "GOTCHA")); (str "content", JStr (str "x"))] ].
Proof.
  destruct (validator_filtering (ollama_world []) [] [] (initial_state (ollama_world [])))
    as (_ & _ & Hmissing & Hempty & Hgood).
  cbn [filter].
  rewrite (Hgood [(str "type", JStr (str "GOTCHA")); (str "content", JStr (str "x"))]
             (str "GOTCHA") (str "x")
             eq_refl ltac:(discriminate) eq_refl ltac:(discriminate)).
  rewrite (Hmissing [(str "content", JStr (str "y"))] eq_refl).
  rewrite (Hempty [(str "type", JStr (str "PATTERN")); (str "content", JStr [])] eq_refl).
  reflexivity.
Defined.

(** C7.  [store_learnings] returns, whatever the collaborator answers: it
    submits every eligible record, one request each, and the count it
    returns is the number of those submissions the collaborator answered
    with the status [stored].  An answer [duplicate] and a failed request
    are not answers [stored]. *)
Theorem ingestion_counting (w : world) (session_id : text) (ds : list dict)
    (s : state) :
  (exists (new : list exchange) (s' : state),
      store_learnings w (JArr (map JObj ds)) session_id s
      = (Ok (length (filter (fun x => says "stored" (snd x)) new)), s')
      /\ log s' = log s ++ new
      /\ answered w (log s) new
      /\ map fst new
         = map (store_request (DAEMON_URL s) session_id) (filter eligible ds))
  /\ (forall a, says "duplicate" a = true -> says "stored" a = false)
  /\ (forall e, says "stored" (Failure e) = false).
Proof.
  split; [|split].
  - destruct (store_learnings_run w session_id ds s)
      as (new & s' & Hrun & _ & Hlog & _ & Hreq & Hans).
    exists new, s'. auto.
  - apply says_one_status.
  - reflexivity.
Qed.

(* ------------------------------------------------------------------ *)
(** ** How computations change the state *)

Section Growth.

Lemma grows_refl (s : state) : grows s s [] [] [].
Proof. unfold grows. now rewrite !app_nil_r. Qed.

Lemma grows_trans (s s1 s2 : state) n1 o1 e1 n2 o2 e2 :
  grows s s1 n1 o1 e1 -> grows s1 s2 n2 o2 e2 ->
  grows s s2 (n1 ++ n2) (o1 ++ o2) (e1 ++ e2).
Proof.
  intros (Hu & Hl & Ho & He) (Hu' & Hl' & Ho' & He'). unfold grows.
  rewrite Hu', Hl', Ho', He', Hu, Hl, Ho, He, !app_assoc. auto.
Qed.

Lemma grows_logged (s : state) (x : exchange) : grows s (logged x s) [x] [] [].
Proof. unfold grows. cbn. now rewrite !app_nil_r. Qed.

Lemma grows_to_stderr (s : state) (m : message) :
  grows s (to_stderr m s) [] [] [m].
Proof. unfold grows. cbn. now rewrite !app_nil_r. Qed.

Lemma grows_to_stdout (s : state) (m : message) :
  grows s (to_stdout m s) [] [m] [].
Proof. unfold grows. cbn. now rewrite !app_nil_r. Qed.

Variable P : exchange -> Prop.
Variable Q : message -> Prop.

Lemma steps_refl (s : state) : steps P Q s s.
Proof.
  exists [], [], []. split; [constructor|]. split; [constructor | apply grows_refl].
Qed.

Lemma steps_trans (s s1 s2 : state) :
  steps P Q s s1 -> steps P Q s1 s2 -> steps P Q s s2.
Proof.
  intros (n1 & o1 & e1 & H1 & Q1 & G1) (n2 & o2 & e2 & H2 & Q2 & G2).
  exists (n1 ++ n2), (o1 ++ o2), (e1 ++ e2).
  split; [|split].
  - apply Forall_app. auto.
  - apply Forall_app. auto.
  - eapply grows_trans; eassumption.
Qed.

Lemma steps_logged (s : state) (x : exchange) : P x -> steps P Q s (logged x s).
Proof.
  intros H. exists [x], [], [].
  split; [now repeat constructor|]. split; [constructor | apply grows_logged].
Qed.

Lemma steps_to_stderr (s : state) (m : message) : steps P Q s (to_stderr m s).
Proof.
  exists [], [], [m].
  split; [constructor|]. split; [constructor | apply grows_to_stderr].
Qed.

Lemma steps_to_stdout (s : state) (m : message) :
  Q m -> steps P Q s (to_stdout m s).
Proof.
  intros H. exists [], [m], [].
  split; [constructor|]. split; [now repeat constructor | apply grows_to_stdout].
Qed.

Section Generic.
Context {S : Type} (proj : S -> state).

Lemma keeps_ret {A} (a : A) : keeps proj P Q (ret a).
Proof. intros s. apply steps_refl. Qed.

Lemma keeps_raise {A} (x : exn) : keeps proj P Q (@raise S A x).
Proof. intros s. apply steps_refl. Qed.

Lemma keeps_exit {A} (c : Z) : keeps proj P Q (@sys_exit S A c).
Proof. intros s. apply steps_refl. Qed.

Lemma keeps_lift {A} (r : pure A) : keeps proj P Q (lift r).
Proof. intros s. unfold lift. destruct r; apply steps_refl. Qed.

Lemma keeps_bind {A B} (m : M S A) (k : A -> M S B) :
  keeps proj P Q m -> (forall a, keeps proj P Q (k a)) ->
  keeps proj P Q (bind m k).
Proof.
  intros Hm Hk s. unfold bind. specialize (Hm s).
  destruct (m s) as [[a|x] s1]; cbn [snd] in *; [|exact Hm].
  eapply steps_trans; [exact Hm | apply Hk].
Qed.

Lemma keeps_try {A} (body : M S A) (catches : exn -> bool)
    (handler : exn -> M S A) :
  keeps proj P Q body -> (forall x, keeps proj P Q (handler x)) ->
  keeps proj P Q (try_except body catches handler).
Proof.
  intros Hb Hh s. unfold try_except. specialize (Hb s).
  destruct (body s) as [[a|x] s1]; cbn [snd] in *; [exact Hb|].
  destruct (catches x); [|exact Hb].
  eapply steps_trans; [exact Hb | apply Hh].
Qed.

Lemma keeps_for_each {A} (l : list A) (body : A -> M S unit) :
  (forall x, keeps proj P Q (body x)) -> keeps proj P Q (for_each l body).
Proof.
  intros Hb. induction l as [|x l IH]; cbn [for_each].
  - apply keeps_ret.
  - apply keeps_bind; [apply Hb | intros _; exact IH].
Qed.
End Generic.

Lemma keeps_eprint (m : message) : keeps id P Q (eprint m).
Proof. intros s. apply steps_to_stderr. Qed.

Lemma keeps_print (m : message) : Q m -> keeps id P Q (print m).
Proof. intros H s. now apply steps_to_stdout. Qed.

Lemma keeps_daemon_url : keeps id P Q daemon_url.
Proof. intros s. apply steps_refl. Qed.

Lemma keeps_send (w : world) (r : request) :
  (forall a, P (r, a)) -> keeps id P Q (send w r).
Proof.
  intros H s. unfold send.
  destruct (network w (log s) r) eqn:E; cbn [snd id]; now apply steps_logged.
Qed.

Lemma keeps_global {L A} (m : M state A) :
  keeps id P Q m -> keeps (@snd L state) P Q (global m).
Proof.
  intros H [l s]. unfold global. cbn [fst snd]. specialize (H s).
  destruct (m s) as [r s']. exact H.
Qed.

Lemma keeps_update_locals {L} (f : L -> L) :
  keeps (@snd L state) P Q (update_locals f).
Proof. intros [l s]. apply steps_refl. Qed.

Lemma keeps_with_locals {L A} (init : L) (m : M (L * state) A) :
  keeps (@snd L state) P Q m -> keeps id P Q (with_locals init m).
Proof.
  intros H s. unfold with_locals. specialize (H (init, s)).
  destruct (m (init, s)) as [[a|x] [l s']]; exact H.
Qed.

End Growth.

(** Apply the rules above along the structure of a computation. *)
Ltac keep :=
  repeat first
    [ apply keeps_ret | apply keeps_raise | apply keeps_exit | apply keeps_lift
    | apply keeps_eprint | apply keeps_daemon_url
    | apply keeps_update_locals
    | apply keeps_global | apply keeps_with_locals
    | apply keeps_for_each; intros ?
    | apply keeps_bind; [|intros ?]
    | apply keeps_try; [|intros ?]
    | match goal with
      | |- keeps _ _ _ (if ?b then _ else _) => destruct b
      | |- keeps _ _ _ (match ?x with _ => _ end) => destruct x
      end ].

(* ------------------------------------------------------------------ *)
(** ** What computations print on standard error *)

Section Reporting.
Variable R : message -> Prop.

Section Generic.
Context {S : Type} (proj : S -> state).

Lemma reports_nothing {A} (m : M S A) :
  (forall s, proj (snd (m s)) = proj s) -> reports proj R m.
Proof. intros H s. exists []. rewrite H, app_nil_r. now split. Qed.

Lemma reports_ret {A} (a : A) : reports proj R (ret a).
Proof. now apply reports_nothing. Qed.

Lemma reports_raise {A} (x : exn) : reports proj R (@raise S A x).
Proof. now apply reports_nothing. Qed.

Lemma reports_exit {A} (c : Z) : reports proj R (@sys_exit S A c).
Proof. now apply reports_nothing. Qed.

Lemma reports_lift {A} (r : pure A) : reports proj R (lift r).
Proof. apply reports_nothing. intros s. unfold lift. now destruct r. Qed.

Lemma reports_then {A} (m : M S A) (s : S) (s2 : S) :
  reports proj R m ->
  (exists errs, stderr (proj s2) = stderr (proj (snd (m s))) ++ errs
                /\ Forall R errs) ->
  exists errs, stderr (proj s2) = stderr (proj s) ++ errs /\ Forall R errs.
Proof.
  intros Hm (e2 & H2 & F2). destruct (Hm s) as (e1 & H1 & F1).
  exists (e1 ++ e2). split; [|now apply Forall_app].
  now rewrite H2, H1, app_assoc.
Qed.

Lemma reports_bind {A B} (m : M S A) (k : A -> M S B) :
  reports proj R m -> (forall a, reports proj R (k a)) ->
  reports proj R (bind m k).
Proof.
  intros Hm Hk s. unfold bind.
  destruct (m s) as [[a|x] s1] eqn:E; cbn [snd].
  - apply (reports_then m s); [exact Hm|]. rewrite E. apply Hk.
  - specialize (Hm s). now rewrite E in Hm.
Qed.

Lemma reports_try {A} (body : M S A) (catches : exn -> bool)
    (handler : exn -> M S A) :
  reports proj R body -> (forall x, reports proj R (handler x)) ->
  reports proj R (try_except body catches handler).
Proof.
  intros Hb Hh s. unfold try_except.
  destruct (body s) as [[a|x] s1] eqn:E; cbn [snd].
  - specialize (Hb s). now rewrite E in Hb.
  - destruct (catches x).
    + apply (reports_then body s); [exact Hb|]. rewrite E. apply Hh.
    + specialize (Hb s). now rewrite E in Hb.
Qed.

Lemma reports_for_each {A} (l : list A) (body : A -> M S unit) :
  (forall x, reports proj R (body x)) -> reports proj R (for_each l body).
Proof.
  intros Hb. induction l as [|x l IH]; cbn [for_each].
  - apply reports_ret.
  - apply reports_bind; [apply Hb | intros _; exact IH].
Qed.
End Generic.

Lemma reports_eprint (m : message) : R m -> reports id R (eprint m).
Proof. intros H s. exists [m]. split; [reflexivity | now repeat constructor]. Qed.

Lemma reports_print (m : message) : reports id R (print m).
Proof. intros s. exists []. split; [symmetry; apply app_nil_r | constructor]. Qed.

Lemma reports_daemon_url : reports id R daemon_url.
Proof. intros s. exists []. split; [symmetry; apply app_nil_r | constructor]. Qed.

Lemma reports_send (w : world) (r : request) : reports id R (send w r).
Proof.
  intros s. exists []. unfold send.
  destruct (network w (log s) r); (split; [symmetry; apply app_nil_r | constructor]).
Qed.

Lemma reports_global {L A} (m : M state A) :
  reports id R m -> reports (@snd L state) R (global m).
Proof.
  intros H [l s]. unfold global. cbn [fst snd]. specialize (H s).
  destruct (m s) as [r s']. exact H.
Qed.

Lemma reports_update_locals {L} (f : L -> L) :
  reports (@snd L state) R (update_locals f).
Proof. apply reports_nothing. now intros [l s]. Qed.

Lemma reports_with_locals {L A} (init : L) (m : M (L * state) A) :
  reports (@snd L state) R m -> reports id R (with_locals init m).
Proof.
  intros H s. unfold with_locals. specialize (H (init, s)).
  destruct (m (init, s)) as [[a|x] [l s']]; exact H.
Qed.

End Reporting.

(** Apply the rules above along the structure of a computation. *)
Ltac report :=
  repeat first
    [ apply reports_ret | apply reports_raise | apply reports_exit
    | apply reports_lift | apply reports_print | apply reports_daemon_url
    | apply reports_send | apply reports_update_locals
    | apply reports_global | apply reports_with_locals
    | apply reports_for_each; intros ?
    | apply reports_bind; [|intros ?]
    | apply reports_try; [|intros ?]
    | match goal with
      | |- reports _ _ (if ?b then _ else _) => destruct b
      | |- reports _ _ (match ?x with _ => _ end) => destruct x
      end ].

Section ProviderFacts.
Variable w : world.
Variable transcript : text.

Lemma endswith_store_generate (u : text) :
  endswith (str "/store") (u ++ str "/api/generate") = false.
Proof. unfold endswith. rewrite rev_app_distr. reflexivity. Qed.

(** A provider sends no [/store] request and prints nothing on standard
    output. *)
Lemma anthropic_keeps :
  keeps id no_store_call nothing (extract_with_anthropic w transcript).
Proof.
  unfold extract_with_anthropic.
  destruct (environ w (str "ANTHROPIC_API_KEY")) as [[|c key]|]; keep.
  apply keeps_send. intros ?. reflexivity.
Qed.

Lemma ollama_keeps :
  keeps id no_store_call nothing (extract_with_ollama w transcript).
Proof.
  unfold extract_with_ollama. keep.
  - apply keeps_send. intros ?. reflexivity.
  - apply keeps_send. intros ?. unfold no_store_call, is_store_call.
    cbn [fst meth url generate_request]. apply endswith_store_generate.
Qed.

Lemma extract_keeps :
  keeps id no_store_call nothing (extract w transcript).
Proof.
  unfold extract. apply keeps_bind; [apply anthropic_keeps|].
  intros l. destruct (is_None l); [|apply keeps_ret].
  apply keeps_bind; [apply keeps_eprint|]. intros _. apply ollama_keeps.
Qed.

(** A provider returns: it raises no exception. *)
Lemma anthropic_returns : returns (extract_with_anthropic w transcript).
Proof.
  intros s. unfold extract_with_anthropic.
  destruct (environ w (str "ANTHROPIC_API_KEY")) as [[|c key]|];
    try (now eexists).
  unfold try_except, bind, lift, send, ret, eprint.
  split_cases; now eexists.
Qed.

Lemma ollama_returns : returns (extract_with_ollama w transcript).
Proof.
  intros s. unfold extract_with_ollama.
  unfold try_except, bind, lift, send, ret, eprint.
  split_cases; now eexists.
Qed.

(** The providers, and the fallback from one to the other, never print the
    line [NoLLMAvailable]. *)
Lemma extract_reports :
  reports id (fun m => m <> NoLLMAvailable) (extract w transcript).
Proof.
  unfold extract, extract_with_anthropic, extract_with_ollama.
  report; apply reports_eprint; discriminate.
Qed.

Lemma store_learnings_keeps (learnings : json) (session_id : text) :
  keeps id anything_goes nothing (store_learnings w learnings session_id).
Proof.
  unfold store_learnings, store_one, requests_post. keep.
  apply keeps_send. intros ?. exact I.
Qed.
End ProviderFacts.

(* ------------------------------------------------------------------ *)
(** ** The orchestration of [main] *)

Section MainFacts.
Variable w : world.

Lemma main_pipeline (argv : list text) (contents : text) (s : state) :
  2 <= len argv ->
  files w (nth 1 argv []) = Some contents ->
  main w argv s
  = bind (extract w (truncate contents))
         (fun l => deliver w l (parent_name (nth 1 argv [])))
         (start_state argv s).
Proof.
  intros Hargv Hfile. unfold main, start_state.
  destruct (Z.ltb_spec (len argv) 2); [lia|].
  rewrite Hfile. unfold bind at 1.
  destruct (existsb _ argv); [destruct (_ <? _)|]; reflexivity.
Qed.

Lemma start_state_log (argv : list text) (s : state) :
  log (start_state argv s) = log s /\ stdout (start_state argv s) = stdout s.
Proof.
  unfold start_state.
  destruct (existsb _ argv); [destruct (_ <? _)|]; split; reflexivity.
Qed.

Lemma extract_first (transcript : text) (s : state) (l : json) (s1 : state) :
  extract_with_anthropic w transcript s = (Ok l, s1) ->
  extract w transcript s
  = if is_None l
    then extract_with_ollama w transcript (to_stderr TryingOllama s1)
    else (Ok l, s1).
Proof.
  intros H. unfold extract, bind at 1. rewrite H.
  destruct (is_None l); reflexivity.
Qed.

Lemma is_None_iff (l : json) : is_None l = true <-> l = JNull.
Proof. destruct l; cbn; split; congruence. Qed.

Lemma deliver_None (session_id : text) (s : state) :
  deliver w JNull session_id s
  = (Raised (SystemExit 1), to_stderr NoLLMAvailable s).
Proof. reflexivity. Qed.


(** With a value that is not [None], [main] never prints the line
    [NoLLMAvailable]. *)
Lemma deliver_reports (l : json) (session_id : text) :
  l <> JNull ->
  reports id (fun m => m <> NoLLMAvailable) (deliver w l session_id).
Proof.
  intros Hl. unfold deliver.
  destruct (is_None l) eqn:E; [apply is_None_iff in E; contradiction|].
  unfold health_check, requests_get, store_learnings, store_one, requests_post.
  report; apply reports_eprint; discriminate.
Qed.

(** With a value from a provider, nothing [main] prints on standard error
    is the line [NoLLMAvailable]. *)
Lemma main_silent (argv : list text) (contents : text) (s : state) (l : json)
    (s1 : state) :
  2 <= len argv ->
  files w (nth 1 argv []) = Some contents ->
  extract w (truncate contents) (start_state argv s) = (Ok l, s1) ->
  l <> JNull ->
  exists errs,
    stderr (snd (main w argv s)) = stderr s ++ errs
    /\ ~ In NoLLMAvailable errs.
Proof.
  intros Hargv Hfile Hextract Hl.
  rewrite (main_pipeline argv contents s Hargv Hfile). unfold bind.
  destruct (extract_reports w (truncate contents) (start_state argv s))
    as (e1 & H1 & F1).
  rewrite Hextract in *. cbn [snd id] in H1.
  destruct (deliver_reports l (parent_name (nth 1 argv [])) Hl s1)
    as (e2 & H2 & F2).
  unfold id in H2.
  exists (Extracting (path_name (nth 1 argv [])) :: e1 ++ e2). split.
  - rewrite H2, H1. unfold start_state, id.
    destruct (existsb _ argv); [destruct (_ <? _)|];
      cbn [to_stderr with_daemon_url stderr]; rewrite <- !app_assoc;
      reflexivity.
  - intros [Hin | Hin]; [discriminate Hin|].
    apply in_app_or in Hin. rewrite Forall_forall in F1, F2.
    destruct Hin as [Hin | Hin]; [now apply (F1 _ Hin) | now apply (F2 _ Hin)].
Qed.

(** The degradation path: a non-empty list, a failing probe. *)
Lemma deliver_degraded (x : json) (xs : list json) (session_id : text) (s : state) :
  let l := JArr (x :: xs) in
  let probe := health_probe (DAEMON_URL s) in
  let a := network w (log s) probe in
  unhealthy a ->
  exists s' k,
    deliver w l session_id s = (Raised (SystemExit 1), s')
    /\ log s' = log s ++ [(probe, a)]
    /\ stdout s' = stdout s ++ repeat (JsonDump l) (S k).
Proof.
  intros l probe a Ha.
  unfold deliver, health_check, requests_get, send, bind, lift, try_except,
    daemon_url, eprint, print, sys_exit, raise.
  cbn [is_None truthy negb len_of l to_stderr log DAEMON_URL].
  fold (health_probe (DAEMON_URL s)). fold probe. fold a.
  destruct a as [r|e]; cbn [unhealthy] in Ha.
  - destruct (Z.eqb_spec (status_code r) 200); [contradiction|].
    cbn [negb anything]. eexists _, 1%nat. split; [reflexivity|].
    settle. auto.
  - cbn [anything]. eexists _, 0%nat. split; [reflexivity|].
    settle. auto.
Qed.

End MainFacts.

(** C1, as amended.  [main] tries Anthropic first.  Without the credential
    Anthropic is unavailable at once and the state is untouched: nothing
    was sent.  Ollama is tried exactly when Anthropic is unavailable.  When
    both are unavailable [main] prints the line [NoLLMAvailable] and exits
    with status 1, having sent no [/store] request.  With a value from
    either provider nothing it prints is that line; but it exits with
    status 1 and without a [/store] request all the same when the list is
    not empty and the health probe fails.  With an empty list it exits with
    status 0. *)
Theorem fallback_protocol (w : world) (argv : list text) (contents : text)
    (s : state) :
  2 <= len argv ->
  files w (nth 1 argv []) = Some contents ->
  let transcript := truncate contents in
  let session_id := parent_name (nth 1 argv []) in
  let s0 := start_state argv s in
  let silent :=
    exists errs,
      stderr (snd (main w argv s)) = stderr s ++ errs
      /\ ~ In NoLLMAvailable errs in
  exists (l1 : json) (s1 : state),
    extract_with_anthropic w transcript s0 = (Ok l1, s1)
    /\ (environ w (str "ANTHROPIC_API_KEY") = None -> l1 = JNull /\ s1 = s0)
    /\ (l1 <> JNull -> main w argv s = deliver w l1 session_id s1 /\ silent)
    /\ (l1 = JNull ->
        exists (l2 : json) (s2 : state),
          extract_with_ollama w transcript (to_stderr TryingOllama s1) = (Ok l2, s2)
          /\ main w argv s = deliver w l2 session_id s2
          /\ (l2 <> JNull -> silent)
          /\ (l2 = JNull ->
              main w argv s = (Raised (SystemExit 1), to_stderr NoLLMAvailable s2)
              /\ exit_status (fst (main w argv s)) = 1
              /\ exists new, log (snd (main w argv s)) = log s ++ new
                             /\ Forall no_store_call new))
    /\ (forall x xs s',
          unhealthy (network w (log s') (health_probe (DAEMON_URL s'))) ->
          exit_status (fst (deliver w (JArr (x :: xs)) session_id s')) = 1
          /\ exists new,
               log (snd (deliver w (JArr (x :: xs)) session_id s')) = log s' ++ new
               /\ Forall no_store_call new)
    /\ (forall s', deliver w (JArr []) session_id s'
                   = (Raised (SystemExit 0), to_stderr NoLearnings s')).
Proof.
  intros Hargv Hfile transcript session_id s0 silent.
  pose proof (main_pipeline w argv contents s Hargv Hfile) as Hmain.
  fold transcript session_id s0 in Hmain.
  destruct (anthropic_returns w transcript s0) as [l1 H1].
  destruct (extract_with_anthropic w transcript s0) as [r1 s1] eqn:E1.
  cbn [fst] in H1. subst r1.
  pose proof (anthropic_keeps w transcript s0) as K1. rewrite E1 in K1.
  cbn [snd id] in K1.
  pose proof (extract_first w _ _ _ _ E1) as Hextract.
  exists l1, s1. split; [reflexivity|].
  split; [|split; [|split; [|split]]].
  - intros Hkey. unfold extract_with_anthropic in E1. rewrite Hkey in E1.
    unfold ret in E1. inversion E1. auto.
  - intros Hl.
    destruct (is_None l1) eqn:E; [apply is_None_iff in E; contradiction|].
    split.
    + rewrite Hmain. unfold bind. now rewrite Hextract.
    + exact (main_silent w argv contents s l1 s1 Hargv Hfile Hextract Hl).
  - intros ->.
    destruct (ollama_returns w transcript (to_stderr TryingOllama s1)) as [l2 H2].
    destruct (extract_with_ollama w transcript (to_stderr TryingOllama s1))
      as [r2 s2] eqn:E2.
    cbn [fst] in H2. subst r2.
    pose proof (ollama_keeps w transcript (to_stderr TryingOllama s1)) as K2.
    rewrite E2 in K2. cbn [snd id] in K2.
    cbn [is_None] in Hextract.
    assert (Hm : main w argv s = deliver w l2 session_id s2).
    { rewrite Hmain. unfold bind. now rewrite Hextract. }
    exists l2, s2. split; [reflexivity|]. split; [exact Hm|]. split.
    { intros Hl. exact (main_silent w argv contents s l2 s2 Hargv Hfile Hextract Hl). }
    intros ->. rewrite Hm, deliver_None. split; [reflexivity|].
    split; [reflexivity|].
    destruct K1 as (n1 & o1 & e1 & F1 & _ & _ & L1 & _).
    destruct K2 as (n2 & o2 & e2 & F2 & _ & _ & L2 & _).
    exists (n1 ++ n2). split.
    + unfold id in L1, L2. cbn [snd to_stderr log] in *. rewrite L2, L1.
      unfold s0. rewrite (proj1 (start_state_log argv s)).
      now rewrite app_assoc.
    + apply Forall_app. auto.
  - intros x xs s' Hprobe.
    destruct (deliver_degraded w x xs session_id s' Hprobe)
      as (s2 & k & Hrun & Hlog & _).
    rewrite Hrun. split; [reflexivity|].
    eexists. split; [exact Hlog|]. repeat constructor.
  - reflexivity.
Qed.

Lemma fallback_protocol_witness :
  exit_status (fst (main offline_world example_argv (initial_state offline_world))) = 1.
Proof.
  destruct (fallback_protocol offline_world example_argv (str "a session")
              (initial_state offline_world))
    as (l1 & s1 & E1 & Hkey & _ & Hnull & _).
  - vm_compute. discriminate.
  - reflexivity.
  - destruct (Hkey eq_refl) as [-> ->].
    destruct (Hnull eq_refl) as (l2 & s2 & E2 & _ & _ & Hfatal).
    vm_compute in E2. injection E2 as <- <-.
    exact (proj1 (proj2 (Hfatal eq_refl))).
Defined.

(** C1, as stated, fails when a provider succeeds and the collaborator
    cannot be reached: Ollama returns the list [[1]], so not both providers
    are unavailable, and [main] exits with status 1 all the same, without
    one [/store] request. *)
Lemma fallback_counterexample :
  fst (extract (local_world (str "[1]") unreachable) (truncate (str "a session"))
         (start_state example_argv (initial_state (local_world (str "[1]") unreachable))))
  = Ok (JArr [JInt 1])
  /\ exit_status
       (fst (main (local_world (str "[1]") unreachable) example_argv
               (initial_state (local_world (str "[1]") unreachable)))) = 1
  /\ forallb (fun x => negb (is_store_call x))
       (log (snd (main (local_world (str "[1]") unreachable) example_argv
                    (initial_state (local_world (str "[1]") unreachable))))) = true.
Proof. repeat split; vm_compute; reflexivity. Qed.

(** C2, as amended.  When the extraction produced a non-empty list and the
    health probe fails, [main] exits with status 1; it has sent no [/store]
    request; and standard output holds the JSON dump of the full list (at
    least once) and nothing else. *)
Theorem degradation_path (w : world) (argv : list text) (contents : text)
    (s : state) (x : json) (xs : list json) (s1 : state) :
  2 <= len argv ->
  files w (nth 1 argv []) = Some contents ->
  extract w (truncate contents) (start_state argv s) = (Ok (JArr (x :: xs)), s1) ->
  unhealthy (network w (log s1) (health_probe (DAEMON_URL s1))) ->
  exists (s' : state) (new : list exchange) (k : nat),
    main w argv s = (Raised (SystemExit 1), s')
    /\ exit_status (fst (main w argv s)) = 1
    /\ log s' = log s ++ new
    /\ Forall no_store_call new
    /\ stdout s' = stdout s ++ repeat (JsonDump (JArr (x :: xs))) (S k).
Proof.
  intros Hargv Hfile Hext Hprobe.
  destruct (deliver_degraded w x xs (parent_name (nth 1 argv [])) s1 Hprobe)
    as (s' & k & Hdel & Hlog & Hout).
  assert (Hmain : main w argv s = (Raised (SystemExit 1), s')).
  { rewrite (main_pipeline w argv contents s Hargv Hfile).
    unfold bind. now rewrite Hext. }
  pose proof (extract_keeps w (truncate contents) (start_state argv s)) as K.
  rewrite Hext in K. destruct K as (new & outs & errs & HP & HQ & _ & L & O & _).
  unfold id in L, O. cbn [snd] in L, O.
  destruct (start_state_log argv s) as [L0 O0]. rewrite L0 in L. rewrite O0 in O.
  assert (outs = []) as -> by (destruct outs as [|m outs]; [reflexivity | inversion HQ as [|? ? []]]).
  rewrite app_nil_r in O.
  exists s', (new ++ [(health_probe (DAEMON_URL s1),
                      network w (log s1) (health_probe (DAEMON_URL s1)))]), k.
  split; [exact Hmain|]. split; [now rewrite Hmain|].
  split; [now rewrite Hlog, L, app_assoc|].
  split; [|now rewrite Hout, O].
  apply Forall_app. split; [exact HP|]. repeat constructor.
Qed.

Lemma degradation_path_witness :
  exit_status
    (fst (main (local_world (str "[1]") unreachable) example_argv
            (initial_state (local_world (str "[1]") unreachable)))) = 1
  /\ stdout
       (snd (main (local_world (str "[1]") unreachable) example_argv
               (initial_state (local_world (str "[1]") unreachable))))
     = [JsonDump (JArr [JInt 1])].
Proof.
  destruct (degradation_path (local_world (str "[1]") unreachable) example_argv
              (str "a session") (initial_state (local_world (str "[1]") unreachable))
              (JInt 1) []
              (snd (extract (local_world (str "[1]") unreachable)
                      (truncate (str "a session"))
                      (start_state example_argv
                         (initial_state (local_world (str "[1]") unreachable))))))
    as (s' & new & k & Hmain & Hexit & _ & _ & Hout).
  - vm_compute. discriminate.
  - reflexivity.
  - vm_compute. reflexivity.
  - vm_compute. exact I.
  - split; [exact Hexit|]. vm_compute. reflexivity.
Defined.

(** C2, as stated, fails for the empty list: the extraction succeeds with
    no learnings, the collaborator is unreachable, and [main] exits with
    status 0 without printing anything on standard output. *)
Lemma degradation_counterexample :
  fst (extract (local_world (str "[]") unreachable) (truncate (str "a session"))
         (start_state example_argv (initial_state (local_world (str "[]") unreachable))))
  = Ok (JArr [])
  /\ network (local_world (str "[]") unreachable) []
       (health_probe default_daemon_url) = unreachable
  /\ exit_status
       (fst (main (local_world (str "[]") unreachable) example_argv
               (initial_state (local_world (str "[]") unreachable)))) = 0
  /\ stdout
       (snd (main (local_world (str "[]") unreachable) example_argv
               (initial_state (local_world (str "[]") unreachable)))) = [].
Proof. repeat split; vm_compute; reflexivity. Qed.

(** With a collaborator that answers the probe with a status other than
    200, the [sys.exit(1)] of the [try] block is caught by the bare
    [except:] clause, and the list is printed a second time. *)
Lemma degradation_unhealthy_prints_twice :
  stdout
    (snd (main (local_world (str "[1]") unavailable) example_argv
            (initial_state (local_world (str "[1]") unavailable))))
  = [JsonDump (JArr [JInt 1]); JsonDump (JArr [JInt 1])].
Proof. vm_compute. reflexivity. Qed.

(* ------------------------------------------------------------------ *)
(** ** The bulk importer *)

Section ImporterFacts.
Variable w : world.

Lemma json_loads_nonempty (s : text) (v : json) :
  json_loads s = Some v -> s <> [].
Proof. intros H ->. discriminate H. Qed.

(** A submission of the importer returns, and sends the record as it
    is. *)
Lemma submit_sends (line_num : nat) (learning : json) (c : Importer.counters) (s : state) :
  exists c' s',
    Importer.submit w line_num learning (c, s) = (Ok tt, (c', s'))
    /\ log s' = log s ++ [(import_request learning,
                           network w (log s) (import_request learning))].
Proof.
  unfold Importer.submit, bind, lift, ret, try_except, global, requests_post,
    send, update_locals, print.
  cbn [fst snd]. fold (import_request learning).
  destruct (network w (log s) (import_request learning)) as [r|e];
    cbn beta iota delta [is_Exception fst snd].
  2: { do 2 eexists. split; [reflexivity|]. settle. }
  split_cases; do 2 eexists; (split; [reflexivity|]); settle.
Qed.

Lemma import_line_object (line_num : nat) (line : text) (d : dict)
    (c : Importer.counters) (s : state) :
  json_loads (strip line) = Some (JObj d) ->
  dict_lookup (str "type") d <> None ->
  dict_lookup (str "content") d <> None ->
  Importer.import_line w (line_num, line) (c, s)
  = Importer.submit w line_num (JObj d) (c, s).
Proof.
  intros Hd Ht Hc. unfold Importer.import_line.
  pose proof (json_loads_nonempty _ _ Hd) as Hne.
  destruct (strip line) as [|x rest] eqn:E; [contradiction|].
  rewrite Hd. unfold bind, lift, ret, has.
  destruct (dict_lookup (str "type") d); [|contradiction].
  destruct (dict_lookup (str "content") d); [|contradiction].
  reflexivity.
Qed.
End ImporterFacts.

(** C10.  A line of the import file that decodes to an object with the keys
    [type] and [content] is submitted to [/store] as it is, whatever the
    values: the importer tests the presence of the keys only.  The loop of
    [store_learnings] drops the same record when one of the two values is
    an empty string. *)
Theorem importer_presence_only (w : world) (line_num : nat) (line : text)
    (d : dict) (c : Importer.counters) (s : state) :
  json_loads (strip line) = Some (JObj d) ->
  dict_lookup (str "type") d <> None ->
  dict_lookup (str "content") d <> None ->
  (exists c' s',
      Importer.import_line w (line_num, line) (c, s) = (Ok tt, (c', s'))
      /\ log s' = log s ++ [(import_request (JObj d),
                             network w (log s) (import_request (JObj d)))]
      /\ is_store_call (import_request (JObj d),
                        network w (log s) (import_request (JObj d))) = true)
  /\ (dict_lookup (str "type") d = Some (JStr [])
      \/ dict_lookup (str "content") d = Some (JStr []) ->
      forall session_id n,
        store_one w session_id (JObj d) (n, s) = (Ok tt, (n, s))).
Proof.
  intros Hd Ht Hc. split.
  - rewrite (import_line_object w line_num line d c s Hd Ht Hc).
    destruct (submit_sends w line_num (JObj d) c s) as (c' & s' & Hrun & Hlog).
    exists c', s'. repeat split; assumption.
  - intros Hempty session_id n. apply store_one_ineligible.
    unfold eligible, present_nonempty.
    destruct Hempty as [-> | ->]; [reflexivity | apply andb_false_r].
Qed.

Lemma importer_presence_only_witness :
  log (snd (snd (Importer.import_line offline_world
                   (1%nat, jtext "{'type': '', 'content': ''}")
                   (Importer.no_counts,
                    Importer.initial_state))))
  = [(import_request (JObj blank_record), Failure ConnectionError)]
  /\ store_one offline_world (str "abc") (JObj blank_record)
       (0%nat, Importer.initial_state)
     = (Ok tt, (0%nat, Importer.initial_state)).
Proof.
  destruct (importer_presence_only offline_world 1
              (jtext "{'type': '', 'content': ''}") blank_record
              Importer.no_counts
              Importer.initial_state)
    as [(c' & s' & Hrun & Hlog & _) Hdrop].
  - vm_compute. reflexivity.
  - discriminate.
  - discriminate.
  - split.
    + rewrite Hrun. exact Hlog.
    + apply Hdrop. left. reflexivity.
Defined.

(* ------------------------------------------------------------------ *)
(** ** Duplicates *)




(** The example of the specification: of five learnings the collaborator
    stores three and knows two; the count is three. *)
Example ingestion_counting_example :
  fst (store_learnings
         (collaborator_world [str "known one"; str "known two"])
         (JArr [JObj (record "GOTCHA" "a"); JObj (record "PATTERN" "known one");
                JObj (record "DECISION" "b"); JObj (record "FAILURE" "known two");
                JObj (record "PREFERENCE" "c")])
         (str "abc")
         (initial_state (collaborator_world [str "known one"; str "known two"])))
  = Ok 3%nat.
Proof. vm_compute. reflexivity. Qed.

(** The candidates of the specification's example. *)
Example validator_example :
  filter eligible
    [record "GOTCHA" "x"; [(str "content", JStr (str "y"))]; record "PATTERN" ""]
  = [record "GOTCHA" "x"].
Proof. reflexivity. Qed.

(** The end-to-end example of the specification: one learning is extracted,
    one request goes to [/store], with the learning and the name of the
    directory of the transcript, and the report is one stored of one. *)
Example end_to_end_example :
  fst (run remote_world [str "extract-from-transcript.py";
                         str "sessions/abc/transcript.md"]) = 0
  /\ map (fun x => payload (fst x))
       (filter is_store_call
          (log (snd (run remote_world [str "extract-from-transcript.py";
                                       str "sessions/abc/transcript.md"]))))
     = [Some (JObj [(str "type", JStr (str "GOTCHA"));
                    (str "content", JStr (str "use a fake clock"));
                    (str "confidence", JFloat (FDec 9 (-1)));
                    (str "session_source", JStr (str "abc"))])]
  /\ last (stderr (snd (run remote_world [str "extract-from-transcript.py";
                                          str "sessions/abc/transcript.md"])))
          Usage
     = StoredOf 1 1.
Proof. repeat split; vm_compute; reflexivity. Qed.

(** Fallback ordering: without a credential and with one local model, the
    requests go to the local service and, for the rest, to the
    collaborator; none goes to the remote provider. *)
Example fallback_ordering_example :
  map (fun x => url (fst x))
    (log (snd (run (local_world (str "[1]") unreachable) example_argv)))
  = [str "http://localhost:11434/api/tags";
     str "http://localhost:11434/api/generate";
     str "http://127.0.0.1:8741/health"].
Proof. vm_compute. reflexivity. Qed.

(* ------------------------------------------------------------------ *)
(** * Further properties of the scripts *)

(** ** Truncation, again *)

Lemma truncate_short (t : text) : len t <= 100000 -> truncate t = t.
Proof.
  intros H. unfold truncate, max_chars.
  destruct (Z.gtb_spec (len t) 100000); [lia | reflexivity].
Qed.

Lemma truncate_long (t : text) :
  100000 < len t ->
  truncate t = firstn (Z.to_nat 50000) t
                 ++ truncation_marker
                 ++ skipn (length t - Z.to_nat 50000) t.
Proof.
  intros H. unfold truncate, max_chars. change (100000 / 2) with 50000.
  destruct (Z.gtb_spec (len t) 100000); [|lia].
  rewrite py_slice_prefix, py_slice_suffix by lia. reflexivity.
Qed.

Lemma truncate_long_length (t : text) :
  100000 < len t -> len (truncate t) = 100034.
Proof.
  intros H. rewrite truncate_long by exact H.
  unfold len in *. rewrite !length_app, length_firstn, length_skipn.
  change (length truncation_marker) with 34%nat. lia.
Qed.

(** Truncating twice is truncating once: the text produced for an
    over-length transcript is itself over the threshold, and its head and
    tail are those of the transcript. *)
Theorem truncate_idempotent (t : text) : truncate (truncate t) = truncate t.
Proof.
  destruct (Z.le_gt_cases (len t) 100000) as [Hs | Hl].
  - now rewrite (truncate_short t Hs), (truncate_short t Hs).
  - pose proof (truncate_long_length t Hl) as Hlen.
    rewrite (truncate_long (truncate t)) by lia.
    rewrite (truncate_long t Hl) at 3.
    assert (Hn : length (truncate t) = Z.to_nat 100034) by (unfold len in Hlen; lia).
    rewrite Hn. rewrite (truncate_long t Hl).
    set (A := firstn (Z.to_nat 50000) t).
    set (B := skipn (length t - Z.to_nat 50000) t).
    assert (HA : length A = Z.to_nat 50000)
      by (unfold A; rewrite length_firstn; unfold len in Hl; lia).
    f_equal; [|f_equal].
    + rewrite firstn_app, HA, Nat.sub_diag. cbn [firstn].
      rewrite app_nil_r. rewrite <- HA. apply firstn_all.
    + rewrite app_assoc, skipn_app.
      assert (HAM : length (A ++ truncation_marker) = (Z.to_nat 100034 - Z.to_nat 50000)%nat).
      { rewrite length_app, HA. change (length truncation_marker) with 34%nat. lia. }
      rewrite <- HAM, skipn_all, Nat.sub_diag. reflexivity.
Qed.

(** The text sent on is never longer than 100,034 characters, which is
    more than the threshold; and truncation lengthens a transcript of
    100,001 to 100,033 characters. *)
Theorem truncate_length (t : text) :
  len (truncate t) <= 100034
  /\ (len (truncate t) <= len t <-> len t <= 100000 \/ 100034 <= len t).
Proof.
  destruct (Z.le_gt_cases (len t) 100000) as [Hs | Hl].
  - rewrite (truncate_short t Hs). split; [lia|]. split; [auto | lia].
  - rewrite (truncate_long_length t Hl). split; [lia|]. split; lia.
Qed.

(* ------------------------------------------------------------------ *)
(** ** The bracket scan, in full *)

(** Equal up to the bracketing of appends. *)
Ltac reassoc :=
  cbn [app]; rewrite <- ?app_assoc; cbn [app]; rewrite <- ?app_assoc;
  reflexivity.

Section ScanFacts.
Variable x : ascii.

Lemma split_first (s : text) :
  In x s -> exists p r, s = p ++ x :: r /\ ~ In x p.
Proof.
  induction s as [|c s IH]; [intros []|]. intros H.
  destruct (Ascii.eqb_spec c x) as [->|Hne].
  - exists [], s. split; [reflexivity | intros []].
  - destruct H as [H|H]; [contradiction|].
    destruct (IH H) as (p & r & -> & Hp).
    exists (c :: p), r. split; [reflexivity|].
    intros [E|E]; [contradiction | now apply Hp].
Qed.

Lemma split_last (s : text) :
  In x s -> exists r q, s = r ++ x :: q /\ ~ In x q.
Proof.
  intros H. apply in_rev in H. destruct (split_first (rev s) H) as (p & r & E & Hp).
  exists (rev r), (rev p). split.
  - rewrite <- (rev_involutive s), E, rev_app_distr. cbn [rev].
    now rewrite <- app_assoc.
  - intros Hin. apply Hp. now apply in_rev.
Qed.

Lemma find_from_absent (s : text) (i : Z) :
  ~ In x s -> find_from [x] s i = -1.
Proof.
  revert i. induction s as [|c s IH]; intros i Hs; [reflexivity|].
  cbn [find_from]. rewrite startswith_char.
  destruct (Ascii.eqb_spec x c) as [->|Hne].
  - exfalso. apply Hs. now left.
  - apply IH. intros H. apply Hs. now right.
Qed.

(** [find] stops at or before any occurrence. *)
Lemma find_from_le (p r : text) (i : Z) :
  i <= find_from [x] (p ++ x :: r) i <= i + len p.
Proof.
  revert i. induction p as [|c p IH]; intros i.
  - cbn [app find_from]. rewrite startswith_char, Ascii.eqb_refl.
    unfold len. cbn. lia.
  - change ((c :: p) ++ x :: r) with (c :: p ++ x :: r). cbn [find_from].
    rewrite startswith_char. unfold len. cbn [length].
    destruct (Ascii.eqb x c); [lia|].
    specialize (IH (i + 1)). unfold len in IH. lia.
Qed.

Lemma rfind_from_range (s : text) (i : Z) :
  rfind_from [x] s i = -1 \/ i <= rfind_from [x] s i.
Proof.
  revert i. induction s as [|c s IH]; intros i; [now left|].
  cbn [rfind_from]. rewrite startswith_char.
  destruct (Z.leb_spec 0 (rfind_from [x] s (i + 1))).
  - destruct (IH (i + 1)) as [E|E]; [lia | right; lia].
  - destruct (Ascii.eqb x c); [right; lia | now left].
Qed.

(** [rfind] stops at or after any occurrence. *)
Lemma rfind_from_ge (r q : text) (i : Z) :
  0 <= i -> i + len r <= rfind_from [x] (r ++ x :: q) i.
Proof.
  revert i. induction r as [|c r IH]; intros i Hi.
  - cbn [app rfind_from]. unfold len. cbn [length].
    rewrite startswith_char, Ascii.eqb_refl.
    destruct (Z.leb_spec 0 (rfind_from [x] q (i + 1))); [|lia].
    destruct (rfind_from_range q (i + 1)) as [E|E]; lia.
  - change ((c :: r) ++ x :: q) with (c :: r ++ x :: q). cbn [rfind_from].
    specialize (IH (i + 1) ltac:(lia)). unfold len in *. cbn [length].
    destruct (Z.leb_spec 0 (rfind_from [x] (r ++ x :: q) (i + 1))); lia.
Qed.
End ScanFacts.

Lemma bracket_scan_unchanged_if (s : text) :
  ~ (0 <= find (str "[") s < rfind (str "]") s + 1) -> bracket_scan s = s.
Proof.
  intros H. unfold bracket_scan.
  destruct (Z.leb_spec 0 (find (str "[") s));
    destruct (Z.ltb_spec (find (str "[") s) (rfind (str "]") s + 1));
    cbn [andb]; try reflexivity.
  exfalso. apply H. lia.
Qed.

(** What the scan does to any text.  Either the text holds an opening
    bracket with a closing bracket after it: then the scan returns the part
    from the first opening bracket to the last closing bracket.  Or it does
    not, and the scan returns the text as it is. *)
Theorem bracket_scan_spec (s : text) :
  (exists p m q,
      s = p ++ ("["%char :: m ++ ["]"%char]) ++ q
      /\ ~ In "["%char p /\ ~ In "]"%char q
      /\ bracket_scan s = "["%char :: m ++ ["]"%char])
  \/ (bracket_scan s = s
      /\ forall p m q, s <> p ++ ("["%char :: m ++ ["]"%char]) ++ q).
Proof.
  destruct (in_dec ascii_dec "["%char s) as [Ho|Ho].
  2: { right. split.
       - apply bracket_scan_unchanged_if. unfold find, str.
         cbn [list_ascii_of_string]. rewrite find_from_absent by exact Ho. lia.
       - intros p m q ->. apply Ho. apply in_or_app. right. now left. }
  destruct (in_dec ascii_dec "]"%char s) as [Hc|Hc].
  2: { right. split.
       - apply bracket_scan_unchanged_if. unfold find, rfind, str.
         cbn [list_ascii_of_string]. rewrite rfind_from_absent by exact Hc.
         destruct (split_first _ _ Ho) as (p & r & -> & _).
         pose proof (find_from_le "["%char p r 0). lia.
       - intros p m q ->. apply Hc. apply in_or_app. right.
         apply in_or_app. left. right. apply in_or_app. right. now left. }
  destruct (split_first _ _ Ho) as (p & r & Es & Hp).
  destruct (split_last _ _ Hc) as (r' & q & Es' & Hq).
  assert (Hfind : find (str "[") s = len p).
  { unfold find, str. cbn [list_ascii_of_string]. rewrite Es.
    rewrite find_from_first by exact Hp. lia. }
  assert (Hrfind : rfind (str "]") s = len r').
  { unfold rfind, str. cbn [list_ascii_of_string]. rewrite Es'.
    rewrite rfind_from_last by (lia || exact Hq). lia. }
  destruct (Z.lt_ge_cases (len p) (len r' + 1)) as [Hlt|Hge].
  - left. pose proof Es as E. rewrite Es' in E. symmetry in E.
    apply app_eq_app in E. destruct E as (l & [[-> E] | [-> E]]).
    + exfalso. destruct l as [|c l].
      * cbn in E. discriminate E.
      * unfold len in Hlt. rewrite length_app in Hlt. cbn [length] in Hlt. lia.
    + destruct l as [|c l]; [cbn in E; discriminate E|].
      cbn [app] in E. injection E as <- ->.
      exists p, l, q. split; [|split; [exact Hp | split; [exact Hq|]]].
      * rewrite Es'. reassoc.
      * rewrite Es'.
        replace ((p ++ "["%char :: l) ++ "]"%char :: q)
          with (p ++ ("["%char :: l ++ ["]"%char]) ++ q)
          by reassoc.
        now apply bracket_scan_array.
  - right. split.
    + apply bracket_scan_unchanged_if. lia.
    + intros p0 m0 q0 E.
      assert (H1 : find (str "[") s <= len p0).
      { unfold find, str. cbn [list_ascii_of_string]. rewrite E.
        replace (p0 ++ ("["%char :: m0 ++ ["]"%char]) ++ q0)
          with (p0 ++ "["%char :: (m0 ++ ["]"%char] ++ q0))
          by reassoc.
        pose proof (find_from_le "["%char p0 (m0 ++ ["]"%char] ++ q0) 0). lia. }
      assert (H2 : len p0 + 1 + len m0 <= rfind (str "]") s).
      { unfold rfind, str. cbn [list_ascii_of_string]. rewrite E.
        replace (p0 ++ ("["%char :: m0 ++ ["]"%char]) ++ q0)
          with ((p0 ++ "["%char :: m0) ++ "]"%char :: q0)
          by reassoc.
        pose proof (rfind_from_ge "]"%char (p0 ++ "["%char :: m0) q0 0 ltac:(lia)) as H.
        unfold len in *. rewrite length_app in H. cbn [length] in H. lia. }
      assert (0 <= len m0) by (unfold len; lia). lia.
Qed.

(** Scanning a scanned text changes nothing. *)
Theorem bracket_scan_idempotent (s : text) :
  bracket_scan (bracket_scan s) = bracket_scan s.
Proof.
  destruct (in_dec ascii_dec "["%char s) as [Ho|Ho];
    [destruct (in_dec ascii_dec "]"%char s) as [Hc|Hc]|].
  - destruct (split_first _ _ Ho) as (p & r & Es & Hp).
    destruct (split_last _ _ Hc) as (r' & q & Es' & Hq).
    assert (Hfind : find (str "[") s = len p).
    { unfold find, str. cbn [list_ascii_of_string]. rewrite Es.
      rewrite find_from_first by exact Hp. lia. }
    assert (Hrfind : rfind (str "]") s = len r').
    { unfold rfind, str. cbn [list_ascii_of_string]. rewrite Es'.
      rewrite rfind_from_last by (lia || exact Hq). lia. }
    destruct (Z.lt_ge_cases (len p) (len r' + 1)) as [Hlt|Hge].
    + pose proof Es as E. rewrite Es' in E. symmetry in E.
      apply app_eq_app in E. destruct E as (l & [[-> E] | [-> E]]).
      * exfalso. destruct l as [|c l].
        -- cbn in E. discriminate E.
        -- unfold len in Hlt. rewrite length_app in Hlt. cbn [length] in Hlt. lia.
      * destruct l as [|c l]; [cbn in E; discriminate E|].
        cbn [app] in E. injection E as <- ->.
        assert (Hscan : bracket_scan s = "["%char :: l ++ ["]"%char]).
        { rewrite Es'.
          replace ((p ++ "["%char :: l) ++ "]"%char :: q)
            with (p ++ ("["%char :: l ++ ["]"%char]) ++ q)
            by reassoc.
          now apply bracket_scan_array. }
        rewrite Hscan.
        pose proof (bracket_scan_array [] l []) as H.
        cbn [app] in H. rewrite app_nil_r in H. apply H; intros [].
    + rewrite !(bracket_scan_unchanged_if s) by lia. reflexivity.
  - assert (E : bracket_scan s = s).
    { apply bracket_scan_unchanged_if. unfold rfind, str.
      cbn [list_ascii_of_string]. rewrite rfind_from_absent by exact Hc.
      destruct (split_first _ _ Ho) as (p & r & -> & _).
      unfold find. cbn [list_ascii_of_string].
      pose proof (find_from_le "["%char p r 0). lia. }
    now rewrite !E.
  - assert (E : bracket_scan s = s).
    { apply bracket_scan_unchanged_if. unfold find, str.
      cbn [list_ascii_of_string]. rewrite find_from_absent by exact Ho. lia. }
    now rewrite !E.
Qed.

(* ------------------------------------------------------------------ *)
(** ** Fences, again *)

Lemma split_aux_cons (sep : text) (s : text) :
  forall k cur, exists piece rest, split_aux sep k cur s = piece :: rest.
Proof.
  induction s as [|c s IH]; intros k cur; cbn [split_aux].
  - now eexists _, _.
  - destruct k as [|k]; [|apply IH].
    destruct (startswith sep (c :: s)); [now eexists _, _ | apply IH].
Qed.

(** Stripping the fence never fails: a text that starts with a fence
    always has a piece after it, so the index [1] is in range. *)
Theorem strip_fence_total (content : text) :
  exists stripped, strip_fence content = Val stripped.
Proof.
  unfold strip_fence.
  destruct (startswith fence (strip content)) eqn:E; [|now eexists].
  destruct (strip content) as [|a rest]; [discriminate E|].
  unfold split. cbn [split_aux]. rewrite E.
  destruct (split_aux_cons fence rest (length fence - 1) [])
    as (piece & more & ->).
  cbn [nth_error]. now eexists.
Qed.

Lemma split_fenced_then (tag J rest : text) :
  contains fence J = false ->
  tag = [] \/ tag = str "json" ->
  nth_error (split fence (fenced tag J ++ rest)) 1 = Some (tag ++ nl :: J ++ [nl]).
Proof.
  intros HJ Htag. unfold split, fenced.
  replace ((fence ++ tag ++ nl :: J ++ nl :: fence) ++ rest)
    with (fence ++ tag ++ nl :: J ++ nl :: fence ++ rest)
    by (rewrite <- !app_assoc; cbn [app]; rewrite <- !app_assoc; reflexivity).
  destruct Htag as [-> | ->].
  - change (split_aux fence 0 [] (fence ++ [] ++ nl :: J ++ nl :: fence ++ rest))
      with ([] :: split_aux fence 0 [nl] (J ++ nl :: fence ++ rest)).
    now rewrite split_fence_body.
  - change (split_aux fence 0 [] (fence ++ str "json" ++ nl :: J ++ nl :: fence ++ rest))
      with ([] :: split_aux fence 0 (rev (str "json" ++ [nl])) (J ++ nl :: fence ++ rest)).
    rewrite split_fence_body by exact HJ. now rewrite rev_involutive, <- app_assoc.
Qed.

Lemma strip_fenced_then (tag J rest : text) :
  strip (fenced tag J ++ rest) = fenced tag J ++ rstrip rest.
Proof.
  pose proof (strip_core [] "`"%char
                (str "``" ++ tag ++ nl :: J ++ nl :: str "``") "`"%char rest
                eq_refl eq_refl) as H.
  cbn [lstrip] in H.
  replace (fenced tag J ++ rest)
    with ([] ++ "`"%char :: (str "``" ++ tag ++ nl :: J ++ nl :: str "``")
             ++ "`"%char :: rest).
  - rewrite H. unfold fenced, fence, str. cbn [list_ascii_of_string app].
    rewrite <- !app_assoc. cbn [app]. rewrite <- !app_assoc. reflexivity.
  - unfold fenced, fence, str. cbn [list_ascii_of_string app].
    rewrite <- !app_assoc. cbn [app]. rewrite <- !app_assoc. reflexivity.
Qed.

(** Whatever follows the closing fence is ignored. *)
Theorem fence_trailing_text (J : text) (v : json) (tag rest : text) :
  json_loads J = Some v ->
  contains fence J = false ->
  tag = [] \/ tag = str "json" ->
  decode_fenced (fenced tag J ++ rest) = Val v.
Proof.
  intros Hv HJ Htag. unfold decode_fenced, strip_fence.
  rewrite strip_fenced_then.
  change (startswith fence (fenced tag J ++ rstrip rest)) with true. cbn iota.
  rewrite split_fenced_then by assumption.
  replace (if startswith (str "json") (tag ++ nl :: J ++ [nl])
           then py_slice (tag ++ nl :: J ++ [nl]) (Some 4) None
           else tag ++ nl :: J ++ [nl])
    with (nl :: J ++ [nl]).
  - unfold loads. now rewrite (json_loads_lines J v Hv).
  - destruct Htag as [-> | ->].
    + reflexivity.
    + change (startswith (str "json") (str "json" ++ nl :: J ++ [nl])) with true.
      cbn iota. symmetry.
      exact (py_slice_suffix_from (str "json") (nl :: J ++ [nl])).
Qed.

Lemma fence_trailing_text_witness :
  decode_fenced (fenced (str "json") (str "[1]") ++ str " Hope this helps!")
  = Val (JArr [JInt 1]).
Proof.
  apply (fence_trailing_text (str "[1]") (JArr [JInt 1]) (str "json")
           (str " Hope this helps!")).
  - vm_compute. reflexivity.
  - vm_compute. reflexivity.
  - right. reflexivity.
Defined.

(* ------------------------------------------------------------------ *)
(** ** The selected model *)

(** What lines 105-114 come to, for any list of installed models. *)
Lemma select_model_outcome (available : list text) :
  (forall m, select_model available = Some m -> In m available)
  /\ (select_model available = None \/ select_model available = Some []
      <-> available = []
          \/ ((exists rest, available = [] :: rest)
              /\ forall x, In x preferred -> ~ In x available)).
Proof.
  unfold select_model. fold (installed available).
  destruct (List.find (installed available) preferred) as [m0|] eqn:F.
  - apply find_some in F. destruct F as [Hpref F]. apply installed_iff in F.
    assert (Hne : m0 <> []).
    { intros ->. vm_compute in Hpref. intuition discriminate. }
    destruct m0 as [|c m0]; [congruence|].
    destruct available as [|first_model rest]; [destruct F|].
    split; [intros m [= <-]; exact F|]. split.
    + intros [H | H]; discriminate H.
    + intros [H | [_ H]]; [discriminate H|].
      exfalso. exact (H _ Hpref F).
  - assert (Hnone : forall x, In x preferred -> ~ In x available).
    { intros x Hx Hin. apply installed_iff in Hin.
      pose proof (find_none _ _ F x Hx) as Hf. unfold installed in Hf.
      congruence. }
    destruct available as [|first_model rest].
    + split; [discriminate | tauto].
    + split; [intros m [= <-]; now left|]. split.
      * intros [H | [= ->]]; [discriminate H|].
        right. split; [now eexists | exact Hnone].
      * intros [H | [[rest' [= -> _]] _]]; [discriminate H | now right].
Qed.

(** The selection never invents a model: the model that is asked for the
    learnings is installed and has a name.  The provider reports that no
    model is available, and asks none, exactly when nothing is installed,
    or when the first installed model has an empty name and no preferred
    model is installed: the test of line 114 takes the empty name for no
    model, whatever else is installed. *)
Theorem select_model_installed (w : world) (transcript : text) (s : state)
    (resp : response) (tags : json) (available : list text) :
  network w (log s) (tags_request w) = Answer resp ->
  resp_json resp = Val tags ->
  available_models tags = Val available ->
  let listed := (tags_request w, Answer resp) in
  let no_model :=
    available = []
    \/ ((exists rest, available = [] :: rest)
        /\ forall x, In x preferred -> ~ In x available) in
  (forall m, select_model available = Some m -> In m available)
  /\ (no_model ->
      extract_with_ollama w transcript s
      = (Ok JNull, to_stderr NoOllamaModels (logged listed s)))
  /\ (~ no_model ->
      exists m,
        m <> [] /\ In m available
        /\ let generate := generate_request (ollama_url w) m transcript in
           log (snd (extract_with_ollama w transcript s))
           = log s ++ [listed; (generate, network w (log s ++ [listed]) generate)]).
Proof.
  intros Hreply Htags Hav listed no_model.
  destruct (select_model_outcome available) as [Hin Hguard].
  split; [exact Hin|]. split.
  - intros Hno. apply Hguard in Hno.
    now apply (ollama_no_model w transcript s resp tags available).
  - intros Hsome.
    destruct (select_model available) as [[|c m]|] eqn:Hsel.
    + exfalso. apply Hsome, Hguard. now right.
    + exists (c :: m). split; [discriminate|]. split; [now apply Hin|].
      apply (ollama_generates w transcript s resp tags available);
        [assumption .. | discriminate].
    + exfalso. apply Hsome, Hguard. now left.
Qed.

Lemma select_model_installed_witness :
  extract_with_ollama unnamed_world (str "a session") (initial_state unnamed_world)
  = (Ok JNull,
     to_stderr NoOllamaModels
       (logged (tags_request unnamed_world,
                Answer {| status_code := 200;
                          content := jtext "{'models': [{'name': ':latest'}, {'name': 'phi3'}]}" |})
          (initial_state unnamed_world))).
Proof.
  destruct (select_model_installed unnamed_world (str "a session")
              (initial_state unnamed_world)
              {| status_code := 200;
                 content := jtext "{'models': [{'name': ':latest'}, {'name': 'phi3'}]}" |}
              (JObj [(str "models",
                      JArr [JObj [(str "name", JStr (str ":latest"))];
                            JObj [(str "name", JStr (str "phi3"))]])])
              [[]; str "phi3"])
    as (_ & Hnone & _).
  - reflexivity.
  - vm_compute. reflexivity.
  - vm_compute. reflexivity.
  - apply Hnone. right. split; [now eexists|].
    intros x Hx Hin. vm_compute in Hx, Hin. intuition congruence.
Defined.

(* ------------------------------------------------------------------ *)
(** ** The providers, whatever the network does *)

(** The Anthropic provider always returns.  With no credential, or an
    empty one, it returns [None] and touches nothing.  Otherwise it sends
    exactly one request, the chat request with the credential and the
    prompt; a failure of the transport, or a status from 400 to 599, gives
    [None] and one line on standard error.  It never prints on standard
    output and never changes the collaborator's address. *)
Theorem anthropic_provider (w : world) (transcript : text) (s : state) :
  exists (l : json) (s' : state),
    extract_with_anthropic w transcript s = (Ok l, s')
    /\ DAEMON_URL s' = DAEMON_URL s
    /\ stdout s' = stdout s
    /\ match environ w (str "ANTHROPIC_API_KEY") with
       | None | Some [] => l = JNull /\ s' = s
       | Some api_key =>
           let req := anthropic_request api_key transcript in
           let a := network w (log s) req in
           log s' = log s ++ [(req, a)]
           /\ match a with
              | Failure e =>
                  l = JNull
                  /\ stderr s' = stderr s ++ [AnthropicError (Error e)]
              | Answer r =>
                  400 <= status_code r < 600 ->
                  l = JNull
                  /\ stderr s' = stderr s ++ [AnthropicError (Error HTTPError)]
              end
       end.
Proof.
  unfold extract_with_anthropic.
  destruct (environ w (str "ANTHROPIC_API_KEY")) as [[|c key]|];
    try (exists JNull, s; repeat split; reflexivity).
  unfold try_except, bind, lift, send, ret, eprint, raise_for_status.
  set (req := anthropic_request (c :: key) transcript).
  destruct (network w (log s) req) as [r|e];
    cbn beta iota delta [is_Exception fst snd].
  2: { eexists _, _. split; [reflexivity|]. settle. repeat split; reflexivity. }
  destruct (Z.leb_spec 400 (status_code r));
    destruct (Z.ltb_spec (status_code r) 600);
    cbn beta iota delta [andb fail is_Exception fst snd].
  1: { eexists _, _. split; [reflexivity|]. settle. repeat split; reflexivity. }
  all: split_cases; eexists _, _; (split; [reflexivity|]); settle;
    repeat split; try reflexivity; intros; lia.
Qed.

Lemma traverse_fails {A B} (f : A -> pure B) (l : list A) (x : A) (e : error) :
  In x l -> f x = Err e -> exists e', traverse f l = Err e'.
Proof.
  intros Hin Hx. induction l as [|y l IH]; [destruct Hin|]. cbn [traverse].
  destruct (f y) as [b|e0] eqn:Ey; [|now eexists].
  destruct Hin as [->|Hin]; [congruence|].
  destruct (IH Hin) as [e' ->]. now eexists.
Qed.

(** The Ollama provider always returns.  Its first request is the listing
    of the models; at most one request follows it; it never prints on
    standard output and never changes the collaborator's address.  When the
    listing fails in transport, or is not JSON, or cannot be read as a list
    of named models, the provider is unavailable after that one request. *)
Theorem ollama_provider (w : world) (transcript : text) (s : state) :
  exists (l : json) (s' : state) (more : list exchange),
    extract_with_ollama w transcript s = (Ok l, s')
    /\ DAEMON_URL s' = DAEMON_URL s
    /\ stdout s' = stdout s
    /\ log s' = log s ++ (tags_request w, network w (log s) (tags_request w)) :: more
    /\ (length more <= 1)%nat
    /\ ((forall r, network w (log s) (tags_request w) = Answer r ->
                   forall tags, resp_json r = Val tags ->
                   exists e, available_models tags = Err e) ->
        l = JNull /\ more = []).
Proof.
  unfold extract_with_ollama, try_except, bind, lift, send, ret, eprint.
  destruct (network w (log s) (tags_request w)) as [r|e] eqn:Hnet;
    cbn beta iota delta [is_Exception fst snd].
  2: { eexists _, _, []. split; [reflexivity|]. settle. repeat split; auto; cbn [length]; lia. }
  destruct (resp_json r) as [tags|e] eqn:Hjson;
    cbn beta iota delta [is_Exception fst snd].
  2: { eexists _, _, []. split; [reflexivity|]. settle. repeat split; auto; cbn [length]; lia. }
  destruct (available_models tags) as [available|e] eqn:Hav;
    cbn beta iota delta [is_Exception fst snd].
  2: { eexists _, _, []. split; [reflexivity|]. settle. repeat split; auto; cbn [length]; lia. }
  assert (Hno : ~ (forall r0, Answer r = Answer r0 ->
                   forall tags0, resp_json r0 = Val tags0 ->
                   exists e, available_models tags0 = Err e)).
  { intros H. destruct (H r eq_refl tags Hjson) as [e He]. congruence. }
  destruct (select_model available) as [[|c selected]|];
    try (eexists _, _, []; split; [reflexivity|]; settle; repeat split; auto; try (cbn [length]; lia); contradiction).
  cbn beta iota delta [is_Exception fst snd to_stderr logged log].
  destruct (network w _ (generate_request (ollama_url w) (c :: selected) transcript))
    as [r2|e2]; cbn beta iota delta [is_Exception fst snd].
  2: { eexists _, _, [_]. split; [reflexivity|]. settle.
       repeat split; auto; try (cbn [length]; lia); contradiction. }
  split_cases; eexists _, _, [_]; (split; [reflexivity|]); settle;
    repeat split; auto; try (cbn [length]; lia); contradiction.
Qed.

(** One bad entry spoils the listing: when any listed model has no name, or
    a name that is not a string, the provider is unavailable after the
    listing, whatever else is installed. *)
Theorem ollama_listing_bad_entry (w : world) (transcript : text) (s : state)
    (r : response) (tags : json) (models : list json) (m : json) (e : error) :
  network w (log s) (tags_request w) = Answer r ->
  resp_json r = Val tags ->
  get tags (str "models") (JArr []) = Val (JArr models) ->
  In m models ->
  model_base m = Err e ->
  exists e',
    extract_with_ollama w transcript s
    = (Ok JNull,
       to_stderr (OllamaError (Error e')) (logged (tags_request w, Answer r) s)).
Proof.
  intros Hnet Hjson Hget Hin Hbad.
  destruct (traverse_fails model_base models m e Hin Hbad) as [e' Htr].
  exists e'.
  unfold extract_with_ollama, try_except, bind, lift, send, ret, eprint.
  rewrite Hnet, Hjson. unfold available_models. rewrite Hget.
  cbn [iter]. rewrite Htr. reflexivity.
Qed.

Lemma ollama_listing_bad_entry_witness :
  fst (extract_with_ollama
         (ollama_world (jtext "{'models': [{'name': 'llama3:latest'}, {'model': 'x'}]}"))
         [] (initial_state (ollama_world [])))
  = Ok JNull.
Proof.
  destruct (ollama_listing_bad_entry
              (ollama_world (jtext "{'models': [{'name': 'llama3:latest'}, {'model': 'x'}]}"))
              [] (initial_state (ollama_world []))
              {| status_code := 200;
                 content := jtext "{'models': [{'name': 'llama3:latest'}, {'model': 'x'}]}" |}
              (JObj [(str "models",
                      JArr [JObj [(str "name", JStr (str "llama3:latest"))];
                            JObj [(str "model", JStr (str "x"))]])])
              [JObj [(str "name", JStr (str "llama3:latest"))];
               JObj [(str "model", JStr (str "x"))]]
              (JObj [(str "model", JStr (str "x"))])
              KeyError) as [e' H].
  - vm_compute. reflexivity.
  - vm_compute. reflexivity.
  - vm_compute. reflexivity.
  - right. left. reflexivity.
  - vm_compute. reflexivity.
  - rewrite H. reflexivity.
Defined.

(* ------------------------------------------------------------------ *)
(** ** Candidates that are not records *)

Lemma for_each_app {S A} (l1 l2 : list A) (body : A -> M S unit) (s : S) :
  for_each (l1 ++ l2) body s
  = match for_each l1 body s with
    | (Ok _, s1) => for_each l2 body s1
    | (Raised x, s1) => (Raised x, s1)
    end.
Proof.
  revert s. induction l1 as [|x l1 IH]; intros s; [reflexivity|].
  cbn [app for_each]. unfold bind.
  destruct (body x s) as [[[]|e] s1]; [apply IH | reflexivity].
Qed.

(** A candidate that is not a JSON object stops [store_learnings] with an
    [AttributeError] that nothing catches: the records before it have been
    submitted, those after it are not. *)
Theorem store_learnings_non_object (w : world) (session_id : text)
    (ds : list dict) (v : json) (rest : list json) (s : state) :
  (forall d, v <> JObj d) ->
  exists (new : list exchange) (s' : state),
    store_learnings w (JArr (map JObj ds ++ v :: rest)) session_id s
    = (Raised (Error AttributeError), s')
    /\ log s' = log s ++ new
    /\ map fst new
       = map (store_request (DAEMON_URL s) session_id) (filter eligible ds).
Proof.
  intros Hv.
  destruct (store_loop w session_id ds 0%nat s)
    as (new & s' & Hrun & _ & Hlog & _ & Hreq & _).
  exists new, s'. split; [|auto].
  unfold store_learnings, with_locals, bind, lift, ret, iter. cbn beta iota.
  rewrite for_each_app, Hrun. cbn [for_each]. unfold bind at 1.
  assert (Hone : forall ls, store_one w session_id v ls
                            = (Raised (Error AttributeError), ls)).
  { intros ls. unfold store_one, bind, lift, get.
    destruct v; try reflexivity. exfalso. now apply (Hv fields). }
  rewrite Hone. reflexivity.
Qed.

Lemma store_learnings_non_object_witness :
  fst (store_learnings offline_world
         (JArr (map JObj [gotcha_record] ++ JStr (str "a note") :: []))
         (str "abc") (initial_state offline_world))
  = Raised (Error AttributeError).
Proof.
  destruct (store_learnings_non_object offline_world (str "abc") [gotcha_record]
              (JStr (str "a note")) [] (initial_state offline_world))
    as (new & s' & H & _).
  - discriminate.
  - rewrite H. reflexivity.
Defined.

(* ------------------------------------------------------------------ *)
(** ** The healthy path *)

(** With a healthy collaborator [main] probes it once, submits the eligible
    records in order, prints nothing on standard output and returns (exit
    status 0).  Its last line reports the number of [stored] answers out of
    the number of all extracted candidates, those it did not submit
    included. *)
Theorem healthy_report (w : world) (session_id : text) (ds : list dict)
    (s : state) (r : response) :
  ds <> [] ->
  network w (log s) (health_probe (DAEMON_URL s)) = Answer r ->
  status_code r = 200 ->
  exists (new : list exchange) (errs : list message) (s' : state),
    deliver w (JArr (map JObj ds)) session_id s = (Ok tt, s')
    /\ log s' = log s ++ (health_probe (DAEMON_URL s), Answer r) :: new
    /\ map fst new
       = map (store_request (DAEMON_URL s) session_id) (filter eligible ds)
    /\ stdout s' = stdout s
    /\ stderr s'
       = stderr s ++ Extracted (len ds) :: errs
           ++ [StoredOf (length (filter (fun x => says "stored" (snd x)) new))
                        (len ds)].
Proof.
  intros Hne Hnet H200.
  set (s1 := logged (health_probe (DAEMON_URL s), Answer r)
               (to_stderr (Extracted (len ds)) s)).
  destruct (store_learnings_run w session_id ds s1)
    as (new & s2 & Hrun & Hu & Hlog & Hout & Hreq & _).
  pose proof (store_learnings_keeps w (JArr (map JObj ds)) session_id s1) as K.
  rewrite Hrun in K. destruct K as (n' & o' & errs & _ & _ & _ & _ & _ & Herr).
  unfold id in Herr. cbn [snd] in Herr.
  exists new, errs, (to_stderr (StoredOf (length (filter (fun x => says "stored" (snd x)) new))
                                         (len ds)) s2).
  split.
  - assert (Htruthy : truthy (JArr (map JObj ds)) = true)
      by (destruct ds; [contradiction | reflexivity]).
    assert (Hlen : len_of (JArr (map JObj ds)) = Val (len ds))
      by (unfold len_of, len; now rewrite length_map).
    unfold deliver. cbn [is_None]. rewrite Htruthy. cbn [negb].
    unfold bind at 1, lift. rewrite Hlen.
    unfold bind at 1, eprint.
    unfold bind at 1, health_check, try_except, bind, daemon_url, requests_get, send.
    cbn [to_stderr log DAEMON_URL]. fold (health_probe (DAEMON_URL s)).
    rewrite Hnet, H200. cbn [Z.eqb Pos.eqb negb ret].
    fold s1. rewrite Hrun. reflexivity.
  - cbn [to_stderr log stdout stderr]. rewrite Hlog, Hreq, Hout, Herr.
    unfold s1. cbn [logged to_stderr log stdout stderr DAEMON_URL].
    rewrite <- !app_assoc. cbn [app]. repeat split; reflexivity.
Qed.

Lemma healthy_report_witness :
  fst (deliver remote_world (JArr (map JObj [gotcha_record; blank_record]))
         (str "abc") (initial_state remote_world))
  = Ok tt.
Proof.
  destruct (healthy_report remote_world (str "abc") [gotcha_record; blank_record]
              (initial_state remote_world)
              {| status_code := 200; content := [] |})
    as (new & errs & s' & H & _).
  - discriminate.
  - reflexivity.
  - reflexivity.
  - rewrite H. reflexivity.
Defined.

(* ------------------------------------------------------------------ *)
(** ** What the degradation path prints *)

(** When the collaborator cannot be reached the list is printed once, after
    the line [DaemonNotReachable].  When it answers the probe with a status
    other than 200, the exit of the [try] block is caught by the bare
    [except:] clause: both lines are printed, [DaemonNotHealthy] and then
    [DaemonNotReachable], and the list is printed twice. *)
Theorem degraded_output (w : world) (session_id : text) (x : json)
    (xs : list json) (s : state) :
  let l := JArr (x :: xs) in
  let base := DAEMON_URL s in
  let probe := health_probe base in
  let a := network w (log s) probe in
  let s1 := logged (probe, a) (to_stderr (Extracted (len (x :: xs))) s) in
  (forall e, a = Failure e ->
     deliver w l session_id s
     = (Raised (SystemExit 1),
        to_stdout (JsonDump l) (to_stderr (DaemonNotReachable base) s1)))
  /\ (forall r, a = Answer r -> status_code r <> 200 ->
        deliver w l session_id s
        = (Raised (SystemExit 1),
           to_stdout (JsonDump l)
             (to_stderr (DaemonNotReachable base)
                (to_stdout (JsonDump l)
                   (to_stderr (DaemonNotHealthy base) s1))))).
Proof.
  intros l base probe a s1. unfold s1, a, probe, base, l.
  split.
  - intros e He.
    unfold deliver, health_check, requests_get, send, bind, lift, try_except,
      daemon_url, eprint, print, sys_exit, raise.
    cbn [is_None truthy negb len_of to_stderr log DAEMON_URL].
    fold (health_probe (DAEMON_URL s)). rewrite He. reflexivity.
  - intros r Hr H200.
    unfold deliver, health_check, requests_get, send, bind, lift, try_except,
      daemon_url, eprint, print, sys_exit, raise.
    cbn [is_None truthy negb len_of to_stderr log DAEMON_URL].
    fold (health_probe (DAEMON_URL s)). rewrite Hr.
    destruct (Z.eqb_spec (status_code r) 200); [contradiction|].
    reflexivity.
Qed.

Lemma degraded_output_witness :
  stdout (snd (deliver (local_world (str "[1]") unavailable) (JArr [JInt 1]) []
                 (initial_state (local_world (str "[1]") unavailable))))
  = [JsonDump (JArr [JInt 1]); JsonDump (JArr [JInt 1])]
  /\ stdout (snd (deliver (local_world (str "[1]") unreachable) (JArr [JInt 1]) []
                    (initial_state (local_world (str "[1]") unreachable))))
     = [JsonDump (JArr [JInt 1])].
Proof.
  split.
  - destruct (degraded_output (local_world (str "[1]") unavailable) [] (JInt 1) []
                (initial_state (local_world (str "[1]") unavailable))) as [_ H].
    rewrite (H {| status_code := 503; content := [] |} eq_refl ltac:(discriminate)).
    reflexivity.
  - destruct (degraded_output (local_world (str "[1]") unreachable) [] (JInt 1) []
                (initial_state (local_world (str "[1]") unreachable))) as [H _].
    rewrite (H ConnectionError eq_refl). reflexivity.
Defined.

(* ------------------------------------------------------------------ *)
(** ** The session of a submitted record *)

Lemma dict_lookup_set_same (k : text) (v : json) (d : dict) :
  dict_lookup k (dict_set k v d) = Some v.
Proof.
  induction d as [|[k0 v0] d IH]; cbn [dict_set dict_lookup].
  - now rewrite text_eqb_refl.
  - destruct (text_eqb k k0) eqn:E; cbn [dict_lookup]; rewrite E; [reflexivity | exact IH].
Qed.

Lemma map_eq_Forall {A B C} (f : A -> B) (g : C -> B) (l : list A) :
  forall l' : list C, map f l = map g l' ->
                      Forall (fun x => exists y, In y l' /\ f x = g y) l.
Proof.
  induction l as [|x l IH]; intros [|y l'] H; try discriminate H; constructor.
  - exists y. split; [now left | now injection H].
  - injection H as _ H. apply IH in H.
    eapply Forall_impl; [|exact H]. intros a (z & Hz & E). exists z. split; [now right | exact E].
Qed.

(** Every record [store_learnings] submits carries the session of the
    transcript as its [session_source], also when the candidate came with
    a [session_source] of its own. *)
Theorem session_source_attached (w : world) (session_id : text)
    (ds : list dict) (s : state) :
  exists new : list exchange,
    log (snd (store_learnings w (JArr (map JObj ds)) session_id s)) = log s ++ new
    /\ Forall (fun x => exists d,
                   payload (fst x) = Some (JObj d)
                   /\ dict_lookup (str "session_source") d = Some (JStr session_id))
              new.
Proof.
  destruct (store_learnings_run w session_id ds s)
    as (new & s' & Hrun & _ & Hlog & _ & Hreq & _).
  exists new. rewrite Hrun. split; [exact Hlog|].
  apply map_eq_Forall in Hreq.
  eapply Forall_impl; [|exact Hreq]. intros x (d & _ & E).
  exists (dict_set (str "session_source") (JStr session_id) d).
  rewrite E. split; [reflexivity | apply dict_lookup_set_same].
Qed.

(* ------------------------------------------------------------------ *)
(** ** The session of a transcript *)

Section PathFacts.
Variable c : ascii.

Lemma split_char_last (p : text) :
  ~ In c p -> forall cur, split_aux [c] 0 cur p = [rev cur ++ p].
Proof.
  induction p as [|y p IH]; intros Hp cur.
  - cbn. now rewrite app_nil_r.
  - cbn [split_aux]. rewrite startswith_char.
    destruct (Ascii.eqb_spec c y) as [->|Hne]; [exfalso; apply Hp; now left|].
    rewrite IH by (intros H; apply Hp; now right).
    cbn [rev]. now rewrite <- app_assoc.
Qed.

Lemma split_char_piece (p r : text) :
  ~ In c p ->
  forall cur, split_aux [c] 0 cur (p ++ c :: r)
              = (rev cur ++ p) :: split_aux [c] 0 [] r.
Proof.
  induction p as [|y p IH]; intros Hp cur.
  - cbn [app split_aux]. rewrite startswith_char, Ascii.eqb_refl.
    cbn [length Nat.sub]. now rewrite app_nil_r.
  - change ((y :: p) ++ c :: r) with (y :: p ++ c :: r).
    cbn [split_aux]. rewrite startswith_char.
    destruct (Ascii.eqb_spec c y) as [->|Hne]; [exfalso; apply Hp; now left|].
    rewrite IH by (intros H; apply Hp; now right).
    cbn [rev]. now rewrite <- app_assoc.
Qed.
End PathFacts.

Lemma split_join_path (x : text) (cs : list text) :
  Forall component (x :: cs) ->
  split (str "/") (join_path (x :: cs)) = x :: cs.
Proof.
  unfold split, str. cbn [list_ascii_of_string].
  revert x. induction cs as [|y cs IH]; intros x H.
  - inversion H as [|? ? (_ & _ & Hx) _]. cbn [join_path].
    now rewrite split_char_last.
  - inversion H as [|? ? (_ & _ & Hx) Hrest]. subst.
    change (join_path (x :: y :: cs)) with (x ++ "/"%char :: join_path (y :: cs)).
    rewrite split_char_piece by exact Hx. cbn [rev app].
    now rewrite IH.
Qed.

Lemma path_parts_join (root : text) (cs : list text) :
  root = [] \/ root = str "/" ->
  Forall component cs ->
  path_parts (root ++ join_path cs) = cs.
Proof.
  intros Hroot H.
  assert (Hkeep : forall l, Forall component l ->
            filter (fun p => negb (text_eqb p [] || text_eqb p (str "."))) l = l).
  { induction l as [|p l IH]; intros Hl; [reflexivity|].
    inversion Hl as [|? ? (Hne & Hdot & _) Hl']. subst. cbn [filter].
    destruct (text_eqb p []) eqn:E1; [apply text_eqb_eq in E1; contradiction|].
    destruct (text_eqb p (str ".")) eqn:E2; [apply text_eqb_eq in E2; contradiction|].
    cbn [orb negb]. now rewrite IH. }
  unfold path_parts.
  destruct cs as [|x cs].
  - destruct Hroot as [-> | ->]; reflexivity.
  - destruct Hroot as [-> | ->].
    + cbn [app]. rewrite split_join_path by exact H. now apply Hkeep.
    + assert (Hslash : forall t, split (str "/") (str "/" ++ t)
                                 = [] :: split (str "/") t) by reflexivity.
      rewrite Hslash, split_join_path by exact H.
      match goal with
      | |- context [filter ?f ([] :: ?l)] =>
          change (filter f ([] :: l)) with (filter f l)
      end.
      now apply Hkeep.
Qed.

(** The name of the transcript is the last component of its path, and the
    session is the component before it; a transcript named without a
    directory has the empty session.  A leading slash changes neither. *)
Theorem session_of_path (root : text) (cs : list text) :
  root = [] \/ root = str "/" ->
  Forall component cs ->
  path_name (root ++ join_path cs) = last cs []
  /\ parent_name (root ++ join_path cs) = last (removelast cs) []
  /\ (length cs <= 1 -> parent_name (root ++ join_path cs) = [])%nat.
Proof.
  intros Hroot H. unfold path_name, parent_name.
  rewrite path_parts_join by assumption.
  repeat split. intros Hlen.
  destruct cs as [|x [|y cs]]; [reflexivity | reflexivity | cbn in Hlen; lia].
Qed.

Lemma session_of_path_witness :
  parent_name (str "/" ++ join_path [str "home"; str "sessions"; str "abc"; str "t.md"])
  = str "abc"
  /\ parent_name ([] ++ join_path [str "t.md"]) = [].
Proof.
  split.
  - destruct (session_of_path (str "/") [str "home"; str "sessions"; str "abc"; str "t.md"])
      as (_ & H & _).
    + right. reflexivity.
    + repeat constructor; try discriminate; cbn; intuition discriminate.
    + exact H.
  - destruct (session_of_path [] [str "t.md"]) as (_ & _ & H).
    + left. reflexivity.
    + repeat constructor; try discriminate; cbn; intuition discriminate.
    + apply H. cbn. lia.
Defined.

(* ------------------------------------------------------------------ *)
(** ** The address of the collaborator *)

Section ArgvFacts.
Variable flag : text.

Lemma index_first (pre rest : list text) :
  ~ In flag pre -> index flag (pre ++ flag :: rest) = len pre.
Proof.
  induction pre as [|a pre IH]; intros Hpre.
  - cbn. now rewrite text_eqb_refl.
  - cbn [app index]. destruct (text_eqb a flag) eqn:E.
    + apply text_eqb_eq in E. exfalso. apply Hpre. now left.
    + rewrite IH by (intros H; apply Hpre; now right).
      unfold len. cbn [length]. lia.
Qed.

Lemma flag_given (argv : list text) :
  existsb (fun a => text_eqb a flag) argv = true <-> In flag argv.
Proof.
  rewrite existsb_exists. split.
  - intros (a & Ha & E). apply text_eqb_eq in E. now subst.
  - intros H. exists flag. split; [exact H | apply text_eqb_refl].
Qed.
End ArgvFacts.

(** The option [--daemon-url u] sets the address the learnings are
    delivered to; its first occurrence counts.  Given as the last argument,
    without a value, it is ignored; so the address stays what it was when
    the option is absent.  The providers do not change the address. *)
Theorem daemon_url_option (w : world) (argv : list text) (contents : text)
    (s : state) :
  2 <= len argv ->
  files w (nth 1 argv []) = Some contents ->
  let flag := str "--daemon-url" in
  exists s0 : state,
    main w argv s
    = bind (extract w (truncate contents))
           (fun l => deliver w l (parent_name (nth 1 argv []))) s0
    /\ log s0 = log s
    /\ (forall pre u post,
           argv = pre ++ flag :: u :: post -> ~ In flag pre -> DAEMON_URL s0 = u)
    /\ (forall pre,
           argv = pre ++ [flag] -> ~ In flag pre -> DAEMON_URL s0 = DAEMON_URL s)
    /\ (~ In flag argv -> DAEMON_URL s0 = DAEMON_URL s)
    /\ (forall l s1,
           extract w (truncate contents) s0 = (Ok l, s1) ->
           DAEMON_URL s1 = DAEMON_URL s0).
Proof.
  intros Hargv Hfile flag. exists (start_state argv s).
  split; [now apply main_pipeline|].
  split; [apply start_state_log|].
  unfold start_state. fold flag. cbn [to_stderr DAEMON_URL].
  split; [|split; [|split]].
  - intros pre u post -> Hpre.
    rewrite (proj2 (flag_given flag _)) by (apply in_or_app; right; now left).
    rewrite index_first by exact Hpre.
    assert (Hlen : len pre + 1 < len (pre ++ flag :: u :: post))
      by (unfold len; rewrite length_app; cbn [length]; lia).
    destruct (Z.ltb_spec (len pre + 1) (len (pre ++ flag :: u :: post))); [|lia].
    cbn [with_daemon_url DAEMON_URL].
    replace (Z.to_nat (len pre + 1)) with (length pre + 1)%nat by (unfold len; lia).
    rewrite app_nth2_plus. reflexivity.
  - intros pre -> Hpre.
    rewrite (proj2 (flag_given flag _)) by (apply in_or_app; right; now left).
    rewrite index_first by exact Hpre.
    destruct (Z.ltb_spec (len pre + 1) (len (pre ++ [flag]))); [|reflexivity].
    unfold len in *. rewrite length_app in *. cbn [length] in *. lia.
  - intros Hno.
    destruct (existsb (fun a => text_eqb a flag) argv) eqn:E; [|reflexivity].
    apply flag_given in E. contradiction.
  - intros l s1 Hext.
    pose proof (extract_keeps w (truncate contents)
                  (to_stderr (Extracting (path_name (nth 1 argv [])))
                     (if existsb (fun a => text_eqb a flag) argv
                      then if index flag argv + 1 <? len argv
                           then with_daemon_url (nth (Z.to_nat (index flag argv + 1)) argv []) s
                           else s
                      else s))) as K.
    unfold start_state in Hext. fold flag in Hext. rewrite Hext in K.
    destruct K as (n & o & e & _ & _ & Hu & _). exact Hu.
Qed.

Lemma daemon_url_option_witness :
  exists s0 : state,
    main offline_world
      [str "extract.py"; str "t.md"; str "--daemon-url"; str "http://host:9000"]
      (initial_state offline_world)
    = bind (extract offline_world (truncate (str "a session")))
           (fun l => deliver offline_world l (parent_name (str "t.md"))) s0
    /\ DAEMON_URL s0 = str "http://host:9000".
Proof.
  destruct (daemon_url_option offline_world
              [str "extract.py"; str "t.md"; str "--daemon-url"; str "http://host:9000"]
              (str "a session") (initial_state offline_world))
    as (s0 & Hmain & _ & Hset & _).
  - vm_compute. discriminate.
  - reflexivity.
  - exists s0. split; [exact Hmain|].
    apply (Hset [str "extract.py"; str "t.md"] (str "http://host:9000") []).
    + reflexivity.
    + intros [E|[E|[]]]; discriminate E.
Defined.

(* ------------------------------------------------------------------ *)
(** ** Standard output *)

Lemma keeps_weaken {S A} (proj : S -> state) (P P' : exchange -> Prop)
    (Q Q' : message -> Prop) (m : M S A) :
  (forall x, P x -> P' x) -> (forall x, Q x -> Q' x) ->
  keeps proj P Q m -> keeps proj P' Q' m.
Proof.
  intros HP HQ K s. destruct (K s) as (n & o & e & Hn & Ho & G).
  exists n, o, e. split; [|split; [|exact G]].
  - eapply Forall_impl; [|exact Hn]. exact HP.
  - eapply Forall_impl; [|exact Ho]. exact HQ.
Qed.

Lemma deliver_dumps (w : world) (l : json) (session_id : text) :
  keeps id anything_goes is_dump (deliver w l session_id).
Proof.
  unfold deliver.
  destruct (is_None l); [keep|]. destruct (negb (truthy l)); [keep|].
  apply keeps_bind; [keep|]. intros n.
  apply keeps_bind; [keep|]. intros _.
  apply keeps_bind.
  - unfold health_check, requests_get.
    apply keeps_try; [|intros x].
    + apply keeps_bind; [keep|]. intros base.
      apply keeps_bind; [apply keeps_send; intros ?; exact I|]. intros resp.
      destruct (negb (status_code resp =? 200)); [|keep].
      apply keeps_bind; [keep|]. intros _.
      apply keeps_bind; [apply keeps_print; now eexists | intros _; keep].
    + apply keeps_bind; [keep|]. intros base.
      apply keeps_bind; [keep|]. intros _.
      apply keeps_bind; [apply keeps_print; now eexists | intros _; keep].
  - intros _. apply keeps_bind.
    + eapply keeps_weaken; [| |apply store_learnings_keeps]; [auto | intros x []].
    + intros stored. apply keeps_bind; [keep|]. intros n'. keep.
Qed.

(** Whatever its arguments and whatever the world does, the extractor
    writes nothing to standard output but JSON dumps: every line of
    progress or diagnosis goes to standard error. *)
Theorem stdout_only_dumps (w : world) (argv : list text) (s : state) :
  exists outs : list message,
    stdout (snd (main w argv s)) = stdout s ++ outs
    /\ Forall is_dump outs.
Proof.
  unfold main.
  destruct (len argv <? 2).
  { exists []. split; [now rewrite app_nil_r | constructor]. }
  destruct (files w (nth 1 argv [])) as [contents|].
  2: { exists []. split; [now rewrite app_nil_r | constructor]. }
  unfold bind at 1.
  set (s1 := snd ((if existsb (fun a => text_eqb a (str "--daemon-url")) argv
                   then if index (str "--daemon-url") argv + 1 <? len argv
                        then set_daemon_url
                               (nth (Z.to_nat (index (str "--daemon-url") argv + 1)) argv [])
                        else ret tt
                   else ret tt) s)).
  assert (Hs1 : stdout s1 = stdout s).
  { unfold s1. destruct (existsb _ argv); [destruct (_ <? _)|]; reflexivity. }
  assert (Hrun : (if existsb (fun a => text_eqb a (str "--daemon-url")) argv
                  then if index (str "--daemon-url") argv + 1 <? len argv
                       then set_daemon_url
                              (nth (Z.to_nat (index (str "--daemon-url") argv + 1)) argv [])
                       else ret tt
                  else ret tt) s = (Ok tt, s1)).
  { unfold s1. destruct (existsb _ argv); [destruct (_ <? _)|]; reflexivity. }
  rewrite Hrun.
  assert (K : keeps id anything_goes is_dump
                (bind (eprint (Extracting (path_name (nth 1 argv []))))
                   (fun _ => bind (extract w (truncate contents))
                               (fun l => deliver w l (parent_name (nth 1 argv [])))))).
  { apply keeps_bind; [keep|]. intros _. apply keeps_bind.
    - eapply keeps_weaken; [| |apply extract_keeps]; [intros; exact I | intros x []].
    - intros l. apply deliver_dumps. }
  destruct (K s1) as (n & outs & e & _ & Houts & _ & _ & Hout & _).
  exists outs. unfold id in Hout. rewrite <- Hs1. split; [exact Hout | exact Houts].
Qed.

(* ------------------------------------------------------------------ *)
(** ** The bulk importer, whatever the collaborator does *)

(** When the health probe does not come back with status 200, the importer
    exits with status 1 after that one request: it reads no line and
    submits nothing.  It says [NotHealthy] for another status and
    [CannotConnect] for a refused connection; any other failure of the
    probe, a read timeout for one, is not caught and ends the run without a
    line. *)
Theorem importer_unhealthy (w : world) (argv : list text) (contents : text)
    (s : state) :
  2 <= len argv ->
  files w (nth 1 argv []) = Some contents ->
  let probe := health_probe Importer.DAEMON_URL in
  let a := network w (log s) probe in
  unhealthy a ->
  exists s' : state,
    snd (Importer.main w argv s) = s'
    /\ exit_status (fst (Importer.main w argv s)) = 1
    /\ log s' = log s ++ [(probe, a)]
    /\ stderr s' = stderr s
    /\ stdout s'
       = stdout s ++ match a with
                     | Answer _ => [NotHealthy]
                     | Failure ConnectionError => [CannotConnect]
                     | Failure _ => []
                     end.
Proof.
  intros Hargv Hfile probe a Ha. eexists. split; [reflexivity|].
  unfold Importer.main.
  destruct (Z.ltb_spec (len argv) 2); [lia|]. rewrite Hfile.
  unfold bind at 1, Importer.health_check, try_except, bind, requests_get, send,
    print, sys_exit, raise.
  fold (health_probe Importer.DAEMON_URL). fold probe. fold a.
  destruct a as [r|e]; cbn [unhealthy] in Ha.
  - destruct (Z.eqb_spec (status_code r) 200); [contradiction|].
    cbn [negb is_ConnectionError fst snd exit_status]. settle.
    repeat split; reflexivity.
  - destruct e; cbn [is_ConnectionError fst snd exit_status]; settle;
      rewrite ?app_nil_r; repeat split; reflexivity.
Qed.

Lemma importer_unhealthy_witness :
  exit_status (fst (Importer.main offline_world example_argv Importer.initial_state)) = 1
  /\ stdout (snd (Importer.main offline_world example_argv Importer.initial_state))
     = [CannotConnect].
Proof.
  destruct (importer_unhealthy offline_world example_argv (str "a session")
              Importer.initial_state) as (s' & Hs & Hexit & _ & _ & Hout).
  - vm_compute. discriminate.
  - reflexivity.
  - exact I.
  - split; [exact Hexit|]. rewrite Hs. exact Hout.
Defined.

(** A line that decodes to [null], a boolean or a number ends the import:
    the test for the required keys raises a [TypeError] that nothing
    catches.  The lines before it have been handled, those after it are
    never read, and the counters are what they were. *)
Theorem import_scalar_line_aborts (w : world)
    (before after : list (nat * text)) (line_num : nat) (line : text)
    (v : json) (c c1 : Importer.counters) (s s1 : state) :
  json_loads (strip line) = Some v ->
  scalar v ->
  for_each before (Importer.import_line w) (c, s) = (Ok tt, (c1, s1)) ->
  for_each (before ++ (line_num, line) :: after) (Importer.import_line w) (c, s)
  = (Raised (Error TypeError), (c1, s1)).
Proof.
  intros Hv Hs Hbefore. rewrite for_each_app, Hbefore. cbn [for_each].
  unfold bind at 1, Importer.import_line.
  pose proof (json_loads_nonempty _ _ Hv) as Hne.
  destruct (strip line) as [|x rest]; [contradiction|]. rewrite Hv.
  destruct v; cbn [scalar] in Hs; try contradiction; reflexivity.
Qed.

Lemma import_scalar_line_aborts_witness :
  for_each ([] ++ (1%nat, str "42") :: [(2%nat, jtext "{'type': 'GOTCHA', 'content': 'x'}")])
    (Importer.import_line offline_world) (Importer.no_counts, Importer.initial_state)
  = (Raised (Error TypeError), (Importer.no_counts, Importer.initial_state)).
Proof.
  apply (import_scalar_line_aborts offline_world [] _ 1%nat (str "42") (JInt 42)).
  - vm_compute. reflexivity.
  - exact I.
  - reflexivity.
Defined.

(** One line can count twice.  An answer [duplicate] without a similarity
    score is counted as a duplicate and, the report failing with a
    [KeyError], as an error; an answer [stored] for a record whose content
    cannot be sliced is counted as imported and as an error. *)
Theorem import_counts_twice (w : world) (line_num : nat) (d : dict)
    (c : Importer.counters) (s : state) (r : response) (fields : dict) :
  network w (log s) (import_request (JObj d)) = Answer r ->
  resp_json r = Val (JObj fields) ->
  (dict_lookup (str "status") fields = Some (JStr (str "duplicate")) ->
   dict_lookup (str "similarity") fields = None ->
   Importer.submit w line_num (JObj d) (c, s)
   = (Ok tt,
      (Importer.count_error (Importer.count_duplicate c),
       to_stdout (RequestFailed line_num (Error KeyError))
         (logged (import_request (JObj d), Answer r) s))))
  /\ (dict_lookup (str "status") fields = Some (JStr (str "stored")) ->
      forall type content,
        dict_lookup (str "type") d = Some type ->
        dict_lookup (str "content") d = Some content ->
        scalar content ->
        Importer.submit w line_num (JObj d) (c, s)
        = (Ok tt,
           (Importer.count_error (Importer.count_imported c),
            to_stdout (RequestFailed line_num (Error TypeError))
              (logged (import_request (JObj d), Answer r) s)))).
Proof.
  intros Hnet Hr. split.
  - intros Hst Hsim.
    unfold Importer.submit, bind, lift, ret, try_except, global, requests_post,
      send, update_locals, print.
    cbn [fst snd]. fold (import_request (JObj d)). rewrite Hnet, Hr.
    cbn [get item fst snd]. rewrite Hst, Hsim.
    cbn [eq_str]. change (text_eqb (str "duplicate") (str "stored")) with false.
    rewrite text_eqb_refl. reflexivity.
  - intros Hst type content Ht Hc Hsc.
    unfold Importer.submit, bind, lift, ret, try_except, global, requests_post,
      send, update_locals, print.
    cbn [fst snd]. fold (import_request (JObj d)). rewrite Hnet, Hr.
    cbn [get item fst snd]. rewrite Hst, Ht, Hc.
    cbn [eq_str]. rewrite text_eqb_refl. cbn iota.
    destruct content; cbn [scalar] in Hsc; try contradiction; reflexivity.
Qed.

Lemma import_counts_twice_witness :
  fst (snd (Importer.submit (status_world "duplicate") 1 (JObj gotcha_record)
              (Importer.no_counts, Importer.initial_state)))
  = {| Importer.imported := 0; Importer.duplicates := 1; Importer.errors := 1 |}
  /\ fst (snd (Importer.submit (status_world "stored") 1 (JObj numeric_record)
                 (Importer.no_counts, Importer.initial_state)))
     = {| Importer.imported := 1; Importer.duplicates := 0; Importer.errors := 1 |}.
Proof.
  split.
  - destruct (import_counts_twice (status_world "duplicate") 1 gotcha_record
                Importer.no_counts Importer.initial_state
                {| status_code := 200; content := jtext "{'status': 'duplicate'}" |}
                [(str "status", JStr (str "duplicate"))]) as [Hdup _].
    + reflexivity.
    + vm_compute. reflexivity.
    + rewrite Hdup; reflexivity.
  - destruct (import_counts_twice (status_world "stored") 1 numeric_record
                Importer.no_counts Importer.initial_state
                {| status_code := 200; content := jtext "{'status': 'stored'}" |}
                [(str "status", JStr (str "stored"))]) as [_ Hstored].
    + reflexivity.
    + vm_compute. reflexivity.
    + rewrite (Hstored eq_refl (JStr (str "GOTCHA")) (JInt 7) eq_refl eq_refl I).
      reflexivity.
Defined.

Section ImporterTally.
Variable w : world.

Lemma stored_not_duplicate (v : json) :
  eq_str v (str "stored") = true -> eq_str v (str "duplicate") = false.
Proof.
  destruct v; cbn [eq_str]; try discriminate.
  intros H. apply text_eqb_eq in H. now subst.
Qed.

(** What one submission of the importer does to the counters and to the
    output. *)
Lemma submit_tally (line_num : nat) (learning : json) (c : Importer.counters)
    (s : state) :
  let x := (import_request learning, network w (log s) (import_request learning)) in
  exists c' s' line,
    Importer.submit w line_num learning (c, s) = (Ok tt, (c', s'))
    /\ log s' = log s ++ [x]
    /\ stdout s' = stdout s ++ [line]
    /\ stderr s' = stderr s
    /\ Importer.imported c' = (Importer.imported c + count_says "stored" [x])%nat
    /\ Importer.duplicates c' = (Importer.duplicates c + count_says "duplicate" [x])%nat
    /\ (Importer.errors c <= Importer.errors c' <= S (Importer.errors c))%nat
    /\ (Importer.imported c + Importer.duplicates c + Importer.errors c
        < Importer.imported c' + Importer.duplicates c' + Importer.errors c')%nat.
Proof.
  intros x. subst x.
  unfold Importer.submit, bind, lift, ret, try_except, global, requests_post,
    send, update_locals, print, count_says, says, replied_status.
  cbn [fst snd filter]. fold (import_request learning).
  destruct (network w (log s) (import_request learning)) as [r|e];
    cbn beta iota delta [is_Exception fst snd length].
  2: { do 3 eexists. split; [reflexivity|].
       cbn [Importer.count_error Importer.imported Importer.duplicates Importer.errors].
       repeat split; settle; cbn [length]; try lia. }
  destruct (resp_json r) as [[| | | | |l|fields]|err];
    cbn beta iota delta [get is_Exception fst snd length].
  1-6, 8: do 3 eexists; (split; [reflexivity|]);
       cbn [Importer.count_error Importer.imported Importer.duplicates Importer.errors];
       repeat split; settle; cbn [length]; try lia.
  destruct (dict_lookup (str "status") fields) as [v|].
  2: { cbn [eq_str]. do 3 eexists. split; [reflexivity|].
       cbn [Importer.count_error Importer.imported Importer.duplicates Importer.errors length].
       repeat split; settle; cbn [length]; try lia. }
  destruct (eq_str v (str "stored")) eqn:Hs.
  - rewrite (stored_not_duplicate v Hs).
    split_cases; do 3 eexists; (split; [reflexivity|]);
      cbn [Importer.count_error Importer.count_imported Importer.imported
           Importer.duplicates Importer.errors length];
      repeat split; settle; cbn [length]; try lia.
  - destruct (eq_str v (str "duplicate")) eqn:Hd.
    + split_cases; do 3 eexists; (split; [reflexivity|]);
        cbn [Importer.count_error Importer.count_duplicate Importer.imported
             Importer.duplicates Importer.errors length];
        repeat split; settle; cbn [length]; try lia.
    + do 3 eexists; (split; [reflexivity|]);
        cbn [Importer.count_error Importer.count_duplicate Importer.imported
             Importer.duplicates Importer.errors length];
        repeat split; settle; cbn [length]; try lia.
Qed.


Lemma answered_app (before new1 new2 : list exchange) :
  answered w before new1 -> answered w (before ++ new1) new2 ->
  answered w before (new1 ++ new2).
Proof.
  revert before. induction new1 as [|x new1 IH]; intros before H1 H2.
  - now rewrite app_nil_r in H2.
  - destruct H1 as [Hx H1]. cbn [app answered]. split; [exact Hx|].
    apply IH; [exact H1|]. now rewrite <- app_assoc.
Qed.

Lemma count_says_app (status : string) (new1 new2 : list exchange) :
  count_says status (new1 ++ new2)
  = (count_says status new1 + count_says status new2)%nat.
Proof. unfold count_says. now rewrite filter_app, length_app. Qed.

Lemma import_request_store_call (learning : json) (a : reply) :
  is_store_call (import_request learning, a) = true.
Proof. reflexivity. Qed.

(** What one line of the import file does. *)
Lemma import_line_tally (numbered : nat * text) (c : Importer.counters) (s : state) :
  exists r c' s' new out,
    Importer.import_line w numbered (c, s) = (r, (c', s'))
    /\ log s' = log s ++ new
    /\ answered w (log s) new
    /\ Forall (fun x => is_store_call x = true) new
    /\ stdout s' = stdout s ++ out
    /\ stderr s' = stderr s
    /\ Importer.imported c' = (Importer.imported c + count_says "stored" new)%nat
    /\ Importer.duplicates c' = (Importer.duplicates c + count_says "duplicate" new)%nat
    /\ (length new <= length out)%nat
    /\ (r = Ok tt ->
        length out = (if blank (snd numbered) then 0 else 1)%nat
        /\ (counted c + length out <= counted c')%nat).
Proof.
  destruct numbered as [line_num line]. unfold blank. cbn [snd].
  unfold Importer.import_line.
  destruct (strip line) as [|ch rest] eqn:Hline.
  { exists (Ok tt), c, s, [], []. rewrite !app_nil_r.
    cbn [length answered count_says filter].
    repeat split; auto; lia. }
  destruct (json_loads (ch :: rest)) as [learning|] eqn:Hload.
  2: { do 2 eexists. exists (to_stdout (InvalidJson line_num) s), [], [InvalidJson line_num].
       split; [reflexivity|]. rewrite !app_nil_r.
       unfold counted. cbn [Importer.count_error Importer.imported Importer.duplicates
                            Importer.errors length answered count_says filter].
       repeat split; settle; auto; lia. }
  assert (Hsubmit : exists r c' s' new out,
             Importer.submit w line_num learning (c, s) = (r, (c', s'))
             /\ log s' = log s ++ new
             /\ answered w (log s) new
             /\ Forall (fun x => is_store_call x = true) new
             /\ stdout s' = stdout s ++ out
             /\ stderr s' = stderr s
             /\ Importer.imported c' = (Importer.imported c + count_says "stored" new)%nat
             /\ Importer.duplicates c' = (Importer.duplicates c + count_says "duplicate" new)%nat
             /\ (length new <= length out)%nat
             /\ (r = Ok tt ->
                 length out = 1%nat
                 /\ (counted c + length out <= counted c')%nat)).
  { destruct (submit_tally line_num learning c s)
      as (c' & s' & out & Hrun & Hlog & Hout & Herr & Hi & Hd & _ & Hlt).
    exists (Ok tt), c', s', [(import_request learning,
                             network w (log s) (import_request learning))], [out].
    split; [exact Hrun|]. split; [exact Hlog|].
    split; [cbn [answered fst snd]; auto|].
    split; [constructor; [apply import_request_store_call|constructor]|].
    split; [exact Hout|]. split; [exact Herr|]. split; [exact Hi|].
    split; [exact Hd|]. split; [cbn [length]; lia|].
    intros _. split; [reflexivity|].
    unfold counted. cbn [length]. lia. }
  assert (Hmissing : exists r c' s' new out,
             (global (print (MissingFields line_num)) ;;
              update_locals Importer.count_error)%py (c, s) = (r, (c', s'))
             /\ log s' = log s ++ new
             /\ answered w (log s) new
             /\ Forall (fun x => is_store_call x = true) new
             /\ stdout s' = stdout s ++ out
             /\ stderr s' = stderr s
             /\ Importer.imported c' = (Importer.imported c + count_says "stored" new)%nat
             /\ Importer.duplicates c' = (Importer.duplicates c + count_says "duplicate" new)%nat
             /\ (length new <= length out)%nat
             /\ (r = Ok tt ->
                 length out = 1%nat
                 /\ (counted c + length out <= counted c')%nat)).
  { do 2 eexists. exists (to_stdout (MissingFields line_num) s), [], [MissingFields line_num].
    split; [reflexivity|]. rewrite !app_nil_r.
    unfold counted. cbn [Importer.count_error Importer.imported Importer.duplicates
                         Importer.errors length answered count_says filter].
    repeat split; settle; auto; lia. }
  unfold bind at 1, lift, has.
  destruct learning as [| | | | t|l|d]; cbn beta iota.
  1-4: exists (Raised (Error TypeError)), c, s, [], []; rewrite !app_nil_r;
       cbn [length answered count_says filter];
       split; [reflexivity|]; repeat split; auto; try lia; discriminate.
  - unfold bind, ret, lift, has. cbn beta iota.
    destruct (contains (str "type") t); cbn [negb]; [|exact Hmissing].
    destruct (contains (str "content") t); cbn [negb]; [exact Hsubmit|exact Hmissing].
  - unfold bind, ret, lift, has. cbn beta iota.
    destruct (existsb _ l); cbn [negb]; [|exact Hmissing].
    destruct (existsb _ l); cbn [negb]; [exact Hsubmit|exact Hmissing].
  - unfold bind, ret, lift, has. cbn beta iota.
    destruct (dict_lookup (str "type") d); cbn [negb]; [|exact Hmissing].
    destruct (dict_lookup (str "content") d); cbn [negb]; [exact Hsubmit|exact Hmissing].
Qed.

(** What the loop over the lines does. *)
Lemma import_loop_tally (lines : list (nat * text)) (c : Importer.counters)
    (s : state) :
  exists r c' s' new out,
    for_each lines (Importer.import_line w) (c, s) = (r, (c', s'))
    /\ log s' = log s ++ new
    /\ answered w (log s) new
    /\ Forall (fun x => is_store_call x = true) new
    /\ stdout s' = stdout s ++ out
    /\ stderr s' = stderr s
    /\ Importer.imported c' = (Importer.imported c + count_says "stored" new)%nat
    /\ Importer.duplicates c' = (Importer.duplicates c + count_says "duplicate" new)%nat
    /\ (length new <= length out)%nat
    /\ (r = Ok tt ->
        length out = length (filter (fun l => negb (blank (snd l))) lines)
        /\ (counted c + length out <= counted c')%nat).
Proof.
  revert c s. induction lines as [|numbered lines IH]; intros c s.
  { exists (Ok tt), c, s, [], []. rewrite !app_nil_r.
    cbn [length answered count_says filter for_each].
    split; [reflexivity|]. repeat split; auto; lia. }
  destruct (import_line_tally numbered c s)
    as (r1 & c1 & s1 & new1 & out1 & Hrun1 & Hlog1 & Hans1 & Hall1 & Hout1
        & Herr1 & Hi1 & Hd1 & Hlen1 & Hr1).
  cbn [for_each]. unfold bind at 1. rewrite Hrun1.
  destruct r1 as [[]|x].
  2: { exists (Raised x), c1, s1, new1, out1.
       split; [reflexivity|]. repeat split; auto; discriminate. }
  destruct (Hr1 eq_refl) as [Hnb Hcount1].
  destruct (IH c1 s1)
    as (r2 & c2 & s2 & new2 & out2 & Hrun2 & Hlog2 & Hans2 & Hall2 & Hout2
        & Herr2 & Hi2 & Hd2 & Hlen2 & Hr2).
  exists r2, c2, s2, (new1 ++ new2), (out1 ++ out2).
  split; [exact Hrun2|].
  split; [rewrite Hlog2, Hlog1; now rewrite app_assoc|].
  split; [apply answered_app; [exact Hans1|now rewrite <- Hlog1]|].
  split; [apply Forall_app; now split|].
  split; [rewrite Hout2, Hout1; now rewrite app_assoc|].
  split; [congruence|].
  split; [rewrite count_says_app; lia|].
  split; [rewrite count_says_app; lia|].
  split; [rewrite !length_app; lia|].
  intros Hok. destruct (Hr2 Hok) as [Hnb2 Hcount2].
  cbn [filter]. rewrite length_app. split.
  - destruct (blank (snd numbered)); cbn [negb length]; lia.
  - lia.
Qed.

End ImporterTally.

(** The loop of the importer over any lines, whatever the collaborator
    answers.  Every request it makes is a submission to [/store]; the
    counter [imported] grows by the number of answers with the status
    [stored] and the counter [duplicates] by the number with the status
    [duplicate]; nothing is written to standard error, and every
    submission is followed by a line on standard output.  When the loop
    comes to its end, it has printed one line for each line that is not
    blank, and the three counters together have grown by at least that
    number.  A line may also end the loop with an exception. *)
Theorem importer_tally (w : world) (lines : list (nat * text))
    (c : Importer.counters) (s : state) :
  exists r c' s' new out,
    for_each lines (Importer.import_line w) (c, s) = (r, (c', s'))
    /\ log s' = log s ++ new
    /\ answered w (log s) new
    /\ Forall (fun x => is_store_call x = true) new
    /\ stdout s' = stdout s ++ out
    /\ stderr s' = stderr s
    /\ Importer.imported c' = (Importer.imported c + count_says "stored" new)%nat
    /\ Importer.duplicates c' = (Importer.duplicates c + count_says "duplicate" new)%nat
    /\ (length new <= length out)%nat
    /\ (r = Ok tt ->
        length out = length (filter (fun l => negb (blank (snd l))) lines)
        /\ (counted c + length out <= counted c')%nat).
Proof.
  destruct (import_loop_tally w lines c s)
    as (r & c' & s' & new & out & H).
  exists r, c', s', new, out. exact H.
Qed.

Lemma numbered_nonblank (lines : list text) (k : nat) :
  length (filter (fun l : nat * text => negb (blank (snd l)))
            (combine (seq k (length lines)) lines))
  = length (filter (fun l => negb (blank l)) lines).
Proof.
  revert k. induction lines as [|l lines IH]; intros k; [reflexivity|].
  cbn [length seq combine filter snd].
  destruct (negb (blank l)); cbn [length]; now rewrite IH.
Qed.

(** A run of the importer on a file that exists, with a collaborator that
    answers the health probe with 200.  After the probe every request is a
    submission to [/store], until the loop is over.  If a line ends the
    loop with an exception, the run ends with it: nothing more is printed
    or asked, and there is no summary.  Otherwise one line has been printed
    for each line of the file that is not blank; the summary follows with
    the number of answers [stored], the number of answers [duplicate] and a
    number of errors that accounts for the other lines at least; and the
    statistics are requested, without a timeout.  A failure of that last
    request is not caught: the run ends with the exception, the summary
    being the last line printed. *)
Theorem importer_report (w : world) (argv : list text) (contents : text)
    (s : state) (r0 : response) :
  2 <= len argv ->
  files w (nth 1 argv []) = Some contents ->
  network w (log s) (health_probe Importer.DAEMON_URL) = Answer r0 ->
  status_code r0 = 200 ->
  let probed := (health_probe Importer.DAEMON_URL, Answer r0) in
  exists (new : list exchange) (out : list message) (s' : state),
    snd (Importer.main w argv s) = s'
    /\ stderr s' = stderr s
    /\ answered w (log s ++ [probed]) new
    /\ Forall (fun x => is_store_call x = true) new
    /\ (length new <= length out)%nat
    /\ ((exists x,
           fst (for_each
                  (combine (seq 1 (length (Importer.file_lines contents)))
                     (Importer.file_lines contents))
                  (Importer.import_line w)
                  (Importer.no_counts, logged probed s)) = Raised x
           /\ fst (Importer.main w argv s) = Raised x
           /\ log s' = log s ++ probed :: new
           /\ stdout s' = stdout s ++ out)
        \/ (exists (errors : nat) (tail : list message),
              let a := network w (log s ++ probed :: new) stats_request in
              log s' = log s ++ probed :: new ++ [(stats_request, a)]
              /\ stdout s' = stdout s ++ out
                             ++ Summary (count_says "stored" new)
                                  (count_says "duplicate" new) errors :: tail
              /\ length out
                 = length (filter (fun l => negb (blank l))
                             (Importer.file_lines contents))
              /\ (length out
                  <= count_says "stored" new + count_says "duplicate" new + errors)%nat
              /\ (forall e, a = Failure e ->
                            fst (Importer.main w argv s) = Raised (Error e)
                            /\ tail = [])
              /\ (fst (Importer.main w argv s) = Ok tt ->
                  exists total by_type,
                    tail = [TotalLearnings total; ByType by_type]))).
Proof.
  intros Hargv Hfile Hnet Hst probed.
  destruct (import_loop_tally w
              (combine (seq 1 (length (Importer.file_lines contents)))
                 (Importer.file_lines contents))
              Importer.no_counts (logged probed s))
    as (r & c' & s1 & new & out & Hrun & Hlog & Hans & Hall & Hout & Herr
        & Hi & Hd & Hlen & Hr).
  cbn [logged log stdout stderr] in Hlog, Hans, Hout, Herr.
  cbn [Importer.no_counts Importer.imported Importer.duplicates Nat.add] in Hi, Hd.
  exists new, out, (snd (Importer.main w argv s)). split; [reflexivity|].
  destruct (Importer.main w argv s) as [rm sm] eqn:Hmain. cbn [fst snd].
  unfold Importer.main in Hmain.
  destruct (Z.ltb_spec (len argv) 2); [lia|]. rewrite Hfile in Hmain.
  unfold bind at 1, Importer.health_check, try_except, bind at 1, requests_get at 1,
    send at 1 in Hmain.
  fold (health_probe Importer.DAEMON_URL) in Hmain. rewrite Hnet, Hst in Hmain.
  cbn [Z.eqb Pos.eqb negb ret fst snd] in Hmain. fold probed in Hmain.
  unfold bind at 1, with_locals in Hmain. rewrite Hrun in Hmain. rewrite Hrun.
  assert (Hlog' : log s1 = log s ++ probed :: new)
    by (rewrite Hlog; now rewrite <- app_assoc).
  destruct r as [[]|x].
  2: { injection Hmain as <- <-.
       split; [exact Herr|]. split; [exact Hans|]. split; [exact Hall|].
       split; [exact Hlen|]. left. exists x. split; [reflexivity|].
       split; [reflexivity|]. split; [exact Hlog'|exact Hout]. }
  destruct (Hr eq_refl) as [Hnb Hcount].
  rewrite numbered_nonblank in Hnb.
  unfold counted in Hcount.
  cbn [Importer.no_counts Importer.imported Importer.duplicates Importer.errors
       Nat.add] in Hcount.
  cbn [snd] in Hmain.
  unfold bind at 1, print at 1 in Hmain. unfold bind at 1, requests_get, send in Hmain.
  fold stats_request in Hmain. cbn [to_stdout log] in Hmain.
  rewrite Hlog' in Hmain.
  split; [|split; [exact Hans|split; [exact Hall|split; [exact Hlen|]]]].
  { revert Hmain. unfold bind, lift, print.
    destruct (network w (log s ++ probed :: new) stats_request);
      split_cases; intros Hmain; injection Hmain as <- <-; settle; exact Herr. }
  right. exists (Importer.errors c').
  destruct (network w (log s ++ probed :: new) stats_request) as [r|e] eqn:Ha.
  - revert Hmain. unfold bind, lift, print.
    split_cases; intros Hmain; injection Hmain as <- <-; eexists;
      (split; [settle; rewrite Hlog'; reassoc|]);
      (split; [settle; rewrite Hout, Hi, Hd; reassoc|]);
      (split; [exact Hnb|]); (split; [lia|]);
      (split; [discriminate|]); try discriminate;
      intros _; do 2 eexists; reflexivity.
  - injection Hmain as <- <-. exists [].
    split; [settle; rewrite Hlog'; reassoc|].
    split; [settle; rewrite Hout, Hi, Hd; reassoc|].
    split; [exact Hnb|]. split; [lia|].
    split; [intros e' He'; injection He' as <-; split; reflexivity|discriminate].
Qed.

Lemma importer_report_witness :
  exists (new : list exchange) (out : list message),
    answered import_world
      [(health_probe Importer.DAEMON_URL,
        Answer {| status_code := 200; content := [] |})] new
    /\ Forall (fun x => is_store_call x = true) new
    /\ (length new <= length out)%nat
    /\ stderr (snd (Importer.main import_world import_argv Importer.initial_state)) = [].
Proof.
  destruct (importer_report import_world import_argv
              (jtext "{'type': 'GOTCHA', 'content': 'use a fake clock'}"
                 ++ nl :: str "  " ++ nl :: str "not json" ++ [nl])
              Importer.initial_state {| status_code := 200; content := [] |})
    as (new & out & s' & Hs & Herr & Hans & Hall & Hlen & _).
  - vm_compute. discriminate.
  - reflexivity.
  - reflexivity.
  - reflexivity.
  - exists new, out. rewrite Hs. auto.
Defined.

(** The example run of the importer: a record, a blank line and a line that
    is not JSON. *)
Example importer_example_run :
  Importer.run import_world import_argv
  = (0, {| DAEMON_URL := Importer.DAEMON_URL;
           log := [(health_probe Importer.DAEMON_URL,
                    Answer {| status_code := 200; content := [] |});
                   (import_request (JObj gotcha_record),
                    Answer {| status_code := 200;
                              content := jtext "{'status': 'stored'}" |});
                   (stats_request,
                    Answer {| status_code := 200;
                              content := jtext "{'total_learnings': 1, 'by_type': {'GOTCHA': 1}}" |})];
           stdout := [Stored (JStr (str "GOTCHA")) (JStr (str "use a fake clock"));
                      InvalidJson 3;
                      Summary 1 0 1;
                      TotalLearnings (JInt 1);
                      ByType (JObj [(str "GOTCHA", JInt 1)])];
           stderr := [] |}).
Proof. vm_compute. reflexivity. Qed.

Lemma importer_main_keeps (w : world) (argv : list text) :
  keeps id importer_call anything_goes (Importer.main w argv).
Proof.
  unfold Importer.main.
  destruct (len argv <? 2).
  { apply keeps_bind; [apply keeps_print; exact I | intros _; keep]. }
  destruct (files w (nth 1 argv [])) as [contents|].
  2: { apply keeps_bind; [apply keeps_print; exact I | intros _; keep]. }
  apply keeps_bind.
  { unfold Importer.health_check. apply keeps_try.
    - apply keeps_bind.
      + apply keeps_send. intros ?. left. reflexivity.
      + intros resp. destruct (negb _); [|keep].
        apply keeps_bind; [apply keeps_print; exact I | intros _; keep].
    - intros _. apply keeps_bind; [apply keeps_print; exact I | intros _; keep]. }
  intros _. apply keeps_bind.
  { apply keeps_with_locals. apply keeps_for_each. intros [line_num line].
    unfold Importer.import_line.
    destruct (strip line); [keep|].
    destruct (json_loads _) as [learning|].
    2: { apply keeps_bind; [apply keeps_global, keeps_print; exact I | intros _; keep]. }
    apply keeps_bind; [keep|]. intros has_type.
    apply keeps_bind; [destruct (negb has_type); keep|]. intros [|].
    { apply keeps_bind; [apply keeps_global, keeps_print; exact I | intros _; keep]. }
    unfold Importer.submit. apply keeps_try.
    - apply keeps_bind.
      { apply keeps_global, keeps_send. intros ?. right. right. now eexists. }
      intros resp. apply keeps_bind; [keep|]. intros result.
      apply keeps_bind; [keep|]. intros status.
      destruct (eq_str status _).
      + apply keeps_bind; [keep|]. intros _.
        apply keeps_bind; [keep|]. intros type.
        apply keeps_bind; [keep|]. intros content.
        apply keeps_bind; [keep|]. intros preview.
        apply keeps_global, keeps_print. exact I.
      + apply keeps_bind; [keep|]. intros status'.
        destruct (eq_str status' _).
        * apply keeps_bind; [keep|]. intros _.
          apply keeps_bind; [keep|]. intros similarity.
          apply keeps_bind; [keep|]. intros similarity'.
          apply keeps_bind; [keep|]. intros content.
          apply keeps_bind; [keep|]. intros preview.
          apply keeps_global, keeps_print. exact I.
        * apply keeps_bind; [apply keeps_global, keeps_print; exact I | intros _; keep].
    - intros e. apply keeps_bind; [apply keeps_global, keeps_print; exact I | intros _; keep]. }
  intros r. apply keeps_bind; [apply keeps_print; exact I|]. intros _.
  apply keeps_bind; [apply keeps_send; intros ?; right; left; reflexivity|].
  intros resp. apply keeps_bind; [keep|]. intros stats.
  apply keeps_bind; [keep|]. intros total.
  apply keeps_bind; [apply keeps_print; exact I|]. intros _.
  apply keeps_bind; [keep|]. intros by_type.
  apply keeps_print. exact I.
Qed.

(** Whatever its arguments, an option [--daemon-url] among them, and
    whatever the world does, the importer talks to one address, the one the
    script fixes: each of its requests is the health probe, a submission or
    the request for the statistics at [http://localhost:8741]. *)
Theorem importer_fixed_address (w : world) (argv : list text) (s : state) :
  exists new : list exchange,
    log (snd (Importer.main w argv s)) = log s ++ new
    /\ Forall importer_call new
    /\ Forall (fun x => startswith (str "http://localhost:8741/") (url (fst x)) = true)
         new.
Proof.
  destruct (importer_main_keeps w argv s) as (new & outs & errs & Hall & _ & Hgrows).
  destruct Hgrows as (_ & Hlog & _). unfold id in Hlog.
  exists new. split; [exact Hlog|]. split; [exact Hall|].
  eapply Forall_impl; [|exact Hall].
  intros [rq rp] [H | [H | [learning H]]]; cbn [fst] in H; subst rq; reflexivity.
Qed.

(* ------------------------------------------------------------------ *)
(** ** A provider's answer that is not a list *)

(** [main] takes what the provider's text decodes to as it comes.  A value
    other than [None] that Python takes for false (an empty list, but also
    zero, [false], an empty string or an empty object) ends the run with
    status 0 and the line [NoLearnings]; a number or a boolean that is true
    ends it with a [TypeError] that nothing catches, raised by [len]
    before anything is printed.  In both cases the collaborator is not
    contacted. *)
Theorem deliver_not_a_list (w : world) (learnings : json) (session_id : text)
    (s : state) :
  learnings <> JNull ->
  (truthy learnings = false ->
   deliver w learnings session_id s
   = (Raised (SystemExit 0), to_stderr NoLearnings s))
  /\ (truthy learnings = true -> scalar learnings ->
      deliver w learnings session_id s = (Raised (Error TypeError), s)).
Proof.
  intros Hnull. unfold deliver.
  destruct (is_None learnings) eqn:E; [apply is_None_iff in E; contradiction|].
  split.
  - intros ->. reflexivity.
  - intros -> Hs. cbn [negb]. unfold bind at 1, lift.
    destruct learnings; cbn [scalar] in Hs; try contradiction; reflexivity.
Qed.

Lemma deliver_not_a_list_witness :
  deliver offline_world (JObj []) (str "abc") (initial_state offline_world)
  = (Raised (SystemExit 0), to_stderr NoLearnings (initial_state offline_world))
  /\ deliver offline_world (JInt 42) (str "abc") (initial_state offline_world)
     = (Raised (Error TypeError), initial_state offline_world).
Proof.
  split.
  - apply (deliver_not_a_list offline_world (JObj []) (str "abc")).
    + discriminate.
    + reflexivity.
  - apply (deliver_not_a_list offline_world (JInt 42) (str "abc")).
    + discriminate.
    + reflexivity.
    + exact I.
Defined.
